(** * Query strategies, resilience decorators and the performance monitor

    A shallow embedding of the JavaScript sources
      - [patterns/QueryStrategy.js]   (RedisCacheStrategy, DirectPostgreSQLStrategy,
                                       HybridStrategy),
      - [patterns/QueryDecorators.js] (RetryDecorator, MetricsDecorator,
                                       CircuitBreakerDecorator),
      - [patterns/PerformanceMonitor.js] (PerformanceMonitor),
      - [patterns/Errors.js],
    followed by the properties established about them.

    Conventions.
      - A JavaScript number that holds an integer (identifiers, counters,
        millisecond clock readings) is a [Z].
      - An [async] method is a computation in the monad [M]: it reads and
        updates a state and either returns a value or throws a [JsError].
        [await] is sequencing.  The calls made on one object follow one
        another; for the circuit breaker, whose fields are written on both
        sides of its [await], calls that overlap are modelled too.
      - The collaborators that are not part of the repository (the Redis
        client, the PostgreSQL pool, [JSON], the clock, the wrapped executor,
        the observers) are parameters.  Every invocation of a collaborator
        is appended to a log, so that statements such as "the store is not
        read" or "exactly k + 1 inner calls" are statements about that log.
      - [console.log], [console.warn] and [console.error] only print and are
        left out. *)

From Stdlib Require Import ZArith Lia.
From stdpp Require Import base option list gmap strings pretty sorting.

Local Open Scope Z_scope.

(** ** Errors (patterns/Errors.js) *)

(** An [Error] object: its [name], its [message] and, for the
    [DatabaseError] family, the [originalError] it wraps. *)
#[warnings="-register-all"]
Inductive JsError : Type :=
  MkError (name : string) (message : string) (originalError : option JsError).

Definition error_name (e : JsError) : string :=
  match e with MkError n _ _ => n end.
Definition error_message (e : JsError) : string :=
  match e with MkError _ m _ => m end.
Definition error_originalError (e : JsError) : option JsError :=
  match e with MkError _ _ o => o end.

(** [new Error(message)] *)
Definition Error (message : string) : JsError := MkError "Error" message None.
(** [new QueryError(message, query, originalError)]; the [query] argument is
    always [null] in the modelled code. *)
Definition QueryError (message : string) (originalError : option JsError) : JsError :=
  MkError "QueryError" message originalError.
(** [new ValidationError(message)] *)
Definition ValidationError (message : string) : JsError :=
  MkError "ValidationError" message None.
(** [new CacheError(message)] *)
Definition CacheError (message : string) : JsError :=
  MkError "CacheError" message None.

(** ** Computations that may throw *)

Inductive Outcome (A : Type) : Type :=
| Return (a : A)
| Throw (e : JsError).
Arguments Return {A} a.
Arguments Throw {A} e.

Definition M (S A : Type) : Type := S -> Outcome A * S.

Definition ret {S A} (a : A) : M S A := fun s => (Return a, s).
Definition throw {S A} (e : JsError) : M S A := fun s => (Throw e, s).
Definition bind {S A B} (m : M S A) (k : A -> M S B) : M S B :=
  fun s => match m s with
           | (Return a, s') => k a s'
           | (Throw e, s') => (Throw e, s')
           end.
(** [try { body } catch (error) { handler }] *)
Definition try_catch {S A} (body : M S A) (handler : JsError -> M S A) : M S A :=
  fun s => match body s with
           | (Return a, s') => (Return a, s')
           | (Throw e, s') => handler e s'
           end.
(** [try { body } finally { cleanup }]: the cleanup runs on both exits; when
    it throws, its error replaces the outcome of the body. *)
Definition try_finally {S A} (body : M S A) (cleanup : M S unit) : M S A :=
  fun s => match body s with
           | (r, s') => match cleanup s' with
                        | (Return _, s'') => (r, s'')
                        | (Throw e, s'') => (Throw e, s'')
                        end
           end.
Definition gets {S A} (f : S -> A) : M S A := fun s => (Return (f s), s).
Definition modify {S} (f : S -> S) : M S unit := fun s => (Return tt, f s).

Declare Scope js_scope.
Delimit Scope js_scope with js.
Notation "'let*' x := e 'in' k" := (bind e (fun x => k))
  (at level 10, x pattern, e at level 100, k at level 200) : js_scope.
Notation "e ;;; k" := (bind e (fun _ => k))
  (at level 100, k at level 200, right associativity) : js_scope.

(** Truthiness of a string-or-null value, as tested by [if (cached)]:
    [null] and the empty string are falsy. *)
Definition truthy_string (v : option string) : bool :=
  match v with
  | None => false
  | Some s => negb (String.eqb s "")
  end.

(** [a || 0] on a number-or-undefined value: [undefined] and [0] give [0]. *)
Definition or_zero (v : option Z) : Z :=
  match v with
  | None => 0
  | Some n => if n =? 0 then 0 else n
  end.

(** ** The dashboard read-model *)

(** A row of the dashboard query: the customer columns and the columns of
    one joined order. *)
Module Row.
Record t : Type := mk {
    id : Z; name : string; email : string;
    order_id : Z; total_cents : Z; status : string; created_at : string }.
End Row.

Module Customer.
Record t : Type := mk { id : Z; name : string; email : string }.
End Customer.

Module Order.
Record t : Type := mk {
    id : Z; total_cents : Z; status : string; created_at : string }.
End Order.

(** [{ customer, orders }]; [customer = None] is JavaScript's [null]. *)
Record Dashboard : Type := {
  customer : option Customer.t;
  orders : list Order.t }.

(** [_formatCustomerDashboard(rows)].  The three strategies carry the same
    text of this method.  When [rows.length !== 0] the element [rows[0]]
    exists, so the optional chaining [rows[0]?.id] reads its field. *)
Definition _formatCustomerDashboard (rows : list Row.t) : Dashboard :=
  match rows with
  | [] => {| customer := None; orders := [] |}
  | r0 :: _ =>
      {| customer := Some (Customer.mk (Row.id r0) (Row.name r0) (Row.email r0));
         orders := map (fun r => Order.mk (Row.order_id r) (Row.total_cents r)
                                          (Row.status r) (Row.created_at r)) rows |}
  end.

(** [_getCustomerDashboardQuery()] *)
Definition _getCustomerDashboardQuery : string :=
  "
      SELECT 
        c.id,
        c.name,
        c.email,
        o.id as order_id,
        o.total_cents,
        o.status,
        o.created_at
      FROM customers c
      LEFT JOIN orders o ON o.customer_id = c.id
      WHERE c.id = $1
        AND o.status IN ('pending', 'processing')
      ORDER BY o.created_at DESC
      LIMIT 10
    ".

(** ** Monitor events (patterns/PerformanceMonitor.js) *)

(** The [queryInfo] object handed to [recordQuery]; [error] is absent
    ([None]) on the success path of the callers. *)
Module QueryInfo.
Record t : Type := mk {
    strategy : string; customerId : Z; duration : Z;
    success : bool; error : option string }.
End QueryInfo.

(** [{ ...queryInfo, timestamp: Date.now() }] *)
Module QueryRecord.
Record t : Type := mk { info : QueryInfo.t; timestamp : Z }.
End QueryRecord.

Inductive AlertType : Type := SLOW_QUERY | QUERY_ERROR.

Module Alert.
Record t : Type := mk {
    type : AlertType; message : string; data : QueryInfo.t; timestamp : Z }.
End Alert.

(** [{ type: 'QUERY_EXECUTED', data }] and [{ type: 'ALERT', data }] *)
Inductive MonitorEvent : Type :=
| QUERY_EXECUTED (data : QueryInfo.t)
| ALERT (data : Alert.t).

(** An object passed to [subscribe]: its identity and whether it has an
    [update] method. *)
Module Observer.
Record t : Type := mk { id : nat; has_update : bool }.
End Observer.

(** ** Collaborators and the log of their invocations *)

(** A client checked out of the PostgreSQL pool. *)
Definition Client : Type := nat.

Inductive Call : Type :=
| RedisGet (key : string)
| RedisSetex (key : string) (seconds : Z) (value : string)
| PoolConnect
| ClientQuery (client : Client) (text : string) (values : list Z)
| ClientRelease (client : Client)
| ExecutorCall (customerId : Z)
| Sleep (ms : Z)
| ObserverUpdate (observer : nat) (event : MonitorEvent).

(** The state of everything outside the modelled classes ([env]) together
    with the log of the calls made so far, oldest first. *)
Record World (E : Type) : Type := { env : E; log : list Call }.
Arguments env {E} _.
Arguments log {E} _.

(** Run a collaborator operation on the environment and log the call. *)
Definition invoke {E A} (c : Call) (op : M E A) : M (World E) A :=
  fun w => match op (env w) with
           | (r, e') => (r, {| env := e'; log := log w ++ [c] |})
           end.

(** The gateways used by the strategies: [redis.get], [redis.setex],
    [pgPool.connect], [client.query], [client.release], [JSON.stringify],
    [JSON.parse] and the configuration value [config.benchmark.redisTTL]. *)
Record Gateways (E : Type) : Type := {
  redis_get : string -> M E (option string);
  redis_setex : string -> Z -> string -> M E unit;
  pgPool_connect : M E Client;
  client_query : Client -> string -> list Z -> M E (list Row.t);
  client_release : Client -> M E unit;
  JSON_stringify : Dashboard -> string;
  JSON_parse : string -> Outcome Dashboard;
  redisTTL : Z }.
Arguments redis_get {E} _ _ _.
Arguments redis_setex {E} _ _ _ _ _.
Arguments pgPool_connect {E} _ _.
Arguments client_query {E} _ _ _ _ _.
Arguments client_release {E} _ _ _.
Arguments JSON_stringify {E} _ _.
Arguments JSON_parse {E} _ _.
Arguments redisTTL {E} _.

(** What a decorator sees of its surroundings: the wrapped
    [executor.getCustomerDashboard], the clock [Date.now()] and the passing
    of time in [_sleep(ms)]. *)
Record Inner (E : Type) : Type := {
  executor_getCustomerDashboard : Z -> M E Dashboard;
  Date_now : E -> Z;
  setTimeout : Z -> E -> E }.
Arguments executor_getCustomerDashboard {E} _ _ _.
Arguments Date_now {E} _ _.
Arguments setTimeout {E} _ _ _.

(** What the monitor sees of its surroundings: [observer.update(event)] of
    the observer with the given identity, and the clock. *)
Record Surroundings (E : Type) : Type := {
  observer_update : nat -> MonitorEvent -> M E unit;
  clock : E -> Z }.
Arguments observer_update {E} _ _ _ _.
Arguments clock {E} _ _.

(** An object with fields [T] living in a world: the state threaded through
    its methods is the pair of both. *)
Definition on_world {T W A} (m : M W A) : M (T * W) A :=
  fun s => match m (snd s) with (r, w') => (r, (fst s, w')) end.
Definition on_this {T W} (f : T -> T) : M (T * W) unit :=
  modify (fun s => (f (fst s), snd s)).
Definition read_this {T W A} (f : T -> A) : M (T * W) A :=
  gets (fun s => f (fst s)).
Definition of_outcome {S A} (r : Outcome A) : M S A := fun s => (r, s).

(** [`dashboard:${customerId}`].  The identifier is printed with all its
    decimal digits, as the template literal does for an integer below
    10^21 in absolute value; larger identifiers are outside the model. *)
Definition cacheKey (customerId : Z) : string := "dashboard:" +:+ pretty customerId.

(** ** Query strategies (patterns/QueryStrategy.js) *)

Module RedisCacheStrategy.

(** The fields [cacheHits] and [cacheMisses]; [redis] and [pgPool] are the
    gateways. *)
Record t : Type := mk { cacheHits : Z; cacheMisses : Z }.

(** [constructor()] *)
Definition new : t := {| cacheHits := 0; cacheMisses := 0 |}.

Section Methods.
Context {E : Type} (G : Gateways E).
Local Open Scope js_scope.

Definition getCustomerDashboard (customerId : Z) : M (t * World E) Dashboard :=
  let cacheKey := cacheKey customerId in
  (* Step 1: Check cache *)
  let* cached := on_world (invoke (RedisGet cacheKey) (redis_get G cacheKey)) in
  if truthy_string cached then
    on_this (fun this => {| cacheHits := cacheHits this + 1;
                            cacheMisses := cacheMisses this |}) ;;;
    of_outcome (JSON_parse G (default "" cached))
  else
    (* Step 2: Cache miss - query database *)
    on_this (fun this => {| cacheHits := cacheHits this;
                            cacheMisses := cacheMisses this + 1 |}) ;;;
    let* client := on_world (invoke PoolConnect (pgPool_connect G)) in
    try_finally
      (let* rows := on_world (invoke (ClientQuery client _getCustomerDashboardQuery [customerId])
                                (client_query G client _getCustomerDashboardQuery [customerId])) in
       let data := _formatCustomerDashboard rows in
       (* Step 3: Write to cache *)
       on_world (invoke (RedisSetex cacheKey (redisTTL G) (JSON_stringify G data))
                   (redis_setex G cacheKey (redisTTL G) (JSON_stringify G data))) ;;;
       ret data)
      (on_world (invoke (ClientRelease client) (client_release G client))).

End Methods.
End RedisCacheStrategy.

Module DirectPostgreSQLStrategy.
Section Methods.
Context {E : Type} (G : Gateways E).
Local Open Scope js_scope.

(** The strategy has no fields of its own. *)
Definition getCustomerDashboard (customerId : Z) : M (World E) Dashboard :=
  let* client := invoke PoolConnect (pgPool_connect G) in
  try_finally
    (let* rows := invoke (ClientQuery client _getCustomerDashboardQuery [customerId])
                    (client_query G client _getCustomerDashboardQuery [customerId]) in
     ret (_formatCustomerDashboard rows))
    (invoke (ClientRelease client) (client_release G client)).

End Methods.
End DirectPostgreSQLStrategy.

Module HybridStrategy.

(** The fields [hotDataThreshold] and [accessCount] (a [Map] from customer
    identifier to count). *)
Record t : Type := mk { hotDataThreshold : Z; accessCount : gmap Z Z }.

(** [constructor(hotDataThreshold = 100)]: the default applies when the
    argument is [undefined]. *)
Definition new (hotDataThreshold : option Z) : t :=
  {| hotDataThreshold := default 100 hotDataThreshold; accessCount := ∅ |}.

Section Methods.
Context {E : Type} (G : Gateways E).
Local Open Scope js_scope.

Definition _getFromPostgres (customerId : Z) : M (t * World E) Dashboard :=
  let* client := on_world (invoke PoolConnect (pgPool_connect G)) in
  try_finally
    (let* rows := on_world (invoke (ClientQuery client _getCustomerDashboardQuery [customerId])
                              (client_query G client _getCustomerDashboardQuery [customerId])) in
     ret (_formatCustomerDashboard rows))
    (on_world (invoke (ClientRelease client) (client_release G client))).

Definition _getFromRedis (customerId : Z) : M (t * World E) Dashboard :=
  let cacheKey := cacheKey customerId in
  let* cached := on_world (invoke (RedisGet cacheKey) (redis_get G cacheKey)) in
  if truthy_string cached then
    of_outcome (JSON_parse G (default "" cached))
  else
    let* data := _getFromPostgres customerId in
    on_world (invoke (RedisSetex cacheKey (redisTTL G) (JSON_stringify G data))
                (redis_setex G cacheKey (redisTTL G) (JSON_stringify G data))) ;;;
    ret data.

Definition getCustomerDashboard (customerId : Z) : M (t * World E) Dashboard :=
  (* Track access frequency *)
  let* previous := read_this (fun this => accessCount this !! customerId) in
  let count := or_zero previous + 1 in
  on_this (fun this => {| hotDataThreshold := hotDataThreshold this;
                          accessCount := <[customerId := count]> (accessCount this) |}) ;;;
  let* threshold := read_this hotDataThreshold in
  (* Hot data - use Redis *)
  if count >=? threshold then _getFromRedis customerId
  (* Cold data - use PostgreSQL directly *)
  else _getFromPostgres customerId.

End Methods.
End HybridStrategy.

(** ** Decorators (patterns/QueryDecorators.js) *)

(** [await this.executor.getCustomerDashboard(customerId)], logged. *)
Definition call_executor {T E} (I : Inner E) (customerId : Z) : M (T * World E) Dashboard :=
  on_world (invoke (ExecutorCall customerId) (executor_getCustomerDashboard I customerId)).

(** [Date.now()] *)
Definition now {T E} (I : Inner E) : M (T * World E) Z :=
  gets (fun s => Date_now I (env (snd s))).

Module RetryDecorator.

Record t : Type := mk { maxRetries : Z; initialDelay : Z }.

(** [constructor(executor, maxRetries = 3, initialDelay = 100)] *)
Definition new (maxRetries initialDelay : option Z) : t :=
  {| maxRetries := default 3 maxRetries; initialDelay := default 100 initialDelay |}.

Section Methods.
Context {E : Type} (I : Inner E).
Local Open Scope js_scope.

(** [_sleep(ms)] *)
Definition _sleep (ms : Z) : M (t * World E) unit :=
  on_world (invoke (Sleep ms) (fun e => (Return tt, setTimeout I ms e))).

(** The statement after the loop:
    [throw new QueryError(`Failed after ${this.maxRetries + 1} attempts`, null, lastError)] *)
Definition after_loop (lastError : option JsError) : M (t * World E) Dashboard :=
  let* maxRetries := read_this maxRetries in
  throw (QueryError ("Failed after " +:+ pretty (maxRetries + 1) +:+ " attempts") lastError).

(** The body of [for (let attempt = 0; attempt <= this.maxRetries; attempt++)],
    run for the values of [attempt] still to come.  Leaving the loop, by its
    condition or by [break], reaches [after_loop]. *)
Fixpoint loop (customerId : Z) (attempts : list Z) (lastError : option JsError)
  : M (t * World E) Dashboard :=
  match attempts with
  | [] => after_loop lastError
  | attempt :: rest =>
      try_catch (call_executor I customerId)
        (fun error =>
           (* Don't retry on validation errors *)
           if String.eqb (error_name error) "ValidationError" then throw error
           else
             let* maxRetries := read_this maxRetries in
             (* Last attempt - throw error *)
             if attempt =? maxRetries then after_loop (Some error)
             else
               (* Calculate exponential backoff delay *)
               let* initialDelay := read_this initialDelay in
               let delay := initialDelay * 2 ^ attempt in
               _sleep delay ;;;
               loop customerId rest (Some error))
  end.

(** [getCustomerDashboard(customerId)]: [attempt] takes the values
    [0, 1, ..., maxRetries] in turn ([seqZ 0 n] is empty for [n <= 0]). *)
Definition getCustomerDashboard (customerId : Z) : M (t * World E) Dashboard :=
  let* maxRetries := read_this maxRetries in
  loop customerId (seqZ 0 (maxRetries + 1)) None.

End Methods.
End RetryDecorator.

(** [Math.floor(length * p)] for [p = percent / 100] with [percent] one of
    50, 95, 99.  The product is formed in double precision in the source;
    the integer quotient agrees with it for every array length an array can
    have. *)
Definition floor_times (length : nat) (percent : Z) : nat :=
  Z.to_nat (Z.of_nat length * percent / 100).

(** [[...xs].sort((a, b) => a - b)]: a stable ascending sort of numbers. *)
Definition sort_ascending (xs : list Z) : list Z := merge_sort Z.le xs.

(** The quotient [numerator / denominator] that the source renders with
    [toFixed(2)]; the rendering is not modelled. *)
Record Quotient : Type := { numerator : Z; denominator : Z }.

Module MetricsDecorator.

(** The field [metrics]. *)
Record t : Type := mk {
  totalQueries : Z;
  successfulQueries : Z;
  failedQueries : Z;
  totalDuration : Z;
  latencies : list Z }.

(** [constructor(executor)] and [resetMetrics()] *)
Definition new : t :=
  {| totalQueries := 0; successfulQueries := 0; failedQueries := 0;
     totalDuration := 0; latencies := [] |}.
Definition resetMetrics (this : t) : t := new.

(** The object returned by [getMetrics()]: the fields of [metrics] and the
    derived ones.  [averageLatency] and [successRate] are [None] for the
    literal [0] of the source's else-branches. *)
Record Metrics : Type := {
  metrics : t;
  averageLatency : option Quotient;
  p50 : Z; p95 : Z; p99 : Z;
  successRate : option Quotient }.

Definition getMetrics (this : t) : Metrics :=
  let latencies := sort_ascending (latencies this) in
  {| metrics := this;
     averageLatency :=
       if totalQueries this >? 0
       then Some {| numerator := totalDuration this; denominator := totalQueries this |}
       else None;
     p50 := or_zero (latencies !! floor_times (length latencies) 50);
     p95 := or_zero (latencies !! floor_times (length latencies) 95);
     p99 := or_zero (latencies !! floor_times (length latencies) 99);
     successRate :=
       if totalQueries this >? 0
       then Some {| numerator := successfulQueries this * 100;
                    denominator := totalQueries this |}
       else None |}.

Section Methods.
Context {E : Type} (I : Inner E).
Local Open Scope js_scope.

Definition getCustomerDashboard (customerId : Z) : M (t * World E) Dashboard :=
  let* startTime := now I in
  on_this (fun this =>
    {| totalQueries := totalQueries this + 1;
       successfulQueries := successfulQueries this;
       failedQueries := failedQueries this;
       totalDuration := totalDuration this;
       latencies := latencies this |}) ;;;
  try_catch
    (let* result := call_executor I customerId in
     let* finished := now I in
     let duration := finished - startTime in
     on_this (fun this =>
       {| totalQueries := totalQueries this;
          successfulQueries := successfulQueries this + 1;
          failedQueries := failedQueries this;
          totalDuration := totalDuration this + duration;
          latencies := latencies this ++ [duration] |}) ;;;
     ret result)
    (fun error =>
       on_this (fun this =>
         {| totalQueries := totalQueries this;
            successfulQueries := successfulQueries this;
            failedQueries := failedQueries this + 1;
            totalDuration := totalDuration this;
            latencies := latencies this |}) ;;;
       throw error).

End Methods.
End MetricsDecorator.

Module CircuitBreakerDecorator.

Inductive State : Type := CLOSED | OPEN | HALF_OPEN.

Definition State_eqb (a b : State) : bool :=
  match a, b with
  | CLOSED, CLOSED | OPEN, OPEN | HALF_OPEN, HALF_OPEN => true
  | _, _ => false
  end.

(** [nextAttempt = None] is JavaScript's [null]. *)
Record t : Type := mk {
  threshold : Z;
  resetTimeout : Z;
  failureCount : Z;
  state : State;
  nextAttempt : option Z }.

(** [constructor(executor, threshold = 5, resetTimeout = 60000)] *)
Definition new (threshold resetTimeout : option Z) : t :=
  {| threshold := default 5 threshold;
     resetTimeout := default 60000 resetTimeout;
     failureCount := 0;
     state := CLOSED;
     nextAttempt := None |}.

Definition set_state (v : State) (this : t) : t :=
  {| threshold := threshold this; resetTimeout := resetTimeout this;
     failureCount := failureCount this; state := v;
     nextAttempt := nextAttempt this |}.
Definition set_failureCount (v : Z) (this : t) : t :=
  {| threshold := threshold this; resetTimeout := resetTimeout this;
     failureCount := v; state := state this;
     nextAttempt := nextAttempt this |}.
Definition set_nextAttempt (v : option Z) (this : t) : t :=
  {| threshold := threshold this; resetTimeout := resetTimeout this;
     failureCount := failureCount this; state := state this;
     nextAttempt := v |}.

Section Methods.
Context {E : Type} (I : Inner E).
Local Open Scope js_scope.

(** [_onSuccess()] *)
Definition _onSuccess : M (t * World E) unit :=
  on_this (set_failureCount 0) ;;;
  let* state := read_this state in
  if State_eqb state HALF_OPEN then on_this (set_state CLOSED) else ret tt.

(** [_onFailure()] *)
Definition _onFailure : M (t * World E) unit :=
  on_this (fun this => set_failureCount (failureCount this + 1) this) ;;;
  let* failureCount := read_this failureCount in
  let* threshold := read_this threshold in
  if failureCount >=? threshold then
    on_this (set_state OPEN) ;;;
    let* t := now I in
    let* resetTimeout := read_this resetTimeout in
    on_this (set_nextAttempt (Some (t + resetTimeout)))
  else ret tt.

(** The first statement of [getCustomerDashboard]:
    [if (this.state === 'OPEN') { ... }].  In [Date.now() < this.nextAttempt]
    a [null] converts to [0]. *)
Definition guard : M (t * World E) unit :=
  let* state := read_this state in
  if State_eqb state OPEN then
    let* t := now I in
    let* nextAttempt := read_this nextAttempt in
    if t <? default 0 nextAttempt
    then throw (Error "Circuit breaker is OPEN - service unavailable")
    else on_this (set_state HALF_OPEN)
  else ret tt.

(** The second statement: [try { ... } catch (error) { ... }]. *)
Definition attempt (customerId : Z) : M (t * World E) Dashboard :=
  try_catch
    (let* result := call_executor I customerId in
     _onSuccess ;;;
     ret result)
    (fun error => _onFailure ;;; throw error).

Definition getCustomerDashboard (customerId : Z) : M (t * World E) Dashboard :=
  guard ;;; attempt customerId.

End Methods.
End CircuitBreakerDecorator.

(** ** The performance monitor (patterns/PerformanceMonitor.js) *)

Module PerformanceMonitor.

(** The fields [observers], [metrics.queries] and [metrics.alerts]. *)
Record t : Type := mk {
  observers : list Observer.t;
  queries : list QueryRecord.t;
  alerts : list Alert.t }.

(** [constructor()] *)
Definition new : t := {| observers := []; queries := []; alerts := [] |}.

(** [clear()] *)
Definition clear (this : t) : t :=
  {| observers := observers this; queries := []; alerts := [] |}.

(** The object returned by [getSummary()]; a percentile is [None] when the
    indexed element is [undefined]. *)
Record Summary : Type := {
  totalQueries : nat;
  avgDuration : Quotient;
  p50 : option Z; p95 : option Z; p99 : option Z;
  alerts_count : nat }.

(** [getSummary()]; [None] is the returned [null]. *)
Definition getSummary (this : t) : option Summary :=
  let queries := queries this in
  if (length queries =? 0)%nat then None
  else
    let durations := map (fun q => QueryInfo.duration (QueryRecord.info q)) queries in
    let sorted := sort_ascending durations in
    Some {| totalQueries := length queries;
            avgDuration := {| numerator := foldl Z.add 0 durations;
                              denominator := Z.of_nat (length durations) |};
            p50 := sorted !! floor_times (length sorted) 50;
            p95 := sorted !! floor_times (length sorted) 95;
            p99 := sorted !! floor_times (length sorted) 99;
            alerts_count := length (alerts this) |}.

Section Methods.
Context {E : Type} (S : Surroundings E).
Local Open Scope js_scope.

(** [subscribe(observer)] *)
Definition subscribe (observer : Observer.t) : M (t * World E) unit :=
  if negb (Observer.has_update observer)
  then throw (Error "Observer must implement update() method")
  else on_this (fun this =>
         {| observers := observers this ++ [observer];
            queries := queries this; alerts := alerts this |}).

(** [unsubscribe(observer)]: [obs !== observer] compares identities. *)
Definition unsubscribe (observer : Observer.t) : M (t * World E) unit :=
  on_this (fun this =>
    {| observers := filter (fun obs => Observer.id obs ≠ Observer.id observer)
                           (observers this);
       queries := queries this; alerts := alerts this |}).

(** The loop of [notify]: [for (const observer of this.observers)]. *)
Fixpoint notify_each (observers : list Observer.t) (event : MonitorEvent)
  : M (t * World E) unit :=
  match observers with
  | [] => ret tt
  | observer :: rest =>
      on_world (invoke (ObserverUpdate (Observer.id observer) event)
                  (observer_update S (Observer.id observer) event)) ;;;
      notify_each rest event
  end.

(** [notify(event)] *)
Definition notify (event : MonitorEvent) : M (t * World E) unit :=
  let* observers := read_this observers in
  notify_each observers event.

Definition push_alert (alert : Alert.t) (this : t) : t :=
  {| observers := observers this; queries := queries this;
     alerts := alerts this ++ [alert] |}.

(** [_checkPerformance(queryInfo)] *)
Definition _checkPerformance (queryInfo : QueryInfo.t) : M (t * World E) unit :=
  (* Slow query alert *)
  (if QueryInfo.duration queryInfo >? 1000 then
     let* timestamp := gets (fun s => clock S (env (snd s))) in
     let alert := Alert.mk SLOW_QUERY
                    ("Slow query detected: " +:+ pretty (QueryInfo.duration queryInfo) +:+ "ms")
                    queryInfo timestamp in
     on_this (push_alert alert) ;;;
     notify (ALERT alert)
   else ret tt) ;;;
  (* Error alert *)
  if truthy_string (QueryInfo.error queryInfo) then
    let* timestamp := gets (fun s => clock S (env (snd s))) in
    let alert := Alert.mk QUERY_ERROR
                   ("Query error: " +:+ default "" (QueryInfo.error queryInfo))
                   queryInfo timestamp in
    on_this (push_alert alert) ;;;
    notify (ALERT alert)
  else ret tt.

(** [recordQuery(queryInfo)] *)
Definition recordQuery (queryInfo : QueryInfo.t) : M (t * World E) unit :=
  let* timestamp := gets (fun s => clock S (env (snd s))) in
  on_this (fun this =>
    {| observers := observers this;
       queries := queries this ++ [QueryRecord.mk queryInfo timestamp];
       alerts := alerts this |}) ;;;
  (* Check for performance issues *)
  _checkPerformance queryInfo ;;;
  (* Notify observers *)
  notify (QUERY_EXECUTED queryInfo).

End Methods.
End PerformanceMonitor.

(** ** Callers and observations *)

(** A caller that makes the calls [f x], for [x] in [xs], one after the
    other and catches whatever each of them throws: the outcomes in order
    and the final state. *)
Fixpoint run_calls {S A B} (f : A -> M S B) (xs : list A) (s : S) : list (Outcome B) * S :=
  match xs with
  | [] => ([], s)
  | x :: rest =>
      match f x s with
      | (r, s') => match run_calls f rest s' with (rs, s'') => (r :: rs, s'') end
      end
  end.

Definition is_Return {A} (r : Outcome A) : bool :=
  match r with Return _ => true | Throw _ => false end.
Definition is_Throw {A} (r : Outcome A) : bool :=
  match r with Return _ => false | Throw _ => true end.

(** Number of outcomes satisfying a test. *)
Definition count_outcomes {A} (p : Outcome A -> bool) (rs : list (Outcome A)) : Z :=
  Z.of_nat (length (List.filter p rs)).

Definition is_ExecutorCall (c : Call) : bool :=
  match c with ExecutorCall _ => true | _ => false end.
Definition is_cache_call (c : Call) : bool :=
  match c with RedisGet _ | RedisSetex _ _ _ => true | _ => false end.
Definition is_store_call (c : Call) : bool :=
  match c with PoolConnect | ClientQuery _ _ _ | ClientRelease _ => true | _ => false end.

(** Number of calls of the wrapped executor in a log. *)
Definition inner_calls (l : list Call) : nat := length (List.filter is_ExecutorCall l).
(** The cache calls and the store calls of a log. *)
Definition cache_calls (l : list Call) : list Call := List.filter is_cache_call l.
Definition store_calls (l : list Call) : list Call := List.filter is_store_call l.

(** The calls of [update] made when each of the events is delivered to the
    first and then to the second observer. *)
Definition deliveries (o1 o2 : Observer.t) (events : list MonitorEvent) : list Call :=
  flat_map (fun ev => [ObserverUpdate (Observer.id o1) ev;
                       ObserverUpdate (Observer.id o2) ev]) events.

(** The events with which [update] of the given observer was called. *)
Definition updates_of (observer : nat) (l : list Call) : list MonitorEvent :=
  flat_map (fun c => match c with
                     | ObserverUpdate o ev => if Nat.eqb o observer then [ev] else []
                     | _ => []
                     end) l.

(** The states a circuit breaker constructed with the given arguments can
    be in between calls: after construction, and after any call made in any
    world. *)
Inductive reachable {E} (I : Inner E) (threshold resetTimeout : option Z)
  : CircuitBreakerDecorator.t -> Prop :=
| reachable_new :
    reachable I threshold resetTimeout (CircuitBreakerDecorator.new threshold resetTimeout)
| reachable_call this customerId w :
    reachable I threshold resetTimeout this ->
    reachable I threshold resetTimeout
      (fst (snd (CircuitBreakerDecorator.getCustomerDashboard I customerId (this, w)))).

(** The environment in which the inner call number [i] (from 0) of one
    [RetryDecorator.getCustomerDashboard] is made when all earlier ones
    failed with a retryable error: between two calls lies the back-off
    sleep.  [attempt] is the loop counter at call 0. *)
Fixpoint env_before_call {E} (I : Inner E) (this : RetryDecorator.t) (customerId : Z)
    (attempt : Z) (i : nat) (e : E) : E :=
  match i with
  | O => e
  | S j =>
      env_before_call I this customerId (attempt + 1) j
        (setTimeout I (RetryDecorator.initialDelay this * 2 ^ attempt)
           (snd (executor_getCustomerDashboard I customerId e)))
  end.

(** What holds of a circuit breaker between calls: the constructor
    arguments are kept, the state is not HalfOpen, an Open breaker has
    reached its threshold and has [nextAttempt] set, and a breaker without
    [nextAttempt] is Closed. *)
Definition between_calls (threshold0 resetTimeout0 : option Z)
    (this : CircuitBreakerDecorator.t) : Prop :=
  CircuitBreakerDecorator.threshold this = default 5 threshold0 /\
  CircuitBreakerDecorator.resetTimeout this = default 60000 resetTimeout0 /\
  CircuitBreakerDecorator.state this <> CircuitBreakerDecorator.HALF_OPEN /\
  (CircuitBreakerDecorator.state this = CircuitBreakerDecorator.OPEN ->
   CircuitBreakerDecorator.threshold this <= CircuitBreakerDecorator.failureCount this /\
   exists openUntil, CircuitBreakerDecorator.nextAttempt this = Some openUntil) /\
  (CircuitBreakerDecorator.nextAttempt this = None ->
   CircuitBreakerDecorator.state this = CircuitBreakerDecorator.CLOSED).

(** The breaker after a success, and after the failure that opens it when
    the clock reads [t]. *)
Definition closed_again (this : CircuitBreakerDecorator.t) : CircuitBreakerDecorator.t :=
  CircuitBreakerDecorator.mk
    (CircuitBreakerDecorator.threshold this) (CircuitBreakerDecorator.resetTimeout this)
    0 CircuitBreakerDecorator.CLOSED (CircuitBreakerDecorator.nextAttempt this).
Definition opened_at (t : Z) (this : CircuitBreakerDecorator.t) : CircuitBreakerDecorator.t :=
  CircuitBreakerDecorator.mk
    (CircuitBreakerDecorator.threshold this) (CircuitBreakerDecorator.resetTimeout this)
    (CircuitBreakerDecorator.failureCount this + 1) CircuitBreakerDecorator.OPEN
    (Some (t + CircuitBreakerDecorator.resetTimeout this)).
Definition circuit_open_error : JsError :=
  Error "Circuit breaker is OPEN - service unavailable".

(** The message of the final [QueryError] of the Retry decorator. *)
Definition failed_after (this : RetryDecorator.t) : string :=
  "Failed after " +:+ pretty (RetryDecorator.maxRetries this + 1) +:+ " attempts".

(** The outcome of inner call number [i], counted from the iteration whose
    counter is [attempt] and whose environment is [e]. *)
Definition outcome_of_call {E} (I : Inner E) (customerId : Z) (this : RetryDecorator.t)
    (attempt : Z) (e : E) (i : nat) : Outcome Dashboard :=
  fst (executor_getCustomerDashboard I customerId
         (env_before_call I this customerId attempt i e)).

(** A failure that the Retry decorator retries: any error whose name is
    not ['ValidationError']. *)
Definition retryable (r : Outcome Dashboard) : Prop :=
  exists error, r = Throw error /\ error_name error <> "ValidationError".

(** ** A concrete environment *)

Module Mock.

(** A clock, a Redis that can be down or read-only, one table content and
    a script of outcomes for the wrapped executor. *)
Record Env : Type := mk {
  time : Z;
  redis_down : bool;
  redis_readonly : bool;
  cache : list (string * string);
  rows : list Row.t;
  script : list (Outcome Dashboard) }.

Definition set_time (v : Z) (e : Env) : Env :=
  mk v (redis_down e) (redis_readonly e) (cache e) (rows e) (script e).
Definition set_cache (v : list (string * string)) (e : Env) : Env :=
  mk (time e) (redis_down e) (redis_readonly e) v (rows e) (script e).
Definition set_script (v : list (Outcome Dashboard)) (e : Env) : Env :=
  mk (time e) (redis_down e) (redis_readonly e) (cache e) (rows e) v.

Fixpoint find_key (key : string) (kvs : list (string * string)) : option string :=
  match kvs with
  | [] => None
  | (k, v) :: rest => if String.eqb k key then Some v else find_key key rest
  end.

Definition empty_dashboard : Dashboard := {| customer := None; orders := [] |}.

Definition gateways : Gateways Env :=
  {| redis_get := fun key e =>
       if redis_down e then (Throw (CacheError "connection refused"), e)
       else (Return (find_key key (cache e)), e);
     redis_setex := fun key _ value e =>
       if redis_readonly e then (Throw (CacheError "read only"), e)
       else (Return tt, set_cache ((key, value) :: cache e) e);
     pgPool_connect := fun e => (Return 0%nat, e);
     client_query := fun _ _ _ e => (Return (rows e), e);
     client_release := fun _ e => (Return tt, e);
     JSON_stringify := fun d =>
       match customer d with
       | None => "null"
       | Some c => pretty (Customer.id c)
       end;
     JSON_parse := fun _ => Return empty_dashboard;
     redisTTL := 3000 |}.

(** Each executor call takes one millisecond and consumes one entry of the
    script; an exhausted script returns the empty dashboard. *)
Definition inner : Inner Env :=
  {| executor_getCustomerDashboard := fun _ e =>
       match script e with
       | [] => (Return empty_dashboard, set_time (time e + 1) e)
       | r :: rest => (r, set_script rest (set_time (time e + 1) e))
       end;
     Date_now := time;
     setTimeout := fun ms e => set_time (time e + ms) e |}.

(** The observers listed in [broken] throw from [update]; the others
    return. *)
Definition surroundings (broken : list nat) : Surroundings Env :=
  {| observer_update := fun observer _ e =>
       if existsb (Nat.eqb observer) broken
       then (Throw (Error "observer failed"), e)
       else (Return tt, e);
     clock := time |}.

Definition env0 : Env := mk 0 false false [] [] [].
Definition world (e : Env) : World Env := {| env := e; log := [] |}.

Definition sample_query (duration : Z) : QueryRecord.t :=
  QueryRecord.mk (QueryInfo.mk "Direct PostgreSQL 18 Strategy" 1 duration true None) 0.
Definition fast_query : QueryInfo.t := QueryInfo.mk "Hybrid Strategy" 1 12 true None.
Definition slow_failed_query : QueryInfo.t :=
  QueryInfo.mk "Hybrid Strategy" 2 1500 false (Some "boom").
Definition observer1 : Observer.t := Observer.mk 1 true.
Definition observer2 : Observer.t := Observer.mk 2 true.
(** A monitor to which [observer1] and then [observer2] were subscribed. *)
Definition monitor12 : PerformanceMonitor.t :=
  PerformanceMonitor.mk [observer1; observer2] [] [].

Definition boom : JsError := MkError "DatabaseError" "boom" None.

(** Worlds in which the wrapped executor follows a script. *)
Definition scripted (outcomes : list (Outcome Dashboard)) : World Env :=
  world (set_script outcomes env0).
(** A breaker that opens at the first failure and may be tried again at
    once, and the same after one failed call at time 0 and after a second,
    successful call. *)
Definition breaker1 : CircuitBreakerDecorator.t :=
  CircuitBreakerDecorator.new (Some 1) (Some 0).
Definition breaker1_tripped : CircuitBreakerDecorator.t :=
  fst (snd (CircuitBreakerDecorator.getCustomerDashboard inner 7
              (breaker1, scripted [Throw boom]))).
Definition breaker1_recovered : CircuitBreakerDecorator.t :=
  fst (snd (CircuitBreakerDecorator.getCustomerDashboard inner 7
              (breaker1_tripped, world (set_time 1 env0)))).
Definition retry3 : RetryDecorator.t := RetryDecorator.new (Some 3) (Some 100).

Definition row1 : Row.t := Row.mk 7 "Ada" "ada@example.org" 100 2500 "pending" "2024-01-01".
Definition invalid : JsError := ValidationError "customerId must be a number".

End Mock.

(** ** The SQL query builder (patterns/QueryBuilder.js) *)

(** [s.replace('?', replacement)] with a string pattern: the first
    occurrence of the character is replaced, the rest of the string is
    kept.  The replacements used by the builder have the form [$n]; with a
    string pattern there are no captures, so [$n] is inserted literally. *)
Fixpoint replace_first (c : Ascii.ascii) (replacement : string) (s : string) : string :=
  match s with
  | EmptyString => EmptyString
  | String a rest =>
      if Ascii.eqb a c then replacement +:+ rest
      else String a (replace_first c replacement rest)
  end.

(** Number of occurrences of a character. *)
Fixpoint occurrences (c : Ascii.ascii) (s : string) : nat :=
  match s with
  | EmptyString => 0%nat
  | String a rest => ((if Ascii.eqb a c then 1 else 0) + occurrences c rest)%nat
  end.

(** [s.toUpperCase()] on the ASCII letters; other characters are kept. *)
Definition upper_ascii (a : Ascii.ascii) : Ascii.ascii :=
  let n := Ascii.nat_of_ascii a in
  if ((97 <=? n) && (n <=? 122))%nat then Ascii.ascii_of_nat (n - 32) else a.
Fixpoint toUpperCase (s : string) : string :=
  match s with
  | EmptyString => EmptyString
  | String a rest => String (upper_ascii a) (toUpperCase rest)
  end.

(** The line feed used by [parts.join('\n')]. *)
Definition line_feed : string := String (Ascii.ascii_of_nat 10) EmptyString.

(** The character [?] (code 63). *)
Definition question_mark : Ascii.ascii := Ascii.ascii_of_nat 63.

(** [`$${n}`] *)
Definition placeholder (n : Z) : string := "$" +:+ pretty n.

Module QueryBuilder.

(** A bound parameter: a number or a string. *)
Inductive Value : Type := Num (n : Z) | Str (s : string).

(** [{ type, table, condition }] *)
Record Join : Type := mkJoin { type : string; table : string; condition : string }.

(** The fields of the builder; [None] is [null]. *)
Record t : Type := mk {
  _select : list string;
  _from : string;
  _joins : list Join;
  _where : list string;
  _orderBy : list string;
  _limit : option Z;
  _offset : option Z;
  _params : list Value;
  _paramIndex : Z }.

(** [{ text, values }] *)
Record Query : Type := { text : string; values : list Value }.

(** [constructor()] and [reset()] *)
Definition new : t := mk [] "" [] [] [] None None [] 1.
Definition reset (this : t) : t := new.

(** [select(...columns)] *)
Definition select (columns : list string) (this : t) : t :=
  mk (_select this ++ columns) (_from this) (_joins this) (_where this) (_orderBy this)
     (_limit this) (_offset this) (_params this) (_paramIndex this).

(** [from(table)] *)
Definition from (table : string) (this : t) : t :=
  mk (_select this) table (_joins this) (_where this) (_orderBy this)
     (_limit this) (_offset this) (_params this) (_paramIndex this).

Definition push_join (j : Join) (this : t) : t :=
  mk (_select this) (_from this) (_joins this ++ [j]) (_where this) (_orderBy this)
     (_limit this) (_offset this) (_params this) (_paramIndex this).

(** [leftJoin(table, condition)] and [innerJoin(table, condition)] *)
Definition leftJoin (table condition : string) (this : t) : t :=
  push_join (mkJoin "LEFT JOIN" table condition) this.
Definition innerJoin (table condition : string) (this : t) : t :=
  push_join (mkJoin "INNER JOIN" table condition) this.

Definition set_where (v : list string) (this : t) : t :=
  mk (_select this) (_from this) (_joins this) v (_orderBy this)
     (_limit this) (_offset this) (_params this) (_paramIndex this).

(** One round of the loop of [_processCondition]:
    [this._paramIndex++] and [this._params.push(param)]. *)
Definition bind_param (param : Value) (this : t) : t :=
  mk (_select this) (_from this) (_joins this) (_where this) (_orderBy this)
     (_limit this) (_offset this) (_params this ++ [param]) (_paramIndex this + 1).

(** [_processCondition(condition, params)]: the processed condition and the
    builder with the parameters bound. *)
Fixpoint _processCondition (condition : string) (params : list Value) (this : t)
  : string * t :=
  match params with
  | [] => (condition, this)
  | param :: rest =>
      _processCondition
        (replace_first question_mark (placeholder (_paramIndex this)) condition)
        rest (bind_param param this)
  end.

(** [where(condition, ...params)] (named [where_], since [where] is a
    keyword) and [andWhere] *)
Definition where_ (condition : string) (params : list Value) (this : t) : t :=
  match _processCondition condition params this with
  | (processedCondition, this') => set_where (_where this' ++ [processedCondition]) this'
  end.
Definition andWhere (condition : string) (params : list Value) (this : t) : t :=
  where_ condition params this.

(** [orWhere(condition, ...params)]: [pop] takes the last condition. *)
Definition orWhere (condition : string) (params : list Value) (this : t) : t :=
  if (0 <? length (_where this))%nat then
    let lastCondition := default "" (last (_where this)) in
    let popped := set_where (removelast (_where this)) this in
    match _processCondition condition params popped with
    | (processedCondition, this') =>
        set_where (_where this' ++ ["(" +:+ lastCondition +:+ " OR " +:+ processedCondition +:+ ")"])
                  this'
    end
  else
    match _processCondition condition params this with
    | (processedCondition, this') => set_where (_where this' ++ [processedCondition]) this'
    end.

(** The placeholders made by [values.map(() => `$${this._paramIndex++}`)]. *)
Definition placeholders (first : Z) (count : nat) : list string :=
  map placeholder (seqZ first (Z.of_nat count)).

(** [whereIn(column, values)] *)
Definition whereIn (column : string) (values : list Value) (this : t) : t :=
  if (length values =? 0)%nat then this
  else
    mk (_select this) (_from this) (_joins this)
       (_where this ++ [column +:+ " IN ("
                          +:+ String.concat ", " (placeholders (_paramIndex this) (length values))
                          +:+ ")"])
       (_orderBy this) (_limit this) (_offset this)
       (_params this ++ values) (_paramIndex this + Z.of_nat (length values)).

(** [orderBy(column, direction = 'ASC')] *)
Definition orderBy (column : string) (direction : option string) (this : t) : t :=
  mk (_select this) (_from this) (_joins this) (_where this)
     (_orderBy this ++ [column +:+ " " +:+ toUpperCase (default "ASC" direction)])
     (_limit this) (_offset this) (_params this) (_paramIndex this).

(** [limit(limit)] and [offset(offset)] *)
Definition limit (v : Z) (this : t) : t :=
  mk (_select this) (_from this) (_joins this) (_where this) (_orderBy this)
     (Some v) (_offset this) (_params this) (_paramIndex this).
Definition offset (v : Z) (this : t) : t :=
  mk (_select this) (_from this) (_joins this) (_where this) (_orderBy this)
     (_limit this) (Some v) (_params this) (_paramIndex this).

(** The [parts] assembled by [build()] once the FROM clause is known to be
    present. *)
Definition parts (this : t) : list string :=
  [if (length (_select this) =? 0)%nat then "SELECT *"
   else "SELECT " +:+ String.concat ", " (_select this)]
  ++ ["FROM " +:+ _from this]
  ++ map (fun join => type join +:+ " " +:+ table join +:+ " ON " +:+ condition join)
         (_joins this)
  ++ (if (0 <? length (_where this))%nat
      then ["WHERE " +:+ String.concat " AND " (_where this)] else [])
  ++ (if (0 <? length (_orderBy this))%nat
      then ["ORDER BY " +:+ String.concat ", " (_orderBy this)] else [])
  ++ match _limit this with Some l => ["LIMIT " +:+ pretty l] | None => [] end
  ++ match _offset this with Some o => ["OFFSET " +:+ pretty o] | None => [] end.

(** [build()]: [!this._from] holds for the empty string. *)
Definition build (this : t) : Outcome Query :=
  if String.eqb (_from this) "" then Throw (Error "FROM clause is required")
  else Return {| text := String.concat line_feed (parts this); values := _params this |}.

(** [getQuery()]: the reset is not reached when [build] throws. *)
Definition getQuery (this : t) : Outcome Query * t :=
  match build this with
  | Return result => (Return result, reset this)
  | Throw error => (Throw error, this)
  end.

(** [CustomerDashboardQueryBuilder.buildForCustomer(customerId)] *)
Definition buildForCustomer (customerId : Z) (this : t) : Outcome Query * t :=
  getQuery
    (limit 10
       (orderBy "o.created_at" (Some "DESC")
          (whereIn "o.status" [Str "pending"; Str "processing"]
             (where_ "c.id = ?" [Num customerId]
                (leftJoin "orders o" "o.customer_id = c.id"
                   (from "customers c"
                      (select ["c.id"; "c.name"; "c.email"; "o.id as order_id";
                               "o.total_cents"; "o.status"; "o.created_at"] this))))))).

(** [OrderQueryBuilder.buildForCustomerOrders(customerId, limit = 20)] *)
Definition buildForCustomerOrders (customerId : Z) (limit_ : option Z) (this : t)
  : Outcome Query * t :=
  getQuery
    (limit (default 20 limit_)
       (orderBy "created_at" (Some "DESC")
          (where_ "customer_id = ?" [Num customerId]
             (from "orders"
                (select ["id"; "amount_cents"; "tax_rate"; "total_cents"; "status";
                         "created_at"] this))))).

(** [OrderQueryBuilder.buildForStatusReport(statuses = ['pending', 'processing'])]:
    it ends in [build()], not [getQuery()], so the builder keeps what the
    chain put into it. *)
Definition buildForStatusReport (statuses : option (list Value)) (this : t)
  : Outcome Query * t :=
  let built :=
    whereIn "status" (default [Str "pending"; Str "processing"] statuses)
      (from "orders"
         (select ["status"; "COUNT(*) as count"; "SUM(total_cents) as total_amount";
                  "AVG(total_cents) as avg_amount"] this)) in
  (build built, built).

(** A call of one of the chainable methods. *)
Inductive Step : Type :=
| Select (columns : list string)
| From (table : string)
| LeftJoin (table condition : string)
| InnerJoin (table condition : string)
| Where (condition : string) (params : list Value)
| AndWhere (condition : string) (params : list Value)
| OrWhere (condition : string) (params : list Value)
| WhereIn (column : string) (values : list Value)
| OrderBy (column : string) (direction : option string)
| Limit (v : Z)
| Offset (v : Z)
| Reset.

Definition step (s : Step) (this : t) : t :=
  match s with
  | Select columns => select columns this
  | From table => from table this
  | LeftJoin table condition => leftJoin table condition this
  | InnerJoin table condition => innerJoin table condition this
  | Where condition params => where_ condition params this
  | AndWhere condition params => andWhere condition params this
  | OrWhere condition params => orWhere condition params this
  | WhereIn column values => whereIn column values this
  | OrderBy column direction => orderBy column direction this
  | Limit v => limit v this
  | Offset v => offset v this
  | Reset => reset this
  end.

(** A chain of calls, first call first. *)
Definition chain (steps : list Step) (this : t) : t :=
  foldl (fun b s => step s b) this steps.

End QueryBuilder.

(** ** Latency statistics (utils.js) *)

(** The object returned by [calculateStats]; an entry is [None] when the
    indexed element is [undefined]. *)
Module Stats.
Record t : Type := mk {
  count : nat;
  avg : Quotient;
  p50 : option Z; p75 : option Z; p90 : option Z; p95 : option Z; p99 : option Z;
  min : option Z; max : option Z }.
End Stats.

(** [calculateStats(latencies)]; [None] is the returned [null].  The
    indices [Math.floor(length * 0.75)] and [Math.floor(length * 0.90)] are
    integer quotients like the others. *)
Definition calculateStats (latencies : list Z) : option Stats.t :=
  if (length latencies =? 0)%nat then None
  else
    let sorted := sort_ascending latencies in
    let sum := foldl Z.add 0 sorted in
    Some (Stats.mk (length sorted)
            {| numerator := sum; denominator := Z.of_nat (length sorted) |}
            (sorted !! floor_times (length sorted) 50)
            (sorted !! floor_times (length sorted) 75)
            (sorted !! floor_times (length sorted) 90)
            (sorted !! floor_times (length sorted) 95)
            (sorted !! floor_times (length sorted) 99)
            (sorted !! 0%nat)
            (sorted !! (length sorted - 1)%nat)).

(** ** The aggregating observer (patterns/PerformanceMonitor.js) *)

Module MetricsAggregatorObserver.

(** The per-strategy entry of [byStrategy]. *)
Record Entry : Type := mkEntry {
  count : Z; totalDuration : Z; successes : Z; failures : Z }.

(** The field [byStrategy], a [Map] keyed by strategy name. *)
Record t : Type := mk { byStrategy : gmap string Entry }.

(** [constructor()] and [reset()] *)
Definition new : t := mk ∅.
Definition reset (this : t) : t := mk ∅.

(** [update(event)] *)
Definition update (event : MonitorEvent) (this : t) : t :=
  match event with
  | ALERT _ => this
  | QUERY_EXECUTED data =>
      let strategy := QueryInfo.strategy data in
      let byStrategy1 :=
        match byStrategy this !! strategy with
        | None => <[strategy := mkEntry 0 0 0 0]> (byStrategy this)
        | Some _ => byStrategy this
        end in
      match byStrategy1 !! strategy with
      | None => mk byStrategy1
      | Some metrics =>
          mk (<[strategy :=
                  mkEntry (count metrics + 1)
                          (totalDuration metrics + QueryInfo.duration data)
                          (if QueryInfo.success data then successes metrics + 1
                           else successes metrics)
                          (if QueryInfo.success data then failures metrics
                           else failures metrics + 1)]> byStrategy1)
      end
  end.

(** The per-strategy entry of the object returned by [getMetrics()]. *)
Record Report : Type := mkReport {
  entry : Entry; avgDuration : Quotient; successRate : Quotient }.

(** [getMetrics()] *)
Definition getMetrics (this : t) : gmap string Report :=
  (fun metrics =>
     mkReport metrics
       {| numerator := totalDuration metrics; denominator := count metrics |}
       {| numerator := successes metrics * 100; denominator := count metrics |})
  <$> byStrategy this.

End MetricsAggregatorObserver.

(** The [QUERY_EXECUTED] payloads of a strategy among a list of events. *)
Definition executed_by (strategy : string) (events : list MonitorEvent) : list QueryInfo.t :=
  flat_map (fun ev => match ev with
                      | QUERY_EXECUTED data =>
                          if String.eqb (QueryInfo.strategy data) strategy then [data] else []
                      | ALERT _ => []
                      end) events.

(** ** The connection manager and the factory
       (patterns/DatabaseConnectionManager.js, patterns/QueryExecutorFactory.js) *)

Module DatabaseConnectionManager.

(** A pool or client object, by identity. *)
Definition Handle : Type := nat.

Record t : Type := mk {
  _pgPool : option Handle;
  _redisClient : option Handle;
  _isInitialized : bool }.

(** [constructor()] (first construction) *)
Definition new : t := mk None None false.

Definition not_initialized : JsError :=
  Error "DatabaseConnectionManager not initialized. Call initialize() first.".

(** [initialize()]; [newPool] and [newRedis] are the outcomes of
    [new Pool(...)] and [new Redis(...)].  The handlers passed to the
    clients, and registering them, are not modelled. *)
Definition initialize (newPool newRedis : Outcome Handle) (this : t) : Outcome unit * t :=
  if _isInitialized this then (Return tt, this)
  else
    match newPool with
    | Throw error => (Throw error, this)
    | Return pool =>
        match newRedis with
        | Throw error => (Throw error, mk (Some pool) (_redisClient this) false)
        | Return client => (Return tt, mk (Some pool) (Some client) true)
        end
    end.

(** [getPgPool()] and [getRedisClient()] *)
Definition getPgPool (this : t) : Outcome (option Handle) :=
  if negb (_isInitialized this) then Throw not_initialized else Return (_pgPool this).
Definition getRedisClient (this : t) : Outcome (option Handle) :=
  if negb (_isInitialized this) then Throw not_initialized else Return (_redisClient this).

(** The effect of [closeAll()] on the fields: failures of [end()] and
    [quit()] are caught, and the handles are kept. *)
Definition closeAll (this : t) : t := mk (_pgPool this) (_redisClient this) false.

End DatabaseConnectionManager.

Module QueryExecutorFactory.

(** What [create] returns: one of the three strategies. *)
Inductive Strategy : Type :=
| Redis (s : RedisCacheStrategy.t)
| Postgres
| Hybrid (s : HybridStrategy.t).

(** [getAvailableStrategies()]: [Object.values(this.STRATEGIES)] *)
Definition getAvailableStrategies : list string := ["redis"; "postgres"; "hybrid"].

(** The constructors of the strategies fetch their clients from the
    connection manager. *)
Definition new_RedisCacheStrategy (dbManager : DatabaseConnectionManager.t)
  : Outcome RedisCacheStrategy.t :=
  match DatabaseConnectionManager.getRedisClient dbManager with
  | Throw error => Throw error
  | Return _ =>
      match DatabaseConnectionManager.getPgPool dbManager with
      | Throw error => Throw error
      | Return _ => Return RedisCacheStrategy.new
      end
  end.
Definition new_DirectPostgreSQLStrategy (dbManager : DatabaseConnectionManager.t)
  : Outcome unit :=
  match DatabaseConnectionManager.getPgPool dbManager with
  | Throw error => Throw error
  | Return _ => Return tt
  end.
Definition new_HybridStrategy (dbManager : DatabaseConnectionManager.t)
    (hotDataThreshold : option Z) : Outcome HybridStrategy.t :=
  match DatabaseConnectionManager.getRedisClient dbManager with
  | Throw error => Throw error
  | Return _ =>
      match DatabaseConnectionManager.getPgPool dbManager with
      | Throw error => Throw error
      | Return _ => Return (HybridStrategy.new hotDataThreshold)
      end
  end.

(** [create(strategyType, options = {})]; [hotDataThreshold] is
    [options.hotDataThreshold]. *)
Definition create (dbManager : DatabaseConnectionManager.t) (strategyType : string)
    (hotDataThreshold : option Z) : Outcome Strategy :=
  if String.eqb strategyType "redis" then
    match new_RedisCacheStrategy dbManager with
    | Return s => Return (Redis s)
    | Throw error => Throw error
    end
  else if String.eqb strategyType "postgres" then
    match new_DirectPostgreSQLStrategy dbManager with
    | Return _ => Return Postgres
    | Throw error => Throw error
    end
  else if String.eqb strategyType "hybrid" then
    match new_HybridStrategy dbManager hotDataThreshold with
    | Return s => Return (Hybrid s)
    | Throw error => Throw error
    end
  else Throw (Error ("Unknown strategy type: " +:+ strategyType)).

End QueryExecutorFactory.

(** ** Further observations of the log *)

(** The back-off delays slept, in order. *)
Definition sleeps (l : list Call) : list Z :=
  flat_map (fun c => match c with Sleep ms => [ms] | _ => [] end) l.

(** The clients checked out, and the clients released, in order. *)
Definition releases (l : list Call) : list Client :=
  flat_map (fun c => match c with ClientRelease client => [client] | _ => [] end) l.
Definition queries_sent (l : list Call) : list Client :=
  flat_map (fun c => match c with ClientQuery client _ _ => [client] | _ => [] end) l.
Definition connects (l : list Call) : nat :=
  length (List.filter (fun c => match c with PoolConnect => true | _ => false end) l).

(** The calls a Retry decorator makes while the first [k] inner calls fail
    with retryable errors, from the iteration with counter [attempt]: call,
    sleep, call, sleep, ... *)
Fixpoint retry_backoff (customerId initialDelay attempt : Z) (k : nat) : list Call :=
  match k with
  | O => []
  | S j => ExecutorCall customerId :: Sleep (initialDelay * 2 ^ attempt)
           :: retry_backoff customerId initialDelay (attempt + 1) j
  end.

(** A Retry decorator seen as the executor wrapped by an outer decorator:
    the outer decorator's environment holds the fields and the world of the
    Retry decorator. *)
Definition retry_as_inner {E} (I : Inner E) : Inner (RetryDecorator.t * World E) :=
  {| executor_getCustomerDashboard := RetryDecorator.getCustomerDashboard I;
     Date_now := fun s => Date_now I (env (snd s));
     setTimeout := fun ms s =>
       (fst s, {| env := setTimeout I ms (env (snd s)); log := log (snd s) |}) |}.

(** A Metrics decorator seen as the executor wrapped by an outer decorator. *)
Definition metrics_as_inner {E} (I : Inner E) : Inner (MetricsDecorator.t * World E) :=
  {| executor_getCustomerDashboard := MetricsDecorator.getCustomerDashboard I;
     Date_now := fun s => Date_now I (env (snd s));
     setTimeout := fun ms s =>
       (fst s, {| env := setTimeout I ms (env (snd s)); log := log (snd s) |}) |}.

(** The next placeholder number is one more than the number of bound
    parameters. *)
Definition index_matches (this : QueryBuilder.t) : Prop :=
  QueryBuilder._paramIndex this = Z.of_nat (length (QueryBuilder._params this)) + 1.

(** The observer after the events, delivered in order. *)
Definition update_all (events : list MonitorEvent)
    (this : MetricsAggregatorObserver.t) : MetricsAggregatorObserver.t :=
  foldl (fun observer event => MetricsAggregatorObserver.update event observer) this events.

(** The totals of a list of executions: their number, their summed
    duration, and how many succeeded and failed. *)
Definition tally (qs : list QueryInfo.t) : MetricsAggregatorObserver.Entry :=
  MetricsAggregatorObserver.mkEntry
    (Z.of_nat (length qs))
    (foldr Z.add 0 (map QueryInfo.duration qs))
    (Z.of_nat (length (List.filter QueryInfo.success qs)))
    (Z.of_nat (length (List.filter (fun q => negb (QueryInfo.success q)) qs))).

(** What can be done with the connection manager: [initialize()], with the
    outcomes of the two client constructions, and [closeAll()]. *)
Inductive ManagerCall : Type :=
| Initialize (newPool newRedis : Outcome DatabaseConnectionManager.Handle)
| CloseAll.

Definition manager_call (c : ManagerCall) (this : DatabaseConnectionManager.t)
  : DatabaseConnectionManager.t :=
  match c with
  | Initialize newPool newRedis =>
      snd (DatabaseConnectionManager.initialize newPool newRedis this)
  | CloseAll => DatabaseConnectionManager.closeAll this
  end.

Definition manager_after (calls : list ManagerCall) : DatabaseConnectionManager.t :=
  foldl (fun m c => manager_call c m) DatabaseConnectionManager.new calls.

(** An executor that is down: every call takes one millisecond and throws. *)
Definition dead_inner : Inner Mock.Env :=
  {| executor_getCustomerDashboard := fun _ e =>
       (Throw Mock.boom, Mock.set_time (Mock.time e + 1) e);
     Date_now := Mock.time;
     setTimeout := fun ms e => Mock.set_time (Mock.time e + ms) e |}.

(** Whether a step of a chain is [reset()]. *)
Definition is_Reset (s : QueryBuilder.Step) : bool :=
  match s with QueryBuilder.Reset => true | _ => false end.

(** ** Notifications of two observers *)

(** The alerts built by [_checkPerformance] when the clock reads
    [timestamp]. *)
Definition slow_query_alert (queryInfo : QueryInfo.t) (timestamp : Z) : Alert.t :=
  Alert.mk SLOW_QUERY
    ("Slow query detected: " +:+ pretty (QueryInfo.duration queryInfo) +:+ "ms")
    queryInfo timestamp.
Definition query_error_alert (queryInfo : QueryInfo.t) (timestamp : Z) : Alert.t :=
  Alert.mk QUERY_ERROR
    ("Query error: " +:+ default "" (QueryInfo.error queryInfo))
    queryInfo timestamp.

(** The environment after [update(event)] of the first and then of the
    second observer. *)
Definition after_updates {E} (S : Surroundings E) (o1 o2 : Observer.t)
    (event : MonitorEvent) (e : E) : E :=
  snd (observer_update S (Observer.id o2) event
         (snd (observer_update S (Observer.id o1) event e))).

(** The environment after the events were delivered to both observers, in
    order. *)
Definition after_deliveries {E} (S : Surroundings E) (o1 o2 : Observer.t)
    (events : list MonitorEvent) (e : E) : E :=
  foldl (fun e' event => after_updates S o1 o2 event e') e events.

(** The slow-query alert of an event, if it raises one. *)
Definition slow_alerts (queryInfo : QueryInfo.t) (timestamp : Z) : list Alert.t :=
  if QueryInfo.duration queryInfo >? 1000
  then [slow_query_alert queryInfo timestamp] else [].

(** The error alert of an event, if it raises one. *)
Definition error_alerts (queryInfo : QueryInfo.t) (timestamp : Z) : list Alert.t :=
  if truthy_string (QueryInfo.error queryInfo)
  then [query_error_alert queryInfo timestamp] else [].

(** The first notification one [recordQuery] sends when the clock reads
    [timestamp]: the first alert the event raises, or the event itself. *)
Definition first_notification (queryInfo : QueryInfo.t) (timestamp : Z) : MonitorEvent :=
  match slow_alerts queryInfo timestamp ++ error_alerts queryInfo timestamp with
  | alert :: _ => ALERT alert
  | [] => QUERY_EXECUTED queryInfo
  end.

(** ** Overlapping calls of the circuit breaker *)

(** [CircuitBreakerDecorator.getCustomerDashboard] is an [async] method.
    A call runs its first statement when it is made and then waits at
    [await this.executor.getCustomerDashboard(customerId)]; when the
    executor settles, the call resumes with [_onSuccess()] or
    [_onFailure()].  While it waits, other calls of the same decorator can
    be made and can settle.  The two moments of a call are therefore kept
    apart: [CallMade] runs the first statement, and puts the call among
    the waiting ones unless it was refused; [CallSettled k] resumes the
    waiting call at position [k].  The wrapped executor is a parameter
    whose call is one transition of the environment; it is taken when the
    call settles. *)
Inductive Moment : Type :=
| CallMade (customerId : Z)
| CallSettled (k : nat).

(** One moment: the outcome of the call that ended with it, if one did,
    the waiting calls and the state afterwards.  Settling a call that is
    not waiting does nothing. *)
Definition moment {E} (I : Inner E) (m : Moment) (waiting : list Z)
    (s : CircuitBreakerDecorator.t * World E)
  : option (Outcome Dashboard) * list Z * (CircuitBreakerDecorator.t * World E) :=
  match m with
  | CallMade customerId =>
      match CircuitBreakerDecorator.guard I s with
      | (Return _, s') => (None, waiting ++ [customerId], s')
      | (Throw error, s') => (Some (Throw error), waiting, s')
      end
  | CallSettled k =>
      match waiting !! k with
      | Some customerId =>
          match CircuitBreakerDecorator.attempt I customerId s with
          | (r, s') => (Some r, delete k waiting, s')
          end
      | None => (None, waiting, s)
      end
  end.

(** A sequence of moments: the outcomes of the calls that ended, in the
    order in which they ended, the calls still waiting and the final
    state. *)
Fixpoint schedule {E} (I : Inner E) (ms : list Moment) (waiting : list Z)
    (s : CircuitBreakerDecorator.t * World E)
  : list (Outcome Dashboard) * list Z * (CircuitBreakerDecorator.t * World E) :=
  match ms with
  | [] => ([], waiting, s)
  | m :: rest =>
      match moment I m waiting s with
      | (r, waiting', s') =>
          match schedule I rest waiting' s' with
          | (rs, waiting'', s'') => (option_list r ++ rs, waiting'', s'')
          end
      end
  end.

(** The states a circuit breaker constructed with the given arguments can
    be in, with the calls then waiting, when calls may overlap: after
    construction, and after any moment in any world. *)
Inductive overlapping {E} (I : Inner E) (threshold resetTimeout : option Z)
  : CircuitBreakerDecorator.t -> list Z -> Prop :=
| overlapping_new :
    overlapping I threshold resetTimeout
      (CircuitBreakerDecorator.new threshold resetTimeout) []
| overlapping_moment this waiting m w :
    overlapping I threshold resetTimeout this waiting ->
    overlapping I threshold resetTimeout
      (fst (snd (moment I m waiting (this, w))))
      (snd (fst (moment I m waiting (this, w)))).

(** The breaker after a success that settles in the given state: the
    failure count is reset, and only a HalfOpen breaker is closed. *)
Definition after_success (this : CircuitBreakerDecorator.t) : CircuitBreakerDecorator.t :=
  if CircuitBreakerDecorator.State_eqb (CircuitBreakerDecorator.state this)
       CircuitBreakerDecorator.HALF_OPEN
  then closed_again this
  else CircuitBreakerDecorator.set_failureCount 0 this.

(** A breaker that opens at the second consecutive failure and may be
    tried again at once. *)
Definition breaker2 : CircuitBreakerDecorator.t :=
  CircuitBreakerDecorator.new (Some 2) (Some 0).

(** Calls 2 and 3 are both made before either settles; call 2 fails and
    opens the breaker, then call 3 succeeds. *)
Definition overlapped_calls : list Moment :=
  [CallMade 1; CallSettled 0; CallMade 2; CallMade 3; CallSettled 0; CallSettled 0].

(** The breaker, and its world, after [overlapped_calls] with an executor
    that fails, fails, returns, and then fails. *)
Definition breaker2_overlapped : CircuitBreakerDecorator.t * World Mock.Env :=
  snd (schedule Mock.inner overlapped_calls []
         (breaker2, Mock.scripted [Throw Mock.boom; Throw Mock.boom;
                                   Return Mock.empty_dashboard; Throw Mock.boom])).

(** A breaker with threshold 1 after a first call was made, a second call
    was made, and the first call failed: it is Open while the second call
    is waiting. *)
Definition breaker1_overlapped : CircuitBreakerDecorator.t * World Mock.Env :=
  snd (schedule Mock.inner [CallMade 1; CallMade 2; CallSettled 0] []
         (Mock.breaker1, Mock.scripted [Throw Mock.boom; Return Mock.empty_dashboard])).

(** * Properties *)

(** ** Reasoning about computations *)

(** Unfold the combinators of [M] in the goal and in the hypotheses. *)
Ltac unfold_M :=
  cbv [bind ret throw try_catch try_finally gets modify on_world on_this
       read_this of_outcome invoke now call_executor] in *.

Lemma run_calls_app {S A B} (f : A -> M S B) (xs ys : list A) (s : S) :
  run_calls f (xs ++ ys) s =
  (fst (run_calls f xs s) ++ fst (run_calls f ys (snd (run_calls f xs s))),
   snd (run_calls f ys (snd (run_calls f xs s)))).
Proof.
  revert s. induction xs as [|x xs IH]; intros s; simpl.
  - by destruct (run_calls f ys s).
  - destruct (f x s) as [r s']. rewrite IH.
    destruct (run_calls f xs s') as [rs s'']. simpl.
    by destruct (run_calls f ys s'').
Qed.

Lemma run_calls_length {S A B} (f : A -> M S B) (xs : list A) (s : S) :
  length (fst (run_calls f xs s)) = length xs.
Proof.
  revert s. induction xs as [|x xs IH]; intros s; simpl; [done|].
  destruct (f x s) as [r s']. specialize (IH s').
  destruct (run_calls f xs s') as [rs s'']. simpl in *. by rewrite IH.
Qed.

(** ** The dashboard record *)

(** C9.  For every list of rows, the record built by
    [_formatCustomerDashboard] has a null customer only together with an
    empty list of orders; the record with the null customer is exactly
    [{ customer: null, orders: [] }], and it is produced when and only when
    the list of rows is empty. *)
Theorem formatCustomerDashboard_null_customer (rows : list Row.t) :
  (customer (_formatCustomerDashboard rows) = None ->
   orders (_formatCustomerDashboard rows) = []) /\
  (customer (_formatCustomerDashboard rows) = None <->
   _formatCustomerDashboard rows = {| customer := None; orders := [] |}) /\
  (_formatCustomerDashboard rows = {| customer := None; orders := [] |} <->
   rows = []).
Proof.
  destruct rows as [|r0 rest]; simpl.
  - repeat split; auto.
  - repeat split; intros H; discriminate H.
Qed.

(** Every row contributes one order, in the order of the rows. *)
Lemma formatCustomerDashboard_orders_length (rows : list Row.t) :
  length (orders (_formatCustomerDashboard rows)) = length rows.
Proof. destruct rows; simpl; [done|]. by rewrite length_map. Qed.

Example formatCustomerDashboard_one_row :
  _formatCustomerDashboard [Mock.row1] =
  {| customer := Some (Customer.mk 7 "Ada" "ada@example.org");
     orders := [Order.mk 100 2500 "pending" "2024-01-01"] |}.
Proof. reflexivity. Qed.

(** ** Percentiles *)

Lemma sort_ascending_Sorted (xs : list Z) : Sorted Z.le (sort_ascending xs).
Proof. apply (Sorted_merge_sort Z.le). Qed.

Lemma sort_ascending_Permutation (xs : list Z) : sort_ascending xs ≡ₚ xs.
Proof. apply merge_sort_Permutation. Qed.

(** The sorted sequence depends on the multiset of the samples only. *)
Lemma sort_ascending_perm (xs ys : list Z) :
  xs ≡ₚ ys -> sort_ascending xs = sort_ascending ys.
Proof.
  intros Hp. apply (Sorted_unique Z.le); try apply sort_ascending_Sorted.
  by rewrite !sort_ascending_Permutation.
Qed.

Lemma sort_ascending_length (xs : list Z) : length (sort_ascending xs) = length xs.
Proof. apply Permutation_length, sort_ascending_Permutation. Qed.

(** For a non-empty array the percentile index is inside the array. *)
Lemma floor_times_lt (n : nat) (percent : Z) :
  (0 < n)%nat -> 0 <= percent < 100 -> (floor_times n percent < n)%nat.
Proof.
  intros Hn Hp. unfold floor_times.
  assert (Z.of_nat n * percent / 100 < Z.of_nat n).
  { apply Z.div_lt_upper_bound; nia. }
  assert (0 <= Z.of_nat n * percent / 100) by (apply Z.div_pos; nia).
  lia.
Qed.

Lemma or_zero_Some (v : Z) : or_zero (Some v) = v.
Proof. simpl. destruct (Z.eqb_spec v 0); congruence. Qed.

(** The element selected by nearest rank from the sorted samples. *)
Lemma nearest_rank_defined (xs : list Z) (percent : Z) :
  xs <> [] -> 0 <= percent < 100 ->
  exists v, sort_ascending xs !! floor_times (length (sort_ascending xs)) percent = Some v.
Proof.
  intros Hne Hp. apply lookup_lt_is_Some_2, floor_times_lt; [|done].
  rewrite sort_ascending_length. destruct xs; [done | simpl; lia].
Qed.

(** C8.  For a monitor with a non-empty history and a Metrics decorator
    whose latency samples are the same multiset as the durations recorded
    by the monitor, [getSummary] and [getMetrics] give the same p50, p95
    and p99, each being the element at index floor(count * percentile) of
    the ascending-sorted samples. *)
Theorem getSummary_percentiles_as_getMetrics
    (monitor : PerformanceMonitor.t) (decorator : MetricsDecorator.t) :
  PerformanceMonitor.queries monitor <> [] ->
  map (fun q => QueryInfo.duration (QueryRecord.info q)) (PerformanceMonitor.queries monitor)
    ≡ₚ MetricsDecorator.latencies decorator ->
  exists summary sorted,
    PerformanceMonitor.getSummary monitor = Some summary /\
    Sorted Z.le sorted /\
    sorted ≡ₚ MetricsDecorator.latencies decorator /\
    PerformanceMonitor.p50 summary = sorted !! floor_times (length sorted) 50 /\
    PerformanceMonitor.p95 summary = sorted !! floor_times (length sorted) 95 /\
    PerformanceMonitor.p99 summary = sorted !! floor_times (length sorted) 99 /\
    PerformanceMonitor.p50 summary = Some (MetricsDecorator.p50 (MetricsDecorator.getMetrics decorator)) /\
    PerformanceMonitor.p95 summary = Some (MetricsDecorator.p95 (MetricsDecorator.getMetrics decorator)) /\
    PerformanceMonitor.p99 summary = Some (MetricsDecorator.p99 (MetricsDecorator.getMetrics decorator)).
Proof.
  intros Hne Hperm.
  set (durations := map (fun q => QueryInfo.duration (QueryRecord.info q))
                        (PerformanceMonitor.queries monitor)) in *.
  assert (Hd : durations <> []).
  { subst durations. destruct (PerformanceMonitor.queries monitor); [done | discriminate]. }
  assert (Hl : MetricsDecorator.latencies decorator <> []).
  { intros Hnil. rewrite Hnil in Hperm. by apply Permutation_nil_r in Hperm. }
  pose proof (sort_ascending_perm _ _ Hperm) as Hsort.
  assert (Hlen : (length (PerformanceMonitor.queries monitor) =? 0)%nat = false).
  { apply Nat.eqb_neq. destruct (PerformanceMonitor.queries monitor); [done | simpl; lia]. }
  unfold PerformanceMonitor.getSummary. rewrite Hlen.
  eexists _, (sort_ascending (MetricsDecorator.latencies decorator)).
  split; [reflexivity|]. simpl.
  fold durations. rewrite Hsort.
  split; [apply sort_ascending_Sorted|].
  split; [apply sort_ascending_Permutation|].
  do 3 (split; [reflexivity|]).
  destruct (nearest_rank_defined _ 50 Hl ltac:(lia)) as [v50 H50].
  destruct (nearest_rank_defined _ 95 Hl ltac:(lia)) as [v95 H95].
  destruct (nearest_rank_defined _ 99 Hl ltac:(lia)) as [v99 H99].
  rewrite H50, H95, H99, !or_zero_Some. done.
Qed.

Lemma rotated_samples : [30; 10; 20] ≡ₚ [10; 20; 30].
Proof. apply (Permutation_cons_append [10; 20] 30). Qed.

Lemma getSummary_percentiles_as_getMetrics_witness :
  exists summary,
    PerformanceMonitor.getSummary
      (PerformanceMonitor.mk [] [Mock.sample_query 30; Mock.sample_query 10; Mock.sample_query 20] [])
      = Some summary /\
    PerformanceMonitor.p50 summary = Some 20 /\
    PerformanceMonitor.p95 summary = Some 30 /\
    MetricsDecorator.p50 (MetricsDecorator.getMetrics (MetricsDecorator.mk 3 3 0 60 [10; 20; 30])) = 20.
Proof.
  destruct (getSummary_percentiles_as_getMetrics
              (PerformanceMonitor.mk [] [Mock.sample_query 30; Mock.sample_query 10; Mock.sample_query 20] [])
              (MetricsDecorator.mk 3 3 0 60 [10; 20; 30]))
    as (summary & sorted & Hs & _ & _ & _ & _ & _ & H50 & H95 & _).
  - discriminate.
  - exact rotated_samples.
  - exists summary. split; [exact Hs|].
    split; [rewrite H50; vm_compute; reflexivity|].
    split; [rewrite H95; vm_compute; reflexivity|].
    vm_compute; reflexivity.
Defined.

(** ** The performance monitor *)

Section MonitorProperties.
Context {E : Type} (S : Surroundings E).
Import PerformanceMonitor.

(** Notifying never changes the fields of the monitor. *)
Lemma notify_each_this (obs : list Observer.t) (event : MonitorEvent) (this : t) (w : World E) :
  exists r w', notify_each S obs event (this, w) = (r, (this, w')).
Proof.
  revert w. induction obs as [|o obs IH]; intros w; simpl.
  - by eexists _, _.
  - unfold_M. simpl.
    destruct (observer_update S (Observer.id o) event (env w)) as [[[]|err] e'].
    + apply IH.
    + by eexists _, _.
Qed.

Lemma notify_this (event : MonitorEvent) (this : t) (w : World E) :
  exists r w', notify S event (this, w) = (r, (this, w')).
Proof. unfold notify. unfold_M. simpl. apply notify_each_this. Qed.

(** [recordQuery] appends the event to the history before anything can
    throw, and nothing removes it afterwards. *)
Lemma recordQuery_history (queryInfo : QueryInfo.t) (this : t) (w : World E) :
  queries (fst (snd (recordQuery S queryInfo (this, w)))) =
    queries this ++ [QueryRecord.mk queryInfo (clock S (env w))] /\
  observers (fst (snd (recordQuery S queryInfo (this, w)))) = observers this.
Proof.
  unfold recordQuery, _checkPerformance. unfold_M. simpl.
  destruct (QueryInfo.duration queryInfo >? 1000);
    destruct (truthy_string (QueryInfo.error queryInfo)); simpl;
    repeat match goal with
      | |- context [notify S ?ev (?t, ?w0)] =>
          let r := fresh "r" in let w' := fresh "w'" in let H := fresh "H" in
          destruct (notify_this ev t w0) as (r & w' & H); rewrite H; clear H;
          destruct r as [[]|?]; simpl
      end; done.
Qed.

Lemma recordQuery_all_history (qs : list QueryInfo.t) (this : t) (w : World E) :
  length (queries (fst (snd (run_calls (recordQuery S) qs (this, w))))) =
    (length (queries this) + length qs)%nat.
Proof.
  revert this w. induction qs as [|q qs IH]; intros this w; simpl; [lia|].
  pose proof (recordQuery_history q this w) as [Hq _].
  destruct (recordQuery S q (this, w)) as [r [this' w']]. simpl in Hq.
  specialize (IH this' w').
  destruct (run_calls (recordQuery S) qs (this', w')) as [rs s'']. simpl in *.
  rewrite IH, Hq, length_app. simpl. lia.
Qed.

(** C10.  For a monitor whose history is empty, [getSummary] after
    recording the events [qs] returns [null] when no event was recorded and
    otherwise an object whose [totalQueries] is the number of recorded
    events, whatever the observers did. *)
Theorem getSummary_null_or_total (qs : list QueryInfo.t) (this : t) (w : World E) :
  queries this = [] ->
  let this' := fst (snd (run_calls (recordQuery S) qs (this, w))) in
  (qs = [] -> getSummary this' = None) /\
  (qs <> [] -> exists summary,
      getSummary this' = Some summary /\ totalQueries summary = length qs).
Proof.
  intros Hempty this'.
  pose proof (recordQuery_all_history qs this w) as Hlen.
  fold this' in Hlen. rewrite Hempty in Hlen. simpl in Hlen.
  unfold getSummary. split.
  - intros ->. simpl in Hlen. by rewrite Hlen.
  - intros Hne. assert ((length (queries this') =? 0)%nat = false) as ->.
    { apply Nat.eqb_neq. destruct qs; [done | simpl in Hlen; lia]. }
    eexists. split; [reflexivity|]. simpl. done.
Qed.

End MonitorProperties.

(** A freshly constructed monitor and a cleared one have an empty history. *)
Lemma monitor_new_and_clear_empty (this : PerformanceMonitor.t) :
  PerformanceMonitor.queries PerformanceMonitor.new = [] /\
  PerformanceMonitor.queries (PerformanceMonitor.clear this) = [].
Proof. done. Qed.

Lemma getSummary_null_or_total_witness :
  PerformanceMonitor.getSummary PerformanceMonitor.new = None /\
  exists summary,
    PerformanceMonitor.getSummary
      (fst (snd (run_calls (PerformanceMonitor.recordQuery (Mock.surroundings []))
                   [Mock.fast_query; Mock.slow_failed_query]
                   (PerformanceMonitor.new, Mock.world Mock.env0)))) = Some summary /\
    PerformanceMonitor.totalQueries summary = 2%nat.
Proof.
  split.
  - apply (getSummary_null_or_total (Mock.surroundings []) [] PerformanceMonitor.new
             (Mock.world Mock.env0)); reflexivity.
  - apply (getSummary_null_or_total (Mock.surroundings []) [Mock.fast_query; Mock.slow_failed_query]
             PerformanceMonitor.new (Mock.world Mock.env0)); [reflexivity | discriminate].
Defined.

Section MonitorNotification.
Context {E : Type} (S : Surroundings E).
Import PerformanceMonitor.

(** Subscribing appends: two observers subscribed to a fresh monitor are
    kept in subscription order. *)
Lemma subscribe_two (o1 o2 : Observer.t) (w : World E) :
  Observer.has_update o1 = true -> Observer.has_update o2 = true ->
  observers (fst (snd (run_calls (subscribe (E:=E)) [o1; o2] (new, w)))) = [o1; o2].
Proof. intros H1 H2. simpl. unfold subscribe. rewrite H1, H2. reflexivity. Qed.

(** When the first observer throws, the notification stops there. *)
Lemma notify_first_throwing (o1 : Observer.t) (rest : list Observer.t)
    (event : MonitorEvent) (this : t) (w : World E) :
  observers this = o1 :: rest ->
  (forall ev e, is_Throw (fst (observer_update S (Observer.id o1) ev e)) = true) ->
  exists err e',
    notify S event (this, w) =
    (Throw err, (this, {| env := e';
                          log := log w ++ [ObserverUpdate (Observer.id o1) event] |})).
Proof.
  intros Hobs Hthrow. unfold notify. unfold_M. simpl. rewrite Hobs. simpl. unfold_M. simpl.
  pose proof (Hthrow event (env w)) as H1.
  destruct (observer_update S (Observer.id o1) event (env w)) as [[[]|err] e1];
    simpl in H1; [discriminate|].
  by exists err, e1.
Qed.

(** One notification of two observers that return on it: both are
    updated, the first and then the second. *)
Lemma notify_two_delivers (o1 o2 : Observer.t) (event : MonitorEvent) (this : t) (w : World E) :
  observers this = [o1; o2] ->
  (forall o e, fst (observer_update S o event e) = Return tt) ->
  notify S event (this, w) =
  (Return tt, (this, {| env := after_updates S o1 o2 event (env w);
                        log := log w ++ deliveries o1 o2 [event] |})).
Proof.
  intros Hobs Hok. unfold notify, after_updates, deliveries.
  unfold_M. simpl. rewrite Hobs. simpl. unfold_M. simpl.
  pose proof (Hok (Observer.id o1) (env w)) as H1.
  destruct (observer_update S (Observer.id o1) event (env w)) as [r1 e1].
  simpl in H1. subst r1. simpl.
  pose proof (Hok (Observer.id o2) e1) as H2.
  destruct (observer_update S (Observer.id o2) event e1) as [r2 e2].
  simpl in H2. subst r2. simpl.
  by rewrite <- app_assoc.
Qed.

(** One notification on which the first observer throws: the error leaves
    [notify] after that single update. *)
Lemma notify_first_throws (o1 : Observer.t) (rest : list Observer.t)
    (event : MonitorEvent) (error : JsError) (this : t) (w : World E) :
  observers this = o1 :: rest ->
  fst (observer_update S (Observer.id o1) event (env w)) = Throw error ->
  notify S event (this, w) =
  (Throw error,
   (this, {| env := snd (observer_update S (Observer.id o1) event (env w));
             log := log w ++ [ObserverUpdate (Observer.id o1) event] |})).
Proof.
  intros Hobs Hthrow. unfold notify. unfold_M. simpl. rewrite Hobs. simpl. unfold_M. simpl.
  destruct (observer_update S (Observer.id o1) event (env w)) as [r1 e1].
  simpl in Hthrow. subst r1. reflexivity.
Qed.

(** C3 (as the code has it).  For a monitor with the two subscribed
    observers [o1] and [o2], in that order, one call of [recordQuery] made
    when the clock reads [now] appends the event to the history and then:
    - when no observer throws, it returns after these notifications, each
      of which invokes [update] on [o1] and then on [o2]: the slow-query
      alert (if the duration exceeds 1000), the error alert (if the event
      carries an error), and last the event itself; the alerts delivered
      are the ones appended to [metrics.alerts];
    - when [update] of [o1] throws [error] on the first of these
      notifications, [recordQuery] throws [error] after that single call of
      [update]: [o2] is not notified, no later notification is sent, and
      the history still holds the recorded event. *)
Theorem recordQuery_two_observers (o1 o2 : Observer.t) (queryInfo : QueryInfo.t)
    (this : t) (w : World E) :
  observers this = [o1; o2] ->
  let now := clock S (env w) in
  let recorded := queries this ++ [QueryRecord.mk queryInfo now] in
  ((forall o ev e, fst (observer_update S o ev e) = Return tt) ->
   let slow := slow_alerts queryInfo now in
   let failed :=
     error_alerts queryInfo
       (clock S (after_deliveries S o1 o2 (map ALERT slow) (env w))) in
   let events := map ALERT (slow ++ failed) ++ [QUERY_EXECUTED queryInfo] in
   recordQuery S queryInfo (this, w) =
     (Return tt,
      ({| observers := [o1; o2]; queries := recorded;
          alerts := alerts this ++ slow ++ failed |},
       {| env := after_deliveries S o1 o2 events (env w);
          log := log w ++ deliveries o1 o2 events |}))) /\
  (forall error,
     let event := first_notification queryInfo now in
     fst (observer_update S (Observer.id o1) event (env w)) = Throw error ->
     recordQuery S queryInfo (this, w) =
       (Throw error,
        ({| observers := [o1; o2]; queries := recorded;
            alerts := alerts this ++
                      match event with ALERT alert => [alert] | _ => [] end |},
         {| env := snd (observer_update S (Observer.id o1) event (env w));
            log := log w ++ [ObserverUpdate (Observer.id o1) event] |}))).
Proof.
  intros Hobs now recorded. subst now recorded. split.
  - intros Hok. cbv zeta.
    unfold recordQuery, _checkPerformance, slow_alerts, error_alerts,
      slow_query_alert, query_error_alert.
    unfold_M. simpl.
    destruct (QueryInfo.duration queryInfo >? 1000);
      destruct (truthy_string (QueryInfo.error queryInfo)); simpl;
      repeat match goal with
        | |- context [notify S ?ev (?t, ?w0)] =>
            rewrite (notify_two_delivers o1 o2 ev t w0 Hobs (fun o e => Hok o ev e)); simpl
        end;
      unfold push_alert, after_deliveries, deliveries; simpl;
      rewrite <- ?app_assoc, ?app_nil_r; simpl;
      by rewrite Hobs.
  - intros error event Hthrow. subst event.
    unfold recordQuery, _checkPerformance, first_notification, slow_alerts, error_alerts,
      slow_query_alert, query_error_alert in *.
    unfold_M. simpl in *.
    destruct (QueryInfo.duration queryInfo >? 1000);
      destruct (truthy_string (QueryInfo.error queryInfo)); simpl in *;
      match goal with
      | |- context [notify S ?ev (?t, ?w0)] =>
          rewrite (notify_first_throws o1 [o2] ev error t w0 Hobs Hthrow); simpl
      end;
      unfold push_alert; simpl; rewrite ?app_nil_r; by rewrite Hobs.
Qed.

End MonitorNotification.

(** C3, the claim as stated fails: with a first observer whose [update]
    throws, [recordQuery] throws, the second observer is never called, and
    the history holds the event. *)
Lemma recordQuery_second_observer_skipped :
  let result := PerformanceMonitor.recordQuery (Mock.surroundings [1%nat]) Mock.fast_query
                  (Mock.monitor12, Mock.world Mock.env0) in
  fst result = Throw (Error "observer failed") /\
  updates_of 1 (log (snd (snd result))) = [QUERY_EXECUTED Mock.fast_query] /\
  updates_of 2 (log (snd (snd result))) = [] /\
  PerformanceMonitor.queries (fst (snd result)) = [QueryRecord.mk Mock.fast_query 0].
Proof. vm_compute. repeat split. Qed.

Lemma recordQuery_two_observers_witness :
  (let result := PerformanceMonitor.recordQuery (Mock.surroundings []) Mock.slow_failed_query
                   (Mock.monitor12, Mock.world Mock.env0) in
   fst result = Return tt /\
   log (snd (snd result)) =
     deliveries Mock.observer1 Mock.observer2
       [ALERT (slow_query_alert Mock.slow_failed_query 0);
        ALERT (query_error_alert Mock.slow_failed_query 0);
        QUERY_EXECUTED Mock.slow_failed_query]) /\
  (let result := PerformanceMonitor.recordQuery (Mock.surroundings [1%nat])
                   Mock.slow_failed_query (Mock.monitor12, Mock.world Mock.env0) in
   fst result = Throw (Error "observer failed") /\
   log (snd (snd result)) =
     [ObserverUpdate 1 (ALERT (slow_query_alert Mock.slow_failed_query 0))] /\
   PerformanceMonitor.queries (fst (snd result)) =
     [QueryRecord.mk Mock.slow_failed_query 0]).
Proof.
  split.
  - destruct (recordQuery_two_observers (Mock.surroundings []) Mock.observer1 Mock.observer2
                Mock.slow_failed_query Mock.monitor12 (Mock.world Mock.env0) eq_refl)
      as [Hreturn _].
    cbv zeta. rewrite Hreturn; [split; reflexivity|].
    intros o ev e. reflexivity.
  - destruct (recordQuery_two_observers (Mock.surroundings [1%nat]) Mock.observer1
                Mock.observer2 Mock.slow_failed_query Mock.monitor12
                (Mock.world Mock.env0) eq_refl)
      as [_ Hthrow].
    cbv zeta. rewrite (Hthrow (Error "observer failed") eq_refl).
    split; [reflexivity|]. split; reflexivity.
Defined.

(** ** The Metrics decorator *)

Section MetricsProperties.
Context {E : Type} (I : Inner E).
Import MetricsDecorator.

Lemma sum_snoc (xs : list Z) (d : Z) : foldr Z.add 0 (xs ++ [d]) = foldr Z.add 0 xs + d.
Proof. induction xs as [|x xs IH]; simpl; lia. Qed.

(** One call whose inner call returns: all of the counters of the success
    path move, and one sample is appended. *)
Lemma metrics_call_returns (customerId : Z) (this : t) (w : World E) result e' :
  executor_getCustomerDashboard I customerId (env w) = (Return result, e') ->
  getCustomerDashboard I customerId (this, w) =
    (Return result,
     ({| totalQueries := totalQueries this + 1;
         successfulQueries := successfulQueries this + 1;
         failedQueries := failedQueries this;
         totalDuration := totalDuration this + (Date_now I e' - Date_now I (env w));
         latencies := latencies this ++ [Date_now I e' - Date_now I (env w)] |},
      {| env := e'; log := log w ++ [ExecutorCall customerId] |})).
Proof. intros Hex. unfold getCustomerDashboard. unfold_M. simpl. by rewrite Hex. Qed.

(** One call whose inner call throws: only [totalQueries] and
    [failedQueries] move; no sample is recorded and [totalDuration] keeps
    its value. *)
Lemma metrics_call_throws (customerId : Z) (this : t) (w : World E) error e' :
  executor_getCustomerDashboard I customerId (env w) = (Throw error, e') ->
  getCustomerDashboard I customerId (this, w) =
    (Throw error,
     ({| totalQueries := totalQueries this + 1;
         successfulQueries := successfulQueries this;
         failedQueries := failedQueries this + 1;
         totalDuration := totalDuration this;
         latencies := latencies this |},
      {| env := e'; log := log w ++ [ExecutorCall customerId] |})).
Proof. intros Hex. unfold getCustomerDashboard. unfold_M. simpl. by rewrite Hex. Qed.

Lemma metrics_calls_from (ids : list Z) (this : t) (w : World E) :
  let result := run_calls (getCustomerDashboard I) ids (this, w) in
  let this' := fst (snd result) in
  totalQueries this' = totalQueries this + Z.of_nat (length ids) /\
  successfulQueries this' = successfulQueries this + count_outcomes is_Return (fst result) /\
  failedQueries this' = failedQueries this + count_outcomes is_Throw (fst result) /\
  Z.of_nat (length (latencies this')) =
    Z.of_nat (length (latencies this)) + count_outcomes is_Return (fst result) /\
  totalDuration this' - foldr Z.add 0 (latencies this') =
    totalDuration this - foldr Z.add 0 (latencies this).
Proof.
  revert this w. induction ids as [|id ids IH]; intros this w.
  - simpl. unfold count_outcomes. simpl. lia.
  - cbn [run_calls].
    destruct (executor_getCustomerDashboard I id (env w)) as [[result|error] e'] eqn:Hex.
    + rewrite (metrics_call_returns id this w result e' Hex).
      match goal with |- context [run_calls _ ids (?t, ?w0)] => specialize (IH t w0) end.
      destruct (run_calls (getCustomerDashboard I) ids _) as [rs [this' w']].
      cbn [fst snd totalQueries successfulQueries failedQueries totalDuration latencies] in *.
      unfold count_outcomes in *. cbn [List.filter is_Return is_Throw length] in *.
      rewrite length_app, sum_snoc in IH. simpl length in IH. lia.
    + rewrite (metrics_call_throws id this w error e' Hex).
      match goal with |- context [run_calls _ ids (?t, ?w0)] => specialize (IH t w0) end.
      destruct (run_calls (getCustomerDashboard I) ids _) as [rs [this' w']].
      cbn [fst snd totalQueries successfulQueries failedQueries totalDuration latencies] in *.
      unfold count_outcomes in *. cbn [List.filter is_Return is_Throw length] in *.
      lia.
Qed.

(** C2 (as the code has it).  After the calls [ids] made through a fresh
    Metrics decorator, with any mix of outcomes: [totalQueries] is the number
    of calls, [successfulQueries] and [failedQueries] count the returned and
    the thrown ones, the latency list has one sample per returned call (a
    call that throws records none) and [totalDuration] is the sum of the
    samples. *)
Theorem metrics_samples_count_successes (ids : list Z) (w : World E) :
  let result := run_calls (getCustomerDashboard I) ids (new, w) in
  let this := fst (snd result) in
  totalQueries this = Z.of_nat (length ids) /\
  successfulQueries this = count_outcomes is_Return (fst result) /\
  failedQueries this = count_outcomes is_Throw (fst result) /\
  successfulQueries this + failedQueries this = totalQueries this /\
  Z.of_nat (length (latencies this)) = successfulQueries this /\
  totalDuration this = foldr Z.add 0 (latencies this).
Proof.
  pose proof (metrics_calls_from ids new w) as H. cbv zeta in *.
  destruct H as (Ht & Hs & Hf & Hl & Hd). simpl in Ht, Hs, Hf, Hl, Hd.
  repeat split; try lia.
  rewrite Ht, Hs, Hf. unfold count_outcomes.
  pose proof (run_calls_length (getCustomerDashboard I) ids (new, w)) as Hlen.
  rewrite <- Hlen.
  generalize (fst (run_calls (getCustomerDashboard I) ids (new, w))).
  intros rs. induction rs as [|[a|err] rs IHrs]; simpl in *; lia.
Qed.

End MetricsProperties.

(** C2, the claim as stated fails: one call whose inner call throws is
    tallied as a failure and leaves the latency list empty and the total
    duration at zero, although the call took one millisecond. *)
Lemma metrics_failed_call_records_no_latency :
  let result := run_calls (MetricsDecorator.getCustomerDashboard Mock.inner) [1]
                  (MetricsDecorator.new,
                   Mock.world (Mock.set_script [Throw Mock.boom] Mock.env0)) in
  fst result = [Throw Mock.boom] /\
  MetricsDecorator.totalQueries (fst (snd result)) = 1 /\
  MetricsDecorator.failedQueries (fst (snd result)) = 1 /\
  MetricsDecorator.latencies (fst (snd result)) = [] /\
  MetricsDecorator.totalDuration (fst (snd result)) = 0 /\
  length (MetricsDecorator.latencies (fst (snd result))) <> 1%nat /\
  Mock.time (env (snd (snd result))) = 1.
Proof. vm_compute. repeat split; discriminate. Qed.

Example metrics_mixed_calls :
  let result := run_calls (MetricsDecorator.getCustomerDashboard Mock.inner) [1; 2; 3]
                  (MetricsDecorator.new,
                   Mock.world (Mock.set_script
                                 [Return Mock.empty_dashboard; Throw Mock.boom] Mock.env0)) in
  fst (snd result) = MetricsDecorator.mk 3 2 1 2 [1; 1].
Proof. reflexivity. Qed.

(** ** The Retry decorator *)

Section RetryProperties.
Context {E : Type} (I : Inner E).
Import RetryDecorator.

Lemma inner_calls_executor (l : list Call) (customerId : Z) :
  inner_calls (l ++ [ExecutorCall customerId]) = Datatypes.S (inner_calls l).
Proof. unfold inner_calls. rewrite List.filter_app, length_app. simpl. lia. Qed.

Lemma inner_calls_sleep (l : list Call) (ms : Z) :
  inner_calls (l ++ [Sleep ms]) = inner_calls l.
Proof. unfold inner_calls. rewrite List.filter_app, length_app. simpl. lia. Qed.

(** The four ways through one iteration of the loop. *)
Lemma loop_returns (customerId attempt : Z) rest lastError (this : t) e lg result e' :
  executor_getCustomerDashboard I customerId e = (Return result, e') ->
  loop I customerId (attempt :: rest) lastError (this, {| env := e; log := lg |}) =
    (Return result, (this, {| env := e'; log := lg ++ [ExecutorCall customerId] |})).
Proof. intros Hex. simpl. unfold_M. simpl. by rewrite Hex. Qed.

Lemma loop_rethrows_validation (customerId attempt : Z) rest lastError (this : t) e lg error e' :
  executor_getCustomerDashboard I customerId e = (Throw error, e') ->
  error_name error = "ValidationError" ->
  loop I customerId (attempt :: rest) lastError (this, {| env := e; log := lg |}) =
    (Throw error, (this, {| env := e'; log := lg ++ [ExecutorCall customerId] |})).
Proof.
  intros Hex Hname. simpl. unfold_M. simpl. rewrite Hex, Hname. reflexivity.
Qed.

Lemma loop_breaks (customerId attempt : Z) rest lastError (this : t) e lg error e' :
  executor_getCustomerDashboard I customerId e = (Throw error, e') ->
  error_name error <> "ValidationError" ->
  attempt = maxRetries this ->
  loop I customerId (attempt :: rest) lastError (this, {| env := e; log := lg |}) =
    (Throw (QueryError (failed_after this) (Some error)),
     (this, {| env := e'; log := lg ++ [ExecutorCall customerId] |})).
Proof.
  intros Hex Hname Hlast. simpl. unfold after_loop. unfold_M. simpl. rewrite Hex.
  apply String.eqb_neq in Hname. rewrite Hname. simpl.
  apply Z.eqb_eq in Hlast. rewrite Hlast. reflexivity.
Qed.

Lemma loop_retries (customerId attempt : Z) rest lastError (this : t) e lg error e' :
  executor_getCustomerDashboard I customerId e = (Throw error, e') ->
  error_name error <> "ValidationError" ->
  attempt <> maxRetries this ->
  loop I customerId (attempt :: rest) lastError (this, {| env := e; log := lg |}) =
    loop I customerId rest (Some error)
      (this, {| env := setTimeout I (initialDelay this * 2 ^ attempt) e';
                log := (lg ++ [ExecutorCall customerId])
                       ++ [Sleep (initialDelay this * 2 ^ attempt)] |}).
Proof.
  intros Hex Hname Hnot. simpl. unfold _sleep. unfold_M. simpl. rewrite Hex.
  apply String.eqb_neq in Hname. rewrite Hname. simpl.
  apply Z.eqb_neq in Hnot. rewrite Hnot. reflexivity.
Qed.

(** Rewrite the iteration at the head of the loop with one of the four
    lemmas above. *)
Ltac loop_step lemma :=
  match goal with
  | |- context [loop I ?c (?a :: ?r) ?le (?t, {| env := ?e0; log := ?l0 |})] =>
      erewrite (lemma c a r le t e0 l0)
  end.

Lemma seqZ_attempts (attempt maxRetries : Z) :
  attempt <= maxRetries ->
  seqZ attempt (maxRetries + 1 - attempt) =
  attempt :: seqZ (attempt + 1) (maxRetries + 1 - (attempt + 1)).
Proof.
  intros Hle. rewrite seqZ_cons by lia. f_equal. f_equal; lia.
Qed.

(** [k] retryable failures and then a success. *)
Lemma loop_after_failures_returns (customerId : Z) (this : t) (k : nat) :
  forall (attempt : Z) (e : E) (lg : list Call) lastError result,
  attempt + Z.of_nat k <= maxRetries this ->
  (forall i, (i < k)%nat -> retryable (outcome_of_call I customerId this attempt e i)) ->
  outcome_of_call I customerId this attempt e k = Return result ->
  let run := loop I customerId (seqZ attempt (maxRetries this + 1 - attempt)) lastError
               (this, {| env := e; log := lg |}) in
  fst run = Return result /\
  inner_calls (log (snd (snd run))) = (inner_calls lg + k + 1)%nat.
Proof.
  induction k as [|k IH]; intros attempt e lg lastError result Hle Hfail Hok run; subst run.
  - rewrite seqZ_attempts by lia.
    unfold outcome_of_call in Hok. simpl in Hok.
    destruct (executor_getCustomerDashboard I customerId e) as [r e'] eqn:Hex.
    simpl in Hok. subst r.
    loop_step loop_returns; [| exact Hex].
    split; [reflexivity|]. simpl. rewrite inner_calls_executor. lia.
  - rewrite seqZ_attempts by lia.
    destruct (Hfail 0%nat ltac:(lia)) as (error & Hthrow & Hname).
    unfold outcome_of_call in Hthrow. simpl in Hthrow.
    destruct (executor_getCustomerDashboard I customerId e) as [r e'] eqn:Hex.
    simpl in Hthrow. subst r.
    loop_step loop_retries; [| exact Hex | exact Hname | lia].
    edestruct (IH (attempt + 1)) as (Hloop & Hcalls); cycle 3.
    + split; [exact Hloop|].
      rewrite Hcalls, inner_calls_sleep, inner_calls_executor. lia.
    + lia.
    + intros i Hi. specialize (Hfail (Datatypes.S i) ltac:(lia)).
      unfold outcome_of_call in *. simpl in Hfail. rewrite Hex in Hfail. exact Hfail.
    + unfold outcome_of_call in *. simpl in Hok. rewrite Hex in Hok. exact Hok.
Qed.

(** Retryable failures on every iteration up to the last. *)
Lemma loop_all_failures_throws (customerId : Z) (this : t) (n : nat) :
  forall (attempt : Z) (e : E) (lg : list Call) lastError,
  attempt + Z.of_nat n = maxRetries this ->
  (forall i, (i <= n)%nat -> retryable (outcome_of_call I customerId this attempt e i)) ->
  let run := loop I customerId (seqZ attempt (maxRetries this + 1 - attempt)) lastError
               (this, {| env := e; log := lg |}) in
  exists last,
    outcome_of_call I customerId this attempt e n = Throw last /\
    fst run = Throw (QueryError (failed_after this) (Some last)) /\
    inner_calls (log (snd (snd run))) = (inner_calls lg + n + 1)%nat.
Proof.
  induction n as [|n IH]; intros attempt e lg lastError Hle Hfail run; subst run.
  - rewrite seqZ_attempts by lia.
    destruct (Hfail 0%nat ltac:(lia)) as (error & Hthrow & Hname).
    unfold outcome_of_call in *. cbn [env_before_call] in *.
    destruct (executor_getCustomerDashboard I customerId e) as [r e'] eqn:Hex.
    simpl in Hthrow. subst r.
    loop_step loop_breaks; [| exact Hex | exact Hname | lia].
    eexists. split; [reflexivity|]. split; [reflexivity|].
    simpl. rewrite inner_calls_executor. lia.
  - rewrite seqZ_attempts by lia.
    destruct (Hfail 0%nat ltac:(lia)) as (error & Hthrow & Hname).
    unfold outcome_of_call in Hthrow. simpl in Hthrow.
    destruct (executor_getCustomerDashboard I customerId e) as [r e'] eqn:Hex.
    simpl in Hthrow. subst r.
    loop_step loop_retries; [| exact Hex | exact Hname | lia].
    edestruct (IH (attempt + 1)) as (last & Hlast & Hloop & Hcalls); cycle 2.
    + exists last. split; [|split; [exact Hloop|]].
      * unfold outcome_of_call in *. simpl. rewrite Hex. exact Hlast.
      * rewrite Hcalls, inner_calls_sleep, inner_calls_executor. lia.
    + lia.
    + intros i Hi. specialize (Hfail (Datatypes.S i) ltac:(lia)).
      unfold outcome_of_call in *. simpl in Hfail. rewrite Hex in Hfail. exact Hfail.
Qed.

(** C6.  For a Retry decorator with [maxRetries >= 0], writing "call i" for
    the inner call number [i] (from 0) of one [getCustomerDashboard]:
    - if calls [0 .. k-1] fail with retryable errors, [k < maxRetries], and
      call [k] returns, the decorator returns that result after exactly
      [k + 1] inner calls;
    - if calls [0 .. maxRetries] all fail with retryable errors, the
      decorator throws a [QueryError] whose [originalError] is the error of
      the last call, after exactly [maxRetries + 1] inner calls;
    - if call 0 throws an error named ['ValidationError'], the decorator
      rethrows that very error after exactly one inner call. *)
Theorem retry_attempts (customerId : Z) (this : t) (w : World E) :
  0 <= maxRetries this ->
  let outcome := outcome_of_call I customerId this 0 (env w) in
  let run := getCustomerDashboard I customerId (this, w) in
  let calls := inner_calls (log (snd (snd run))) in
  (forall (k : nat) result,
     Z.of_nat k < maxRetries this ->
     (forall i, (i < k)%nat -> retryable (outcome i)) ->
     outcome k = Return result ->
     fst run = Return result /\ calls = (inner_calls (log w) + (k + 1))%nat) /\
  ((forall i, (i <= Z.to_nat (maxRetries this))%nat -> retryable (outcome i)) ->
   exists last,
     outcome (Z.to_nat (maxRetries this)) = Throw last /\
     fst run = Throw (QueryError (failed_after this) (Some last)) /\
     calls = (inner_calls (log w) + (Z.to_nat (maxRetries this) + 1))%nat) /\
  (forall error,
     outcome 0%nat = Throw error ->
     error_name error = "ValidationError" ->
     fst run = Throw error /\ calls = (inner_calls (log w) + 1)%nat).
Proof.
  intros Hmax outcome run calls. subst outcome run calls.
  unfold getCustomerDashboard. unfold_M. simpl.
  replace (seqZ 0 (maxRetries this + 1)) with (seqZ 0 (maxRetries this + 1 - 0))
    by (f_equal; lia).
  destruct w as [e lg]. simpl.
  split; [|split].
  - intros k result Hk Hfail Hok.
    destruct (loop_after_failures_returns customerId this k 0 e lg None result)
      as [Hrun Hcalls]; [lia | exact Hfail | exact Hok |].
    split; [exact Hrun | rewrite Hcalls; lia].
  - intros Hfail.
    destruct (loop_all_failures_throws customerId this (Z.to_nat (maxRetries this))
                0 e lg None) as (last & Hlast & Hrun & Hcalls); [lia | exact Hfail |].
    exists last. split; [exact Hlast|]. split; [exact Hrun | rewrite Hcalls; lia].
  - intros error Hthrow Hname.
    rewrite seqZ_attempts by lia.
    unfold outcome_of_call in Hthrow. simpl in Hthrow.
    destruct (executor_getCustomerDashboard I customerId e) as [r e'] eqn:Hex.
    simpl in Hthrow. subst r.
    loop_step loop_rethrows_validation; [| exact Hex | exact Hname].
    split; [reflexivity|]. simpl. rewrite inner_calls_executor. lia.
Qed.

End RetryProperties.

Lemma retry_attempts_witness :
  (let run := RetryDecorator.getCustomerDashboard Mock.inner 7
                (Mock.retry3,
                 Mock.scripted [Throw Mock.boom; Throw Mock.boom; Return Mock.empty_dashboard]) in
   fst run = Return Mock.empty_dashboard /\
   inner_calls (log (snd (snd run))) = 3%nat) /\
  (let run := RetryDecorator.getCustomerDashboard Mock.inner 7
                (Mock.retry3,
                 Mock.scripted [Throw Mock.boom; Throw Mock.boom; Throw Mock.boom;
                                Throw Mock.boom; Return Mock.empty_dashboard]) in
   fst run = Throw (QueryError "Failed after 4 attempts" (Some Mock.boom)) /\
   inner_calls (log (snd (snd run))) = 4%nat) /\
  (let run := RetryDecorator.getCustomerDashboard Mock.inner 7
                (Mock.retry3,
                 Mock.scripted [Throw Mock.invalid; Return Mock.empty_dashboard]) in
   fst run = Throw Mock.invalid /\
   inner_calls (log (snd (snd run))) = 1%nat).
Proof.
  split; [|split].
  - destruct (retry_attempts Mock.inner 7 Mock.retry3
                (Mock.scripted [Throw Mock.boom; Throw Mock.boom; Return Mock.empty_dashboard]))
      as (Hreturns & _ & _); [vm_compute; discriminate|].
    apply (Hreturns 2%nat Mock.empty_dashboard).
    + vm_compute. reflexivity.
    + intros i Hi. exists Mock.boom.
      destruct i as [|[|i]]; [split; [reflexivity | discriminate].. | lia].
    + reflexivity.
  - destruct (retry_attempts Mock.inner 7 Mock.retry3
                (Mock.scripted [Throw Mock.boom; Throw Mock.boom; Throw Mock.boom;
                                Throw Mock.boom; Return Mock.empty_dashboard]))
      as (_ & Hthrows & _); [vm_compute; discriminate|].
    destruct Hthrows as (last & Hlast & Hrun & Hcalls).
    + intros i Hi. exists Mock.boom.
      destruct i as [|[|[|[|i]]]]; [split; [reflexivity | discriminate].. |].
      vm_compute in Hi. lia.
    + vm_compute in Hlast. injection Hlast as <-. split; [exact Hrun | exact Hcalls].
  - destruct (retry_attempts Mock.inner 7 Mock.retry3
                (Mock.scripted [Throw Mock.invalid; Return Mock.empty_dashboard]))
      as (_ & _ & Hvalidation); [vm_compute; discriminate|].
    apply (Hvalidation Mock.invalid); reflexivity.
Defined.

(** ** The circuit breaker *)

Section BreakerProperties.
Context {E : Type} (I : Inner E).
Import CircuitBreakerDecorator.

Ltac unfold_breaker :=
  unfold getCustomerDashboard, guard, attempt, _onSuccess, _onFailure,
    set_state, set_failureCount, set_nextAttempt in *;
  unfold_M; simpl in *.

Lemma call_preserves_between_calls threshold0 resetTimeout0 (this : t) customerId (w : World E) :
  between_calls threshold0 resetTimeout0 this ->
  between_calls threshold0 resetTimeout0
    (fst (snd (getCustomerDashboard I customerId (this, w)))).
Proof.
  intros (Hthr & Hrt & Hhalf & Hopen & Hnone).
  destruct this as [thr rt fc st na]. unfold between_calls. unfold_breaker.
  destruct (executor_getCustomerDashboard I customerId (env w)) as [[r|err] e'] eqn:Hex;
    destruct st; simpl; try done;
    repeat match goal with
      | |- context [?a <? ?b] => destruct (Z.ltb_spec a b); simpl
      | |- context [?a >=? ?b] => rewrite (Z.geb_leb a b); destruct (Z.leb_spec b a); simpl
      | |- context [executor_getCustomerDashboard I customerId (env w)] => rewrite Hex; simpl
      end;
    repeat split; try done; try lia; eauto;
    try (destruct Hopen as [? [? ?]]; [done|]; eauto; lia).
Qed.

Lemma reachable_between_calls threshold0 resetTimeout0 (this : t) :
  reachable I threshold0 resetTimeout0 this -> between_calls threshold0 resetTimeout0 this.
Proof.
  induction 1 as [|this customerId w Hreach IH].
  - unfold between_calls, new. simpl. repeat split; try done. 
  - by apply call_preserves_between_calls.
Qed.

Lemma reachable_run_calls threshold0 resetTimeout0 (ids : list Z) (this : t) (w : World E) :
  reachable I threshold0 resetTimeout0 this ->
  reachable I threshold0 resetTimeout0
    (fst (snd (run_calls (getCustomerDashboard I) ids (this, w)))).
Proof.
  revert this w. induction ids as [|id ids IH]; intros this w Hreach; simpl; [done|].
  pose proof (reachable_call I threshold0 resetTimeout0 this id w Hreach) as Hnext.
  destruct (getCustomerDashboard I id (this, w)) as [r [this' w']]. simpl in Hnext.
  specialize (IH this' w' Hnext).
  by destruct (run_calls (getCustomerDashboard I) ids (this', w')) as [rs s''].
Qed.

(** [nextAttempt] is never reset to [null]. *)
Lemma nextAttempt_kept (this : t) customerId (w : World E) :
  nextAttempt this <> None ->
  nextAttempt (fst (snd (getCustomerDashboard I customerId (this, w)))) <> None.
Proof.
  intros Hset. destruct this as [thr rt fc st na]. unfold_breaker.
  destruct (executor_getCustomerDashboard I customerId (env w)) as [[r|err] e'] eqn:Hex;
    destruct st; simpl;
    repeat match goal with
      | |- context [?a <? ?b] => destruct (Z.ltb_spec a b); simpl
      | |- context [?a >=? ?b] => rewrite (Z.geb_leb a b); destruct (Z.leb_spec b a); simpl
      | |- context [executor_getCustomerDashboard I customerId (env w)] => rewrite Hex; simpl
      end; done.
Qed.

(** C4 (as the code has it).  For every state of a circuit breaker
    reachable by a sequence of calls: if the state is Open then
    [nextAttempt] is set; if [nextAttempt] is unset then the state is
    Closed; and a call never unsets [nextAttempt]. *)
Theorem nextAttempt_set_when_open threshold0 resetTimeout0 (this : t) :
  reachable I threshold0 resetTimeout0 this ->
  (state this = OPEN -> exists openUntil, nextAttempt this = Some openUntil) /\
  (nextAttempt this = None -> state this = CLOSED) /\
  (forall customerId (w : World E),
     nextAttempt this <> None ->
     nextAttempt (fst (snd (getCustomerDashboard I customerId (this, w)))) <> None).
Proof.
  intros Hreach.
  destruct (reachable_between_calls _ _ _ Hreach) as (_ & _ & _ & Hopen & Hnone).
  split; [|split].
  - intros Hst. by destruct (Hopen Hst).
  - exact Hnone.
  - intros customerId w. apply nextAttempt_kept.
Qed.

(** A call that is refused leaves the breaker alone; a whole call is its
    two moments, one after the other. *)
Lemma guard_effect (this : t) (w : World E) :
  guard I (this, w) =
  if State_eqb (state this) OPEN then
    if Date_now I (env w) <? default 0 (nextAttempt this)
    then (Throw circuit_open_error, (this, w))
    else (Return tt, (set_state HALF_OPEN this, w))
  else (Return tt, (this, w)).
Proof.
  destruct this as [thr rt fc st na]. unfold circuit_open_error. unfold_breaker.
  destruct st; simpl; try reflexivity.
  by destruct (Date_now I (env w) <? default 0 na).
Qed.

Lemma call_is_two_moments (this : t) (customerId : Z) (w : World E) :
  snd (getCustomerDashboard I customerId (this, w)) =
  snd (schedule I [CallMade customerId; CallSettled 0] [] (this, w)) /\
  fst (fst (schedule I [CallMade customerId; CallSettled 0] [] (this, w))) =
  [fst (getCustomerDashboard I customerId (this, w))].
Proof.
  unfold getCustomerDashboard at 1 2. cbn [schedule moment].
  cbv [bind]. destruct (guard I (this, w)) as [[[]|error] s'] eqn:Hguard; simpl.
  - destruct (attempt I customerId s') as [r s'']. done.
  - done.
Qed.

(** What holds of a circuit breaker at every moment, also when calls
    overlap: the constructor arguments are kept, and a breaker that is not
    Closed has [nextAttempt] set. *)
Lemma overlapping_invariant threshold0 resetTimeout0 (this : t) (waiting : list Z) :
  overlapping I threshold0 resetTimeout0 this waiting ->
  threshold this = default 5 threshold0 /\
  resetTimeout this = default 60000 resetTimeout0 /\
  (state this <> CLOSED -> exists openUntil, nextAttempt this = Some openUntil).
Proof.
  induction 1 as [|this waiting m w Hover (Hthr & Hrt & Hset)].
  - simpl. repeat split; done.
  - destruct m as [customerId|k]; cbn [moment].
    + rewrite guard_effect.
      destruct this as [thr rt fc st na]; destruct st; simpl in *;
        try (repeat split; done).
      destruct (Date_now I (env w) <? default 0 na); simpl; repeat split; try done.
      intros _. by apply Hset.
    + destruct (waiting !! k) as [customerId|]; [|simpl; repeat split; done].
      destruct this as [thr rt fc st na]. unfold_breaker.
      destruct (executor_getCustomerDashboard I customerId (env w)) as [[r|err] e'];
        destruct st; simpl in *;
        repeat match goal with
          | |- context [?a >=? ?b] => rewrite (Z.geb_leb a b); destruct (Z.leb_spec b a); simpl
          end;
        repeat split; try done; eauto.
Qed.

Lemma schedule_overlapping threshold0 resetTimeout0 (ms : list Moment) :
  forall (this : t) (waiting : list Z) (w : World E),
  overlapping I threshold0 resetTimeout0 this waiting ->
  overlapping I threshold0 resetTimeout0
    (fst (snd (schedule I ms waiting (this, w))))
    (snd (fst (schedule I ms waiting (this, w)))).
Proof.
  induction ms as [|m ms IH]; intros this waiting w Hover; cbn [schedule]; [done|].
  pose proof (overlapping_moment I threshold0 resetTimeout0 this waiting m w Hover) as Hnext.
  destruct (moment I m waiting (this, w)) as [[r waiting'] [this' w']].
  cbn [fst snd] in Hnext. specialize (IH this' waiting' w' Hnext).
  by destruct (schedule I ms waiting' (this', w')) as [[rs waiting''] s''].
Qed.

(** Calls that follow one another are a special case of calls that may
    overlap. *)
Lemma reachable_overlapping threshold0 resetTimeout0 (this : t) :
  reachable I threshold0 resetTimeout0 this ->
  overlapping I threshold0 resetTimeout0 this [].
Proof.
  induction 1 as [|this customerId w Hreach IH]; [constructor|].
  destruct (call_is_two_moments this customerId w) as [-> _].
  pose proof (schedule_overlapping threshold0 resetTimeout0
                [CallMade customerId; CallSettled 0] this [] w IH) as Hover.
  assert (Hnone : snd (fst (schedule I [CallMade customerId; CallSettled 0] [] (this, w))) = []).
  { cbn [schedule moment].
    destruct (guard I (this, w)) as [[[]|error] s']; simpl; [|done].
    by destruct (attempt I customerId s') as [r s'']. }
  by rewrite Hnone in Hover.
Qed.

(** C5 (as the code has it).  For every state [this] of a circuit breaker,
    reached by calls that may overlap, and every world [w], where the
    executor's call has the outcome [inner]:
    - a call that is made passes the first statement unchanged unless the
      breaker is Open; when it is Open, [nextAttempt] is set, and the call
      is refused with the circuit-open error, touching neither breaker nor
      world, strictly before [nextAttempt], and otherwise sets the state to
      HalfOpen and goes on;
    - a call that settles with a success returns it and resets the failure
      count to 0; it closes the breaker only if the state is HalfOpen at
      that moment, so that a breaker opened meanwhile stays Open;
    - a call that settles with a failure rethrows it and increments the
      count; if the count reaches the threshold the state becomes Open with
      [nextAttempt = Date.now() + resetTimeout], otherwise the state is
      kept, also when it is HalfOpen;
    - when the state was reached by calls that follow one another, the
      breaker is never HalfOpen between calls and one whole call behaves
      as the specified machine: Closed passes through, counts failures,
      resets on success and opens at the threshold; Open refuses before
      [nextAttempt] and otherwise runs the trial, whose success closes the
      breaker and whose failure opens it again with a new [nextAttempt]. *)
Theorem breaker_state_machine threshold0 resetTimeout0 (this : t) (waiting : list Z)
    customerId (w : World E) :
  overlapping I threshold0 resetTimeout0 this waiting ->
  let run := getCustomerDashboard I customerId (this, w) in
  let settled := attempt I customerId (this, w) in
  let inner := executor_getCustomerDashboard I customerId (env w) in
  let w' := {| env := snd inner; log := log w ++ [ExecutorCall customerId] |} in
  (state this <> OPEN -> guard I (this, w) = (Return tt, (this, w))) /\
  (state this = OPEN ->
   exists openUntil, nextAttempt this = Some openUntil /\
   (Date_now I (env w) < openUntil ->
      guard I (this, w) = (Throw circuit_open_error, (this, w)) /\
      run = (Throw circuit_open_error, (this, w))) /\
   (openUntil <= Date_now I (env w) ->
      guard I (this, w) = (Return tt, (set_state HALF_OPEN this, w)) /\
      run = attempt I customerId (set_state HALF_OPEN this, w))) /\
  (forall result, fst inner = Return result ->
     settled = (Return result, (after_success this, w'))) /\
  (forall error, fst inner = Throw error ->
     failureCount this + 1 < threshold this ->
     settled = (Throw error, (set_failureCount (failureCount this + 1) this, w'))) /\
  (forall error, fst inner = Throw error ->
     threshold this <= failureCount this + 1 ->
     settled = (Throw error, (opened_at (Date_now I (snd inner)) this, w'))) /\
  (reachable I threshold0 resetTimeout0 this ->
   (state this = CLOSED ->
    (forall result, fst inner = Return result ->
       run = (Return result, (closed_again this, w'))) /\
    (forall error, fst inner = Throw error ->
       failureCount this + 1 < threshold this ->
       run = (Throw error, (set_failureCount (failureCount this + 1) this, w'))) /\
    (forall error, fst inner = Throw error ->
       threshold this <= failureCount this + 1 ->
       run = (Throw error, (opened_at (Date_now I (snd inner)) this, w')))) /\
   (state this = OPEN ->
    exists openUntil, nextAttempt this = Some openUntil /\
    (Date_now I (env w) < openUntil ->
       run = (Throw circuit_open_error, (this, w))) /\
    (openUntil <= Date_now I (env w) ->
       guard I (this, w) = (Return tt, (set_state HALF_OPEN this, w)) /\
       run = attempt I customerId (set_state HALF_OPEN this, w) /\
       (forall result, fst inner = Return result ->
          run = (Return result, (closed_again this, w'))) /\
       (forall error, fst inner = Throw error ->
          run = (Throw error, (opened_at (Date_now I (snd inner)) this, w'))))) /\
   state this <> HALF_OPEN).
Proof.
  intros Hover run settled inner w'. subst run settled inner w'.
  destruct (overlapping_invariant _ _ _ _ Hover) as (_ & _ & Hset).
  split; [|split; [|split; [|split; [|split]]]].
  - intros Hst. rewrite guard_effect. by destruct (state this).
  - intros Hst. destruct Hset as [openUntil Hna]; [by rewrite Hst|].
    exists openUntil. split; [done|].
    unfold getCustomerDashboard. cbv [bind]. rewrite guard_effect, Hst, Hna. simpl.
    split.
    + intros Hearly. by destruct (Z.ltb_spec (Date_now I (env w)) openUntil); [|lia].
    + intros Hdue. by destruct (Z.ltb_spec (Date_now I (env w)) openUntil); [lia|].
  - intros result Hres. destruct this as [thr rt fc st na].
    unfold after_success, closed_again. unfold_breaker.
    destruct (executor_getCustomerDashboard I customerId (env w)) as [r e'].
    simpl in Hres. subst r. by destruct st.
  - intros error Herr Hlt. destruct this as [thr rt fc st na]. unfold_breaker.
    destruct (executor_getCustomerDashboard I customerId (env w)) as [r e'].
    simpl in Herr. subst r. simpl.
    rewrite Z.geb_leb. by destruct (Z.leb_spec thr (fc + 1)); [lia|].
  - intros error Herr Hge. destruct this as [thr rt fc st na].
    unfold opened_at. unfold_breaker.
    destruct (executor_getCustomerDashboard I customerId (env w)) as [r e'].
    simpl in Herr. subst r. simpl.
    rewrite Z.geb_leb. by destruct (Z.leb_spec thr (fc + 1)); [|lia].
  - intros Hreach.
    destruct (reachable_between_calls _ _ _ Hreach) as (_ & _ & Hhalf & Hopen & _).
    destruct this as [thr rt fc st na].
    unfold closed_again, opened_at, circuit_open_error. unfold_breaker.
    split; [|split; [|exact Hhalf]].
    + intros ->. simpl.
      destruct (executor_getCustomerDashboard I customerId (env w)) as [[r|err] e'] eqn:Hex;
        simpl; repeat split.
      * by intros ? [= ->].
      * discriminate.
      * discriminate.
      * discriminate.
      * intros ? [= ->] Hlt. rewrite Z.geb_leb. destruct (Z.leb_spec thr (fc + 1)); [lia|done].
      * intros ? [= ->] Hge. rewrite Z.geb_leb. destruct (Z.leb_spec thr (fc + 1)); [done|lia].
    + intros ->. destruct (Hopen eq_refl) as (Hfc & openUntil & ->).
      exists openUntil. split; [done|]. simpl. split.
      * intros Hearly. by destruct (Z.ltb_spec (Date_now I (env w)) openUntil); [|lia].
      * intros Hdue. destruct (Z.ltb_spec (Date_now I (env w)) openUntil); [lia|]. simpl.
        split; [done|]. split; [done|].
        destruct (executor_getCustomerDashboard I customerId (env w)) as [[r|err] e'] eqn:Hex;
          simpl; split.
        -- by intros ? [= ->].
        -- discriminate.
        -- discriminate.
        -- intros ? [= ->]. rewrite Z.geb_leb.
           destruct (Z.leb_spec thr (fc + 1)); [done|lia].
Qed.

End BreakerProperties.

Example breaker1_tripped_value :
  Mock.breaker1_tripped =
  CircuitBreakerDecorator.mk 1 0 1 CircuitBreakerDecorator.OPEN (Some 1).
Proof. reflexivity. Qed.

Example breaker1_recovered_value :
  Mock.breaker1_recovered =
  CircuitBreakerDecorator.mk 1 0 0 CircuitBreakerDecorator.CLOSED (Some 1).
Proof. reflexivity. Qed.

Lemma breaker1_tripped_reachable : reachable Mock.inner (Some 1) (Some 0) Mock.breaker1_tripped.
Proof. apply reachable_call, reachable_new. Qed.

Lemma breaker1_recovered_reachable :
  reachable Mock.inner (Some 1) (Some 0) Mock.breaker1_recovered.
Proof. apply reachable_call, breaker1_tripped_reachable. Qed.

(** C4, the claim as stated fails: a breaker that opened and then closed
    again after a successful trial is Closed and still has [nextAttempt]
    set. *)
Lemma breaker_closed_with_nextAttempt :
  reachable Mock.inner (Some 1) (Some 0) Mock.breaker1_recovered /\
  CircuitBreakerDecorator.state Mock.breaker1_recovered = CircuitBreakerDecorator.CLOSED /\
  CircuitBreakerDecorator.nextAttempt Mock.breaker1_recovered = Some 1 /\
  ~ (CircuitBreakerDecorator.nextAttempt Mock.breaker1_recovered <> None <->
     CircuitBreakerDecorator.state Mock.breaker1_recovered = CircuitBreakerDecorator.OPEN).
Proof.
  split; [exact breaker1_recovered_reachable|].
  split; [reflexivity|]. split; [reflexivity|].
  intros [Hset _]. specialize (Hset ltac:(discriminate)). discriminate Hset.
Qed.

Lemma nextAttempt_set_when_open_witness :
  exists openUntil,
    CircuitBreakerDecorator.state Mock.breaker1_tripped = CircuitBreakerDecorator.OPEN /\
    CircuitBreakerDecorator.nextAttempt Mock.breaker1_tripped = Some openUntil.
Proof.
  destruct (nextAttempt_set_when_open Mock.inner (Some 1) (Some 0) Mock.breaker1_tripped)
    as (Hopen & _ & _).
  - apply reachable_call, reachable_new.
  - destruct (Hopen eq_refl) as [openUntil Hset].
    exists openUntil. split; [reflexivity | exact Hset].
Defined.

(** C5, the claim as stated fails when calls overlap.  With threshold 2,
    a first call fails; a second and a third call are both made while the
    breaker is Closed; the second fails and opens the breaker; the third
    succeeds, which resets the failure count and leaves the breaker Open.
    The next call is the trial: it sets the state to HalfOpen, fails, and
    the count 1 being below the threshold, the breaker stays HalfOpen
    instead of going back to Open. *)
Lemma breaker_overlapping_trial_stays_half_open :
  overlapping Mock.inner (Some 2) (Some 0) (fst breaker2_overlapped) [] /\
  fst breaker2_overlapped =
    CircuitBreakerDecorator.mk 2 0 0 CircuitBreakerDecorator.OPEN (Some 2) /\
  Mock.time (env (snd breaker2_overlapped)) = 3 /\
  let trial := CircuitBreakerDecorator.getCustomerDashboard Mock.inner 4 breaker2_overlapped in
  fst (CircuitBreakerDecorator.guard Mock.inner breaker2_overlapped) = Return tt /\
  CircuitBreakerDecorator.state
    (fst (snd (CircuitBreakerDecorator.guard Mock.inner breaker2_overlapped)))
    = CircuitBreakerDecorator.HALF_OPEN /\
  fst trial = Throw Mock.boom /\
  fst (snd trial) =
    CircuitBreakerDecorator.mk 2 0 1 CircuitBreakerDecorator.HALF_OPEN (Some 2) /\
  CircuitBreakerDecorator.state (fst (snd trial)) <> CircuitBreakerDecorator.OPEN.
Proof.
  split.
  - exact (schedule_overlapping Mock.inner (Some 2) (Some 0) overlapped_calls breaker2 []
             (Mock.scripted [Throw Mock.boom; Throw Mock.boom;
                             Return Mock.empty_dashboard; Throw Mock.boom])
             (overlapping_new Mock.inner (Some 2) (Some 0))).
  - split; [reflexivity|]. split; [reflexivity|].
    cbv zeta. split; [reflexivity|]. split; [reflexivity|]. split; [reflexivity|].
    split; [reflexivity | discriminate].
Qed.

Lemma breaker1_overlapped_value :
  fst breaker1_overlapped =
    CircuitBreakerDecorator.mk 1 0 1 CircuitBreakerDecorator.OPEN (Some 1) /\
  overlapping Mock.inner (Some 1) (Some 0) (fst breaker1_overlapped) [2].
Proof.
  split; [reflexivity|].
  exact (schedule_overlapping Mock.inner (Some 1) (Some 0)
           [CallMade 1; CallMade 2; CallSettled 0] Mock.breaker1 []
           (Mock.scripted [Throw Mock.boom; Return Mock.empty_dashboard])
           (overlapping_new Mock.inner (Some 1) (Some 0))).
Qed.

Lemma breaker_state_machine_witness :
  (let short := CircuitBreakerDecorator.getCustomerDashboard Mock.inner 7
                  (Mock.breaker1_tripped, Mock.scripted [Return Mock.empty_dashboard]) in
   short = (Throw circuit_open_error,
            (Mock.breaker1_tripped, Mock.scripted [Return Mock.empty_dashboard]))) /\
  (let trial := CircuitBreakerDecorator.getCustomerDashboard Mock.inner 7
                  (Mock.breaker1_tripped, Mock.world (Mock.set_script [Throw Mock.boom]
                                                        (Mock.set_time 5 Mock.env0))) in
   fst trial = Throw Mock.boom /\
   fst (snd trial) =
     CircuitBreakerDecorator.mk 1 0 2 CircuitBreakerDecorator.OPEN (Some 6)) /\
  (let settled := CircuitBreakerDecorator.attempt Mock.inner 2 breaker1_overlapped in
   fst settled = Return Mock.empty_dashboard /\
   fst (snd settled) =
     CircuitBreakerDecorator.mk 1 0 0 CircuitBreakerDecorator.OPEN (Some 1)).
Proof.
  split; [|split].
  - destruct (breaker_state_machine Mock.inner (Some 1) (Some 0) Mock.breaker1_tripped [] 7
                (Mock.scripted [Return Mock.empty_dashboard]))
      as (_ & Hopen & _); [apply reachable_overlapping, reachable_call, reachable_new|].
    destruct (Hopen eq_refl) as (openUntil & Hset & Hearly & _).
    vm_compute in Hset. injection Hset as <-.
    apply Hearly. vm_compute. reflexivity.
  - destruct (breaker_state_machine Mock.inner (Some 1) (Some 0) Mock.breaker1_tripped [] 7
                (Mock.world (Mock.set_script [Throw Mock.boom] (Mock.set_time 5 Mock.env0))))
      as (_ & _ & _ & _ & _ & Hseq); [apply reachable_overlapping, reachable_call, reachable_new|].
    destruct Hseq as (_ & Hopen & _); [apply reachable_call, reachable_new|].
    destruct (Hopen eq_refl) as (openUntil & Hset & _ & Hdue).
    vm_compute in Hset. injection Hset as <-.
    destruct Hdue as (_ & _ & _ & Hfails); [vm_compute; discriminate|].
    cbv zeta. rewrite (Hfails Mock.boom eq_refl). split; reflexivity.
  - destruct (breaker_state_machine Mock.inner (Some 1) (Some 0) (fst breaker1_overlapped)
                [2] 2 (snd breaker1_overlapped))
      as (_ & _ & Hsuccess & _); [apply breaker1_overlapped_value|].
    cbv zeta.
    change breaker1_overlapped with (fst breaker1_overlapped, snd breaker1_overlapped) at 1 2.
    rewrite (Hsuccess Mock.empty_dashboard eq_refl). split; reflexivity.
Defined.

(** ** The Cache-Aside strategy *)

Section CacheAsideProperties.
Context {E : Type} (G : Gateways E).
Import RedisCacheStrategy.

(** C1 (as the code has it).  In [RedisCacheStrategy.getCustomerDashboard]
    a failure of the cache layer is a failure of the fetch:
    - when [redis.get] throws, the fetch throws that error; the store is
      not accessed and the hit and miss counters keep their values;
    - when [redis.get] reports a miss, the store read succeeds and
      [redis.setex] throws, the fetch throws the error of the write, after
      the client was released; the store result is not returned;
    - when [redis.get] reports a miss and the store read, the cache write
      and the release succeed, the fetch returns the store result. *)
Theorem cache_failure_fails_fetch (customerId : Z) (this : t) (w : World E) :
  let key := cacheKey customerId in
  let run := getCustomerDashboard G customerId (this, w) in
  let missed := {| cacheHits := cacheHits this; cacheMisses := cacheMisses this + 1 |} in
  (forall error e1,
     redis_get G key (env w) = (Throw error, e1) ->
     run = (Throw error, (this, {| env := e1; log := log w ++ [RedisGet key] |}))) /\
  (forall cached e1 client e2 rows e3 outcome e4 e5,
     redis_get G key (env w) = (Return cached, e1) ->
     truthy_string cached = false ->
     pgPool_connect G e1 = (Return client, e2) ->
     client_query G client _getCustomerDashboardQuery [customerId] e2 = (Return rows, e3) ->
     let data := _formatCustomerDashboard rows in
     redis_setex G key (redisTTL G) (JSON_stringify G data) e3 = (outcome, e4) ->
     client_release G client e4 = (Return tt, e5) ->
     run = (match outcome with
            | Return _ => Return data
            | Throw error => Throw error
            end,
            (missed,
             {| env := e5;
                log := log w ++ [RedisGet key; PoolConnect;
                                 ClientQuery client _getCustomerDashboardQuery [customerId];
                                 RedisSetex key (redisTTL G) (JSON_stringify G data);
                                 ClientRelease client] |}))).
Proof.
  intros key run missed. subst key run missed. split.
  - intros error e1 Hget. unfold getCustomerDashboard. unfold_M. simpl.
    by rewrite Hget.
  - intros cached e1 client e2 rows e3 outcome e4 e5 Hget Hmiss Hconnect Hquery data
      Hsetex Hrelease.
    subst data. unfold getCustomerDashboard. unfold_M. simpl.
    rewrite Hget, Hmiss. simpl. rewrite Hconnect. simpl. rewrite Hquery. simpl.
    rewrite Hsetex. simpl.
    destruct outcome as [[]|error]; simpl; rewrite Hrelease; simpl;
      by rewrite <- !app_assoc.
Qed.

End CacheAsideProperties.

(** C1, the claim as stated fails: with Redis down the fetch throws the
    cache error and never reads the store; with a Redis that refuses
    writes the store is read and the fetch still throws the error of the
    cache write. *)
Lemma cache_aside_cache_errors_propagate :
  (let run := RedisCacheStrategy.getCustomerDashboard Mock.gateways 7
                (RedisCacheStrategy.new,
                 Mock.world (Mock.mk 0 true false [] [Mock.row1] [])) in
   fst run = Throw (CacheError "connection refused") /\
   store_calls (log (snd (snd run))) = []) /\
  (let run := RedisCacheStrategy.getCustomerDashboard Mock.gateways 7
                (RedisCacheStrategy.new,
                 Mock.world (Mock.mk 0 false true [] [Mock.row1] [])) in
   fst run = Throw (CacheError "read only") /\
   store_calls (log (snd (snd run))) =
     [PoolConnect; ClientQuery 0%nat _getCustomerDashboardQuery [7]; ClientRelease 0%nat]).
Proof. vm_compute. repeat split. Qed.

Example cache_aside_miss_then_hit :
  let calls := run_calls (RedisCacheStrategy.getCustomerDashboard Mock.gateways) [7; 7]
                 (RedisCacheStrategy.new,
                  Mock.world (Mock.mk 0 false false [] [Mock.row1] [])) in
  fst (snd calls) = RedisCacheStrategy.mk 1 1 /\
  length (store_calls (log (snd (snd calls)))) = 3%nat.
Proof. vm_compute. split; reflexivity. Qed.

(** ** The Hybrid strategy *)

Section HybridProperties.
Context {E : Type} (G : Gateways E).
Import HybridStrategy.


(** The direct-store path leaves the fields alone and extends the log by
    store calls only. *)
Lemma _getFromPostgres_effect (customerId : Z) (this : t) (w : World E) :
  exists r e' calls,
    _getFromPostgres G customerId (this, w) =
      (r, (this, {| env := e'; log := log w ++ calls |})) /\
    cache_calls calls = [].
Proof.
  unfold _getFromPostgres. unfold_M. simpl.
  destruct (pgPool_connect G (env w)) as [[client|err] e1]; simpl.
  - destruct (client_query G client _getCustomerDashboardQuery [customerId] e1)
      as [[rows|err] e2]; simpl;
      destruct (client_release G client e2) as [[[]|err'] e3]; simpl;
      rewrite <- !app_assoc; simpl;
      eexists _, _, _; (split; [reflexivity|]); reflexivity.
  - eexists _, _, _. split; [reflexivity|]. reflexivity.
Qed.

(** The cache-aside path leaves the fields alone and begins with
    [redis.get] of the key of the customer. *)
Lemma _getFromRedis_effect (customerId : Z) (this : t) (w : World E) :
  exists r e' rest,
    _getFromRedis G customerId (this, w) =
      (r, (this, {| env := e'; log := log w ++ RedisGet (cacheKey customerId) :: rest |})).
Proof.
  unfold _getFromRedis. unfold_M. simpl.
  destruct (redis_get G (cacheKey customerId) (env w)) as [[cached|err] e1]; simpl.
  - destruct (truthy_string cached).
    + destruct (JSON_parse G (default "" cached)); by eexists _, _, [].
    + destruct (_getFromPostgres_effect customerId this
                  {| env := e1; log := log w ++ [RedisGet (cacheKey customerId)] |})
        as (r & e2 & calls & Hpg & _).
      rewrite Hpg. clear Hpg. simpl.
      destruct r as [data|err]; simpl.
      * destruct (redis_setex G _ _ _ e2) as [[[]|err] e3]; simpl;
          rewrite <- !app_assoc; simpl; by eexists _, _, _.
      * rewrite <- !app_assoc; simpl. by eexists _, _, _.
  - by eexists _, _, [].
Qed.

(** One call: the counter of the customer becomes the previous count plus
    one, whatever path is taken and whatever its outcome. *)
Lemma hybrid_call_counts (customerId : Z) (this : t) (w : World E) :
  fst (snd (getCustomerDashboard G customerId (this, w))) =
  {| hotDataThreshold := hotDataThreshold this;
     accessCount := <[customerId := or_zero (accessCount this !! customerId) + 1]>
                      (accessCount this) |}.
Proof.
  unfold getCustomerDashboard. unfold_M. simpl.
  match goal with |- context [if ?c then _ else _] => destruct c end.
  - match goal with |- context [_getFromRedis G customerId (?t, ?w0)] =>
      destruct (_getFromRedis_effect customerId t w0) as (r & e' & rest & ->) end.
    reflexivity.
  - match goal with |- context [_getFromPostgres G customerId (?t, ?w0)] =>
      destruct (_getFromPostgres_effect customerId t w0) as (r & e' & calls & -> & _) end.
    reflexivity.
Qed.

(** After the calls [ids], the counter of a customer is its previous value
    plus the number of calls made for that customer. *)
Lemma hybrid_counts_calls (ids : list Z) (customerId : Z) (this : t) (w : World E) :
  let this' := fst (snd (run_calls (getCustomerDashboard G) ids (this, w))) in
  hotDataThreshold this' = hotDataThreshold this /\
  or_zero (accessCount this' !! customerId) =
    or_zero (accessCount this !! customerId) + Z.of_nat (count_occ Z.eq_dec ids customerId).
Proof.
  revert this w. induction ids as [|id ids IH]; intros this w; cbn [run_calls].
  - simpl. split; [done | lia].
  - pose proof (hybrid_call_counts id this w) as Hcall.
    destruct (getCustomerDashboard G id (this, w)) as [r [this1 w1]]. simpl in Hcall.
    specialize (IH this1 w1).
    destruct (run_calls (getCustomerDashboard G) ids (this1, w1)) as [rs [this2 w2]].
    cbn [fst snd] in *. destruct IH as [IHt IHc]. rewrite IHt, IHc. subst this1. simpl.
    split; [done|].
    destruct (Z.eq_dec id customerId) as [->|Hne].
    + rewrite lookup_insert_eq, or_zero_Some. lia.
    + rewrite lookup_insert_ne by done. lia.
Qed.


End HybridProperties.


Lemma cache_failure_fails_fetch_witness :
  RedisCacheStrategy.getCustomerDashboard Mock.gateways 7
    (RedisCacheStrategy.new, Mock.world (Mock.mk 0 false true [] [Mock.row1] [])) =
  (Throw (CacheError "read only"),
   (RedisCacheStrategy.mk 0 1,
    {| env := Mock.mk 0 false true [] [Mock.row1] [];
       log := [RedisGet "dashboard:7"; PoolConnect;
               ClientQuery 0%nat _getCustomerDashboardQuery [7];
               RedisSetex "dashboard:7" 3000 "7"; ClientRelease 0%nat] |})).
Proof.
  destruct (cache_failure_fails_fetch Mock.gateways 7 RedisCacheStrategy.new
              (Mock.world (Mock.mk 0 false true [] [Mock.row1] []))) as [_ Hwrite].
  apply (Hwrite None (Mock.mk 0 false true [] [Mock.row1] []) 0%nat
           (Mock.mk 0 false true [] [Mock.row1] []) [Mock.row1]
           (Mock.mk 0 false true [] [Mock.row1] [])
           (Throw (CacheError "read only"))
           (Mock.mk 0 false true [] [Mock.row1] [])
           (Mock.mk 0 false true [] [Mock.row1] [])); reflexivity.
Defined.

(** ** The query builder *)

Section QueryBuilderProperties.
Import QueryBuilder.

(** Binding parameters touches the parameter list and the index only. *)
Lemma _processCondition_effect (params : list Value) :
  forall (condition : string) (this : t),
  snd (_processCondition condition params this) =
  mk (_select this) (_from this) (_joins this) (_where this) (_orderBy this)
     (_limit this) (_offset this) (_params this ++ params)
     (_paramIndex this + Z.of_nat (length params)).
Proof.
  induction params as [|p ps IH]; intros condition this; simpl.
  - destruct this; simpl. by rewrite app_nil_r, Z.add_0_r.
  - rewrite IH. simpl. f_equal; [by rewrite <- app_assoc | lia].
Qed.

Lemma step_index_matches (s : Step) (this : t) :
  index_matches this -> index_matches (step s this).
Proof.
  unfold index_matches. intros Hinv.
  destruct s as [cols | tbl | tbl cnd | tbl cnd | cnd ps | cnd ps | cnd ps
                | col vals | col dir | v | v | ]; simpl; try exact Hinv; try done.
  - unfold where_.
    pose proof (_processCondition_effect ps cnd this) as Heff.
    destruct (_processCondition cnd ps this) as [c this']. simpl in Heff.
    subst this'. simpl. rewrite length_app. lia.
  - unfold andWhere, where_.
    pose proof (_processCondition_effect ps cnd this) as Heff.
    destruct (_processCondition cnd ps this) as [c this']. simpl in Heff.
    subst this'. simpl. rewrite length_app. lia.
  - unfold orWhere. destruct (0 <? length (_where this))%nat.
    + match goal with |- context [_processCondition cnd ps ?b] =>
        pose proof (_processCondition_effect ps cnd b) as Heff;
        destruct (_processCondition cnd ps b) as [c this'] end.
      simpl in Heff. subst this'. simpl. rewrite length_app. lia.
    + pose proof (_processCondition_effect ps cnd this) as Heff.
      destruct (_processCondition cnd ps this) as [c this']. simpl in Heff.
      subst this'. simpl. rewrite length_app. lia.
  - unfold whereIn. destruct (length vals =? 0)%nat; [exact Hinv|].
    simpl. rewrite length_app. lia.
Qed.

Lemma chain_keeps_index_matches (steps : list Step) :
  forall this, index_matches this -> index_matches (chain steps this).
Proof.
  induction steps as [|s steps IH]; intros this Hinv; simpl; [done|].
  apply IH, step_index_matches, Hinv.
Qed.

(** X1.  After any chain of builder calls on a fresh builder, the next
    placeholder number is one more than the number of bound parameters. *)
Theorem chain_index_matches (steps : list Step) :
  _paramIndex (chain steps new) = Z.of_nat (length (_params (chain steps new))) + 1.
Proof.
  change (index_matches (chain steps new)).
  apply chain_keeps_index_matches. reflexivity.
Qed.

(** [getQuery] on a builder without FROM clause throws and leaves the
    builder as it was; with a FROM clause it returns the parameters bound so
    far as [values] and leaves a fresh builder. *)
Lemma getQuery_resets_on_success (this : t) :
  (_from this = "" ->
   getQuery this = (Throw (Error "FROM clause is required"), this)) /\
  (_from this <> "" ->
   exists result,
     getQuery this = (Return result, new) /\ values result = _params this).
Proof.
  unfold getQuery, build. split.
  - intros ->. reflexivity.
  - intros Hfrom. apply String.eqb_neq in Hfrom. rewrite Hfrom.
    eexists. split; reflexivity.
Qed.

Lemma replace_first_split (c : Ascii.ascii) (replacement before after : string) :
  occurrences c before = 0%nat ->
  replace_first c replacement (before +:+ String c after) =
  before +:+ replacement +:+ after.
Proof.
  induction before as [|a before IH]; simpl; intros Hnone.
  - by rewrite Ascii.eqb_refl.
  - destruct (Ascii.eqb a c); [discriminate|]. simpl in Hnone. by rewrite IH.
Qed.

Lemma replace_first_absent (c : Ascii.ascii) (replacement s : string) :
  occurrences c s = 0%nat -> replace_first c replacement s = s.
Proof.
  induction s as [|a s IH]; simpl; intros Hnone; [done|].
  destruct (Ascii.eqb a c); [discriminate|]. simpl in Hnone. by rewrite IH.
Qed.

(** X3.  After any chain of calls, [where(condition, param)] with a
    condition whose first [?] stands between [before] and [after] appends
    the condition with that [?] replaced by [$n] and binds the parameter
    so that it is the [n]-th of the bound parameters. *)
Theorem where_binds_placeholder (steps : list Step) (before after : string) (param : Value) :
  occurrences question_mark before = 0%nat ->
  let this := chain steps new in
  let n := _paramIndex this in
  let this' := where_ (before +:+ String question_mark after) [param] this in
  _where this' = _where this ++ [before +:+ placeholder n +:+ after] /\
  _params this' !! (Z.to_nat n - 1)%nat = Some param /\
  _paramIndex this' = n + 1.
Proof.
  intros Hnone this n this'. subst this' n.
  pose proof (chain_keeps_index_matches steps new eq_refl) as Hidx.
  unfold index_matches in Hidx. fold this in Hidx.
  unfold where_. simpl. rewrite (replace_first_split _ _ _ _ Hnone).
  split; [reflexivity|]. split; [|reflexivity].
  rewrite Hidx. replace (Z.to_nat (Z.of_nat (length (_params this)) + 1) - 1)%nat
    with (length (_params this)) by lia.
  by rewrite lookup_app_r, Nat.sub_diag.
Qed.

(** X4.  A condition without [?] is appended unchanged, yet its
    parameters are bound all the same. *)
Theorem where_without_placeholder (condition : string) (params : list Value) (this : t) :
  occurrences question_mark condition = 0%nat ->
  _where (where_ condition params this) = _where this ++ [condition] /\
  _params (where_ condition params this) = _params this ++ params /\
  _paramIndex (where_ condition params this) = _paramIndex this + Z.of_nat (length params).
Proof.
  intros Hnone. unfold where_.
  pose proof (_processCondition_effect params condition this) as Heff.
  assert (Hfst : forall this0, fst (_processCondition condition params this0) = condition).
  { clear Heff. induction params as [|p ps IH]; intros this0; simpl; [done|].
    rewrite (replace_first_absent _ _ _ Hnone). apply IH. }
  specialize (Hfst this).
  destruct (_processCondition condition params this) as [c this']. simpl in *.
  subst c this'. simpl. done.
Qed.

(** X5.  [whereIn] with no values changes nothing.  With values, after
    any chain of calls, it appends one condition and the values in order,
    and the number in the placeholder of the [j]-th value is the position
    of that value among the bound parameters. *)
Theorem whereIn_binds_values (steps : list Step) (column : string) (values : list Value) :
  let this := chain steps new in
  let this' := whereIn column values this in
  (values = [] -> this' = this) /\
  (values <> [] ->
   _where this' =
     _where this ++ [column +:+ " IN ("
                       +:+ String.concat ", " (placeholders (_paramIndex this) (length values))
                       +:+ ")"] /\
   _params this' = _params this ++ values /\
   forall (j : nat) v, values !! j = Some v ->
     placeholders (_paramIndex this) (length values) !! j
       = Some (placeholder (_paramIndex this + Z.of_nat j)) /\
     _params this' !! (Z.to_nat (_paramIndex this + Z.of_nat j) - 1)%nat = Some v).
Proof.
  intros this this'. subst this'.
  pose proof (chain_keeps_index_matches steps new eq_refl) as Hidx.
  unfold index_matches in Hidx. fold this in Hidx.
  unfold whereIn. split.
  - intros ->. reflexivity.
  - intros Hne. destruct values as [|v0 vs]; [done|].
    cbn [length Nat.eqb]. cbn [_where _params].
    split; [reflexivity|]. split; [reflexivity|].
    intros j v Hj.
    pose proof (lookup_lt_Some _ _ _ Hj) as Hlt. simpl in Hlt. split.
    + unfold placeholders. rewrite list_lookup_fmap.
      rewrite lookup_seqZ_lt by lia. reflexivity.
    + rewrite Hidx.
      replace (Z.to_nat (Z.of_nat (length (_params this)) + 1 + Z.of_nat j) - 1)%nat
        with (length (_params this) + j)%nat by lia.
      by rewrite lookup_app_r, Nat.add_comm, Nat.add_sub by lia.
Qed.

(** X6.  On a fresh builder, [buildForCustomer] returns, for every
    customer, the dashboard query with the customer bound to [$1] and the
    two statuses to [$2] and [$3].  On a builder left in any state by
    earlier calls it still returns a query, whose [values] are the
    parameters bound before followed by the customer and the two statuses.
    In both cases the builder is fresh afterwards. *)
Theorem buildForCustomer_query (steps : list Step) (customerId : Z) :
  buildForCustomer customerId new =
  (Return {| text := String.concat line_feed
                       ["SELECT c.id, c.name, c.email, o.id as order_id, o.total_cents, o.status, o.created_at";
                        "FROM customers c";
                        "LEFT JOIN orders o ON o.customer_id = c.id";
                        "WHERE c.id = $1 AND o.status IN ($2, $3)";
                        "ORDER BY o.created_at DESC";
                        "LIMIT 10"];
             values := [Num customerId; Str "pending"; Str "processing"] |},
   new) /\
  exists result,
    buildForCustomer customerId (chain steps new) = (Return result, new) /\
    values result =
      _params (chain steps new) ++ [Num customerId; Str "pending"; Str "processing"].
Proof.
  split; [reflexivity|].
  generalize (chain steps new). intros this.
  unfold buildForCustomer, getQuery, build.
  cbn [limit orderBy whereIn where_ _processCondition leftJoin push_join from select
       bind_param set_where length Nat.eqb _from _params _select _joins _where _orderBy
       _limit _offset _paramIndex String.eqb Ascii.eqb Bool.eqb].
  eexists. split; [reflexivity|]. cbn [values]. by rewrite <- app_assoc.
Qed.

(** X7.  [buildForStatusReport] does not reset the builder: a second call
    on the same builder returns the statuses of both calls as values, and
    its placeholders continue after those of the first call. *)
Theorem buildForStatusReport_accumulates (first second : list Value) :
  first <> [] -> second <> [] ->
  let after_first := snd (buildForStatusReport (Some first) new) in
  exists result,
    fst (buildForStatusReport (Some second) after_first) = Return result /\
    values result = first ++ second /\
    _paramIndex after_first = Z.of_nat (length first) + 1 /\
    _where (snd (buildForStatusReport (Some second) after_first)) =
      ["status IN (" +:+ String.concat ", " (placeholders 1 (length first)) +:+ ")";
       "status IN (" +:+ String.concat ", "
                           (placeholders (Z.of_nat (length first) + 1) (length second))
                     +:+ ")"] /\
    length (_select (snd (buildForStatusReport (Some second) after_first))) = 8%nat.
Proof.
  intros Hfirst Hsecond after_first. subst after_first.
  destruct first as [|f fs]; [done|]. destruct second as [|s ss]; [done|].
  cbn -[String.concat placeholders Z.of_nat Z.add String.append].
  eexists. split; [reflexivity|].
  cbn -[String.concat placeholders Z.of_nat Z.add String.append].
  split; [reflexivity|]. split; [lia|]. split; [|reflexivity].
  rewrite (Z.add_comm 1). reflexivity.
Qed.

End QueryBuilderProperties.

Lemma where_binds_placeholder_witness :
  QueryBuilder._where
    (QueryBuilder.where_ "status = ?" [QueryBuilder.Str "pending"]
       (QueryBuilder.chain [QueryBuilder.From "orders";
                            QueryBuilder.Where "customer_id = ?" [QueryBuilder.Num 7]]
          QueryBuilder.new))
  = ["customer_id = $1"; "status = $2"].
Proof.
  destruct (where_binds_placeholder
              [QueryBuilder.From "orders";
               QueryBuilder.Where "customer_id = ?" [QueryBuilder.Num 7]]
              "status = " "" (QueryBuilder.Str "pending") eq_refl) as [Hwhere _].
  exact Hwhere.
Defined.

Lemma where_without_placeholder_witness :
  QueryBuilder._params
    (QueryBuilder.where_ "status = 'pending'" [QueryBuilder.Num 1; QueryBuilder.Num 2]
       QueryBuilder.new)
  = [QueryBuilder.Num 1; QueryBuilder.Num 2].
Proof.
  destruct (where_without_placeholder "status = 'pending'"
              [QueryBuilder.Num 1; QueryBuilder.Num 2] QueryBuilder.new eq_refl)
    as (_ & Hparams & _).
  exact Hparams.
Defined.

Lemma buildForStatusReport_accumulates_witness :
  exists result,
    fst (QueryBuilder.buildForStatusReport (Some [QueryBuilder.Str "shipped"])
           (snd (QueryBuilder.buildForStatusReport (Some [QueryBuilder.Str "pending"])
                   QueryBuilder.new))) = Return result /\
    QueryBuilder.values result = [QueryBuilder.Str "pending"; QueryBuilder.Str "shipped"].
Proof.
  destruct (buildForStatusReport_accumulates [QueryBuilder.Str "pending"]
              [QueryBuilder.Str "shipped"]) as (result & Hresult & Hvalues & _);
    [discriminate | discriminate |].
  exists result. split; [exact Hresult | exact Hvalues].
Defined.

(** ** Latency statistics *)

Section StatsProperties.

Lemma floor_times_mono (n : nat) (p q : Z) :
  0 <= p <= q -> (floor_times n p <= floor_times n q)%nat.
Proof.
  intros Hpq. unfold floor_times. apply Z2Nat.inj_le.
  - apply Z.div_pos; nia.
  - apply Z.div_pos; nia.
  - apply Z.div_le_mono; nia.
Qed.

(** In an ascending list, a later element is not smaller. *)
Lemma sorted_lookup_le (l : list Z) :
  Sorted Z.le l ->
  forall (i j : nat) a b, (i <= j)%nat -> l !! i = Some a -> l !! j = Some b -> a <= b.
Proof.
  intros Hsorted. apply Sorted_StronglySorted in Hsorted; [|intros x y z; lia].
  induction Hsorted as [|x l Hl IH Hx]; intros i j a b Hij Ha Hb.
  - by rewrite lookup_nil in Ha.
  - destruct i as [|i], j as [|j]; simpl in Ha, Hb.
    + injection Ha as <-. injection Hb as <-. lia.
    + injection Ha as <-. rewrite Forall_forall in Hx.
      apply Hx. eapply list_elem_of_lookup_2, Hb.
    + lia.
    + eapply IH; [|exact Ha|exact Hb]. lia.
Qed.

(** X8.  [calculateStats] returns [null] exactly for the empty array.
    For a non-empty array every statistic is one of the samples, [count]
    is their number, [min] and [max] bound all samples, and
    min <= p50 <= p75 <= p90 <= p95 <= p99 <= max. *)
Theorem calculateStats_ordered (latencies : list Z) :
  (latencies = [] -> calculateStats latencies = None) /\
  (latencies <> [] ->
   exists stats mn q50 q75 q90 q95 q99 mx,
     calculateStats latencies = Some stats /\
     Stats.count stats = length latencies /\
     Stats.min stats = Some mn /\ Stats.p50 stats = Some q50 /\
     Stats.p75 stats = Some q75 /\ Stats.p90 stats = Some q90 /\
     Stats.p95 stats = Some q95 /\ Stats.p99 stats = Some q99 /\
     Stats.max stats = Some mx /\
     mn <= q50 /\ q50 <= q75 /\ q75 <= q90 /\ q90 <= q95 /\ q95 <= q99 /\ q99 <= mx /\
     Forall (fun x => x ∈ latencies) [mn; q50; q75; q90; q95; q99; mx] /\
     Forall (fun x => mn <= x <= mx) latencies).
Proof.
  split; [intros ->; reflexivity|].
  intros Hne. unfold calculateStats.
  assert (Hlen : (0 < length latencies)%nat) by (destruct latencies; [done | simpl; lia]).
  assert ((length latencies =? 0)%nat = false) as -> by (apply Nat.eqb_neq; lia).
  set (sorted := sort_ascending latencies).
  assert (Hslen : length sorted = length latencies) by apply sort_ascending_length.
  assert (Hsorted : Sorted Z.le sorted) by apply sort_ascending_Sorted.
  assert (Hperm : sorted ≡ₚ latencies) by apply sort_ascending_Permutation.
  assert (Hat : forall i, (i < length sorted)%nat -> exists v, sorted !! i = Some v).
  { intros i Hi. by apply lookup_lt_is_Some_2. }
  assert (Hft : forall p, 0 <= p < 100 -> (floor_times (length sorted) p < length sorted)%nat).
  { intros p Hp. apply floor_times_lt; lia. }
  destruct (Hat 0%nat ltac:(lia)) as [mn Hmn].
  destruct (Hat (length sorted - 1)%nat ltac:(lia)) as [mx Hmx].
  destruct (Hat _ (Hft 50 ltac:(lia))) as [q50 H50].
  destruct (Hat _ (Hft 75 ltac:(lia))) as [q75 H75].
  destruct (Hat _ (Hft 90 ltac:(lia))) as [q90 H90].
  destruct (Hat _ (Hft 95 ltac:(lia))) as [q95 H95].
  destruct (Hat _ (Hft 99 ltac:(lia))) as [q99 H99].
  pose proof (sorted_lookup_le sorted Hsorted) as Hle.
  eexists _, mn, q50, q75, q90, q95, q99, mx.
  split; [reflexivity|]. simpl.
  repeat (split; [first [done | lia | eassumption]|]).
  assert (Hin : forall i v, sorted !! i = Some v -> v ∈ latencies).
  { intros i v Hv. rewrite <- Hperm. eapply list_elem_of_lookup_2, Hv. }
  split; [eapply Hle; [|exact Hmn|exact H50]; lia|].
  split; [eapply Hle; [|exact H50|exact H75]; apply floor_times_mono; lia|].
  split; [eapply Hle; [|exact H75|exact H90]; apply floor_times_mono; lia|].
  split; [eapply Hle; [|exact H90|exact H95]; apply floor_times_mono; lia|].
  split; [eapply Hle; [|exact H95|exact H99]; apply floor_times_mono; lia|].
  split; [eapply Hle; [|exact H99|exact Hmx]; specialize (Hft 99 ltac:(lia)); lia|].
  split.
  - repeat (apply Forall_cons; split; [eapply Hin; eassumption|]). apply Forall_nil. done.
  - apply Forall_forall. intros x Hx. rewrite <- Hperm in Hx.
    apply list_elem_of_lookup_1 in Hx as [i Hi].
    pose proof (lookup_lt_Some _ _ _ Hi) as Hilt. split.
    + eapply Hle; [|exact Hmn|exact Hi]. lia.
    + eapply Hle; [|exact Hi|exact Hmx]. lia.
Qed.

End StatsProperties.

Example calculateStats_sample :
  calculateStats [40; 10; 30; 20] =
  Some (Stats.mk 4 {| numerator := 100; denominator := 4 |}
          (Some 30) (Some 40) (Some 40) (Some 40) (Some 40) (Some 10) (Some 40)).
Proof. reflexivity. Qed.

(** ** The aggregating observer *)

Section AggregatorProperties.
Import MetricsAggregatorObserver.

Lemma tally_snoc (qs : list QueryInfo.t) (data : QueryInfo.t) :
  tally (qs ++ [data]) =
  mkEntry (count (tally qs) + 1)
          (totalDuration (tally qs) + QueryInfo.duration data)
          (if QueryInfo.success data then successes (tally qs) + 1 else successes (tally qs))
          (if QueryInfo.success data then failures (tally qs) else failures (tally qs) + 1).
Proof.
  unfold tally. simpl.
  rewrite !List.filter_app, !length_app, map_app, foldr_app. simpl.
  assert (Hsum : forall (xs : list Z) d, foldr Z.add (d + 0) xs = foldr Z.add 0 xs + d).
  { induction xs as [|x xs IH]; intros d; simpl; [lia | rewrite IH; lia]. }
  rewrite Hsum. destruct (QueryInfo.success data); simpl; f_equal; lia.
Qed.

(** One [update]: only the entry of the strategy of a [QUERY_EXECUTED]
    event changes. *)
Lemma update_lookup (event : MonitorEvent) (this : t) (strategy : string) :
  byStrategy (update event this) !! strategy =
  match event with
  | ALERT _ => byStrategy this !! strategy
  | QUERY_EXECUTED data =>
      if String.eqb (QueryInfo.strategy data) strategy then
        let metrics := default (mkEntry 0 0 0 0) (byStrategy this !! strategy) in
        Some (mkEntry (count metrics + 1)
                (totalDuration metrics + QueryInfo.duration data)
                (if QueryInfo.success data then successes metrics + 1 else successes metrics)
                (if QueryInfo.success data then failures metrics else failures metrics + 1))
      else byStrategy this !! strategy
  end.
Proof.
  destruct event as [data|alert]; [|reflexivity].
  unfold update.
  destruct (String.eqb_spec (QueryInfo.strategy data) strategy) as [<-|Hne].
  - destruct (byStrategy this !! QueryInfo.strategy data) as [metrics|] eqn:Hlookup.
    + rewrite Hlookup. simpl. by rewrite lookup_insert_eq.
    + rewrite lookup_insert_eq. simpl. by rewrite lookup_insert_eq.
  - destruct (byStrategy this !! QueryInfo.strategy data) as [metrics|] eqn:Hlookup.
    + rewrite Hlookup. simpl. by rewrite lookup_insert_ne.
    + rewrite lookup_insert_eq. simpl. by rewrite !lookup_insert_ne.
Qed.

(** X9.  After any events delivered to a fresh aggregator, a strategy has
    an entry exactly when a [QUERY_EXECUTED] event named it, and the entry
    holds the number of those events, their summed duration and the numbers
    of successes and failures, so that [count = successes + failures];
    [ALERT] events change nothing. *)
Theorem aggregator_tallies (events : list MonitorEvent) (strategy : string) :
  let qs := executed_by strategy events in
  (qs = [] -> byStrategy (update_all events new) !! strategy = None) /\
  (qs <> [] ->
   byStrategy (update_all events new) !! strategy = Some (tally qs) /\
   count (tally qs) = successes (tally qs) + failures (tally qs) /\
   0 < count (tally qs)).
Proof.
  intros qs. subst qs.
  assert (Hlookup :
    byStrategy (update_all events new) !! strategy =
    match executed_by strategy events with [] => None | qs => Some (tally qs) end).
  { induction events as [|ev events IH] using rev_ind; [reflexivity|].
    unfold update_all in *. rewrite foldl_app. simpl.
    rewrite update_lookup, IH. unfold executed_by. rewrite flat_map_app. simpl.
    fold (executed_by strategy events).
    destruct ev as [data|alert]; simpl.
    - destruct (String.eqb (QueryInfo.strategy data) strategy); simpl.
      + assert (Hdefault :
          default (mkEntry 0 0 0 0)
            match executed_by strategy events with [] => None | qs => Some (tally qs) end
          = tally (executed_by strategy events)).
        { by destruct (executed_by strategy events). }
        rewrite Hdefault, <- tally_snoc.
        by destruct (executed_by strategy events).
      + by rewrite app_nil_r.
    - by rewrite app_nil_r. }
  split.
  - intros Hnil. by rewrite Hlookup, Hnil.
  - intros Hne. rewrite Hlookup.
    destruct (executed_by strategy events) as [|q qs] eqn:Hqs; [done|].
    split; [reflexivity|]. split; [|simpl; lia].
    generalize (q :: qs). intros l. unfold tally. simpl.
    induction l as [|x l IHl]; simpl; [lia|].
    destruct (QueryInfo.success x); simpl; lia.
Qed.

End AggregatorProperties.

Example aggregator_sample :
  MetricsAggregatorObserver.byStrategy
    (update_all [QUERY_EXECUTED Mock.fast_query; QUERY_EXECUTED Mock.slow_failed_query]
       MetricsAggregatorObserver.new) !! "Hybrid Strategy"
  = Some (MetricsAggregatorObserver.mkEntry 2 1512 1 1).
Proof. vm_compute. reflexivity. Qed.

(** ** The factory and the connection manager *)

Section FactoryProperties.
Import QueryExecutorFactory.

(** X10.  [create] throws the unknown-type error for every type that
    [getAvailableStrategies] does not list, whatever the state of the
    connection manager.  For a listed type it throws the manager's
    not-initialized error while the manager is not initialized and returns
    a strategy once it is; the Hybrid strategy gets the given threshold, or
    100 when none is given. *)
Theorem create_known_types (dbManager : DatabaseConnectionManager.t) (strategyType : string)
    (hotDataThreshold : option Z) :
  (strategyType ∉ getAvailableStrategies ->
   create dbManager strategyType hotDataThreshold =
     Throw (Error ("Unknown strategy type: " +:+ strategyType))) /\
  (strategyType ∈ getAvailableStrategies ->
   DatabaseConnectionManager._isInitialized dbManager = false ->
   create dbManager strategyType hotDataThreshold =
     Throw DatabaseConnectionManager.not_initialized) /\
  (strategyType ∈ getAvailableStrategies ->
   DatabaseConnectionManager._isInitialized dbManager = true ->
   exists strategy,
     create dbManager strategyType hotDataThreshold = Return strategy /\
     (strategyType = "hybrid" ->
      strategy = Hybrid (HybridStrategy.mk (default 100 hotDataThreshold) ∅))).
Proof.
  unfold create, new_RedisCacheStrategy, new_DirectPostgreSQLStrategy, new_HybridStrategy,
    DatabaseConnectionManager.getRedisClient, DatabaseConnectionManager.getPgPool,
    getAvailableStrategies.
  split; [|split].
  - intros Hnot.
    destruct (String.eqb_spec strategyType "redis") as [->|_];
      [exfalso; apply Hnot; repeat constructor|].
    destruct (String.eqb_spec strategyType "postgres") as [->|_];
      [exfalso; apply Hnot; repeat constructor|].
    destruct (String.eqb_spec strategyType "hybrid") as [->|_];
      [exfalso; apply Hnot; repeat constructor|].
    reflexivity.
  - intros Hin ->. simpl.
    destruct (String.eqb_spec strategyType "redis"); [done|].
    destruct (String.eqb_spec strategyType "postgres"); [done|].
    destruct (String.eqb_spec strategyType "hybrid"); [done|].
    apply list_elem_of_In in Hin. simpl in Hin. exfalso. intuition congruence.
  - intros Hin ->. simpl.
    destruct (String.eqb_spec strategyType "redis") as [->|?];
      [eexists; split; [reflexivity | discriminate]|].
    destruct (String.eqb_spec strategyType "postgres") as [->|?];
      [eexists; split; [reflexivity | discriminate]|].
    destruct (String.eqb_spec strategyType "hybrid") as [->|?];
      [eexists; split; [reflexivity | reflexivity]|].
    apply list_elem_of_In in Hin. simpl in Hin. exfalso. intuition congruence.
Qed.

Lemma manager_call_keeps_clients (c : ManagerCall) (this : DatabaseConnectionManager.t) :
  (DatabaseConnectionManager._isInitialized this = true ->
   is_Some (DatabaseConnectionManager._pgPool this) /\
   is_Some (DatabaseConnectionManager._redisClient this)) ->
  (DatabaseConnectionManager._isInitialized (manager_call c this) = true ->
   is_Some (DatabaseConnectionManager._pgPool (manager_call c this)) /\
   is_Some (DatabaseConnectionManager._redisClient (manager_call c this))).
Proof.
  intros Hinv. destruct c as [[pool|e1] [client|e2]|]; simpl;
    unfold DatabaseConnectionManager.initialize;
    destruct (DatabaseConnectionManager._isInitialized this) eqn:Hinit; simpl;
    intros Htrue; try discriminate Htrue; try (by apply Hinv).
  all: first [congruence | by apply Hinv | split; by eexists].
Qed.

(** X11.  After any sequence of [initialize] and [closeAll] calls on the
    connection manager, [getPgPool] and [getRedisClient] either throw the
    not-initialized error or return a client object, never [null]; and
    [initialize] on an initialized manager changes nothing. *)
Theorem manager_clients_never_null (calls : list ManagerCall) :
  let dbManager := manager_after calls in
  (DatabaseConnectionManager.getPgPool dbManager =
     Throw DatabaseConnectionManager.not_initialized \/
   exists pool, DatabaseConnectionManager.getPgPool dbManager = Return (Some pool)) /\
  (DatabaseConnectionManager.getRedisClient dbManager =
     Throw DatabaseConnectionManager.not_initialized \/
   exists client, DatabaseConnectionManager.getRedisClient dbManager = Return (Some client)) /\
  (forall newPool newRedis,
     DatabaseConnectionManager._isInitialized dbManager = true ->
     DatabaseConnectionManager.initialize newPool newRedis dbManager = (Return tt, dbManager)).
Proof.
  intros dbManager.
  assert (Hinv : DatabaseConnectionManager._isInitialized dbManager = true ->
                 is_Some (DatabaseConnectionManager._pgPool dbManager) /\
                 is_Some (DatabaseConnectionManager._redisClient dbManager)).
  { subst dbManager. unfold manager_after.
    induction calls as [|c calls IH] using rev_ind; [discriminate|].
    rewrite foldl_app. simpl. by apply manager_call_keeps_clients. }
  unfold DatabaseConnectionManager.getPgPool, DatabaseConnectionManager.getRedisClient,
    DatabaseConnectionManager.initialize.
  destruct (DatabaseConnectionManager._isInitialized dbManager) eqn:Hinit; simpl.
  - destruct (Hinv eq_refl) as [[pool Hpool] [client Hclient]].
    rewrite Hpool, Hclient. repeat split; eauto.
  - repeat split; eauto. discriminate.
Qed.

End FactoryProperties.

(** ** Clients, cache and counters of the strategies *)

Section StrategyResources.
Context {E : Type} (G : Gateways E).

Lemma releases_app (l1 l2 : list Call) : releases (l1 ++ l2) = releases l1 ++ releases l2.
Proof. apply flat_map_app. Qed.

Lemma queries_sent_app (l1 l2 : list Call) :
  queries_sent (l1 ++ l2) = queries_sent l1 ++ queries_sent l2.
Proof. apply flat_map_app. Qed.

Lemma connects_app (l1 l2 : list Call) : connects (l1 ++ l2) = (connects l1 + connects l2)%nat.
Proof. unfold connects. by rewrite List.filter_app, length_app. Qed.

(** X12.  In [RedisCacheStrategy.getCustomerDashboard], once
    [pgPool.connect] has returned a client, that client is released exactly
    once and as the last call of the fetch, whatever the query and the cache
    write do (return or throw), and every query is sent on that client.
    Without a client (cache error, cache hit, or a failed connect) nothing
    is released and no query is sent. *)
Theorem cache_aside_releases_client (customerId : Z) (this : RedisCacheStrategy.t)
    (w : World E) :
  let key := cacheKey customerId in
  let after := snd (snd (RedisCacheStrategy.getCustomerDashboard G customerId (this, w))) in
  exists calls,
    log after = log w ++ calls /\
    (connects calls <= 1)%nat /\
    match redis_get G key (env w) with
    | (Return cached, e1) =>
        if truthy_string cached then releases calls = [] /\ queries_sent calls = []
        else
          match pgPool_connect G e1 with
          | (Return client, _) =>
              releases calls = [client] /\ queries_sent calls = [client] /\
              last calls = Some (ClientRelease client)
          | (Throw _, _) => releases calls = [] /\ queries_sent calls = []
          end
    | (Throw _, _) => releases calls = [] /\ queries_sent calls = []
    end.
Proof.
  intros key after. subst key after.
  unfold RedisCacheStrategy.getCustomerDashboard. unfold_M. simpl.
  destruct (redis_get G (cacheKey customerId) (env w)) as [[cached|err] e1]; simpl.
  - destruct (truthy_string cached); simpl.
    + destruct (JSON_parse G (default "" cached)); simpl;
        eexists; (split; [reflexivity|]); simpl; auto.
    + destruct (pgPool_connect G e1) as [[client|err] e2]; simpl.
      * destruct (client_query G client _getCustomerDashboardQuery [customerId] e2)
          as [[rows|err] e3]; simpl.
        -- destruct (redis_setex G _ _ _ e3) as [[[]|err] e4]; simpl;
             destruct (client_release G client e4) as [[[]|err'] e5]; simpl;
             rewrite <- !app_assoc; simpl;
             eexists; (split; [reflexivity|]); simpl; auto.
        -- destruct (client_release G client e3) as [[[]|err'] e5]; simpl;
             rewrite <- !app_assoc; simpl;
             eexists; (split; [reflexivity|]); simpl; auto.
      * rewrite <- !app_assoc; simpl. eexists; (split; [reflexivity|]); simpl; auto.
  - eexists; (split; [reflexivity|]); simpl; auto.
Qed.

(** X13.  [DirectPostgreSQLStrategy.getCustomerDashboard] never calls the
    cache.  It returns the formatted rows exactly when connect, query and
    release all return; once connect has returned a client, that client is
    released as the last call even when the query throws. *)
Theorem direct_store_only (customerId : Z) (w : World E) :
  let run := DirectPostgreSQLStrategy.getCustomerDashboard G customerId w in
  exists calls,
    log (snd run) = log w ++ calls /\
    cache_calls calls = [] /\
    match pgPool_connect G (env w) with
    | (Return client, e1) =>
        last calls = Some (ClientRelease client) /\ releases calls = [client] /\
        match client_query G client _getCustomerDashboardQuery [customerId] e1 with
        | (Return rows, e2) =>
            match client_release G client e2 with
            | (Return _, _) => fst run = Return (_formatCustomerDashboard rows)
            | (Throw error, _) => fst run = Throw error
            end
        | (Throw error, e2) =>
            match client_release G client e2 with
            | (Return _, _) => fst run = Throw error
            | (Throw error', _) => fst run = Throw error'
            end
        end
    | (Throw error, _) => fst run = Throw error /\ releases calls = []
    end.
Proof.
  intros run. subst run.
  unfold DirectPostgreSQLStrategy.getCustomerDashboard. unfold_M. simpl.
  destruct (pgPool_connect G (env w)) as [[client|err] e1]; simpl.
  - destruct (client_query G client _getCustomerDashboardQuery [customerId] e1)
      as [[rows|err] e2]; simpl;
      destruct (client_release G client e2) as [[[]|err'] e3]; simpl;
      rewrite <- !app_assoc; simpl;
      eexists; (split; [reflexivity|]); simpl; auto.
  - eexists; (split; [reflexivity|]); simpl; auto.
Qed.

(** The effect of one cache-aside fetch on the counters and on the number
    of connects. *)
Lemma cache_aside_call_counts (customerId : Z) (this : RedisCacheStrategy.t) (w : World E) :
  let run := RedisCacheStrategy.getCustomerDashboard G customerId (this, w) in
  let this' := fst (snd run) in
  exists hit miss : bool,
    (hit && miss = false) /\
    RedisCacheStrategy.cacheHits this' =
      RedisCacheStrategy.cacheHits this + (if hit then 1 else 0) /\
    RedisCacheStrategy.cacheMisses this' =
      RedisCacheStrategy.cacheMisses this + (if miss then 1 else 0) /\
    connects (log (snd (snd run))) = (connects (log w) + if miss then 1 else 0)%nat /\
    (hit = true -> store_calls (log (snd (snd run))) = store_calls (log w)).
Proof.
  intros run this'. subst this' run.
  unfold RedisCacheStrategy.getCustomerDashboard. unfold_M. simpl.
  destruct (redis_get G (cacheKey customerId) (env w)) as [[cached|err] e1]; simpl.
  - destruct (truthy_string cached); simpl.
    + exists true, false.
      destruct (JSON_parse G (default "" cached)); simpl;
        rewrite connects_app; unfold store_calls; rewrite List.filter_app; simpl;
        rewrite app_nil_r; repeat split; lia.
    + exists false, true.
      destruct (pgPool_connect G e1) as [[client|err] e2]; simpl.
      * destruct (client_query G client _getCustomerDashboardQuery [customerId] e2)
          as [[rows|err] e3]; simpl.
        -- destruct (redis_setex G _ _ _ e3) as [[[]|err] e4]; simpl;
             destruct (client_release G client e4) as [[[]|err'] e5]; simpl;
             rewrite !connects_app; unfold connects; simpl; repeat split; first [lia | discriminate].
        -- destruct (client_release G client e3) as [[[]|err'] e5]; simpl;
             rewrite !connects_app; unfold connects; simpl; repeat split; first [lia | discriminate].
      * rewrite !connects_app; unfold connects; simpl; repeat split; first [lia | discriminate].
  - exists false, false. rewrite connects_app. unfold store_calls.
    rewrite List.filter_app. simpl. rewrite app_nil_r. repeat split; lia.
Qed.

(** X14.  After any fetches through a fresh Cache-Aside strategy, with
    gateways behaving in any way: the hit and miss counters are
    non-negative, together they count at most the fetches made, and the
    pool was asked for a client exactly once per counted miss, so that a
    hit never reaches the store. *)
Theorem cache_aside_counters (ids : list Z) (w : World E) :
  let result := run_calls (RedisCacheStrategy.getCustomerDashboard G) ids
                  (RedisCacheStrategy.new, w) in
  let this := fst (snd result) in
  0 <= RedisCacheStrategy.cacheHits this /\
  0 <= RedisCacheStrategy.cacheMisses this /\
  RedisCacheStrategy.cacheHits this + RedisCacheStrategy.cacheMisses this
    <= Z.of_nat (length ids) /\
  Z.of_nat (connects (log (snd (snd result)))) =
    Z.of_nat (connects (log w)) + RedisCacheStrategy.cacheMisses this.
Proof.
  assert (Hgen : forall (this0 : RedisCacheStrategy.t) (w0 : World E),
    let result := run_calls (RedisCacheStrategy.getCustomerDashboard G) ids (this0, w0) in
    let this := fst (snd result) in
    RedisCacheStrategy.cacheHits this0 <= RedisCacheStrategy.cacheHits this /\
    RedisCacheStrategy.cacheMisses this0 <= RedisCacheStrategy.cacheMisses this /\
    RedisCacheStrategy.cacheHits this + RedisCacheStrategy.cacheMisses this
      <= RedisCacheStrategy.cacheHits this0 + RedisCacheStrategy.cacheMisses this0
         + Z.of_nat (length ids) /\
    Z.of_nat (connects (log (snd (snd result)))) =
      Z.of_nat (connects (log w0)) + RedisCacheStrategy.cacheMisses this
      - RedisCacheStrategy.cacheMisses this0).
  { induction ids as [|id ids IH]; intros this0 w0; cbn [run_calls].
    - simpl. lia.
    - destruct (cache_aside_call_counts id this0 w0)
        as (hit & miss & Hexcl & Hhits & Hmisses & Hconn & _).
      destruct (RedisCacheStrategy.getCustomerDashboard G id (this0, w0))
        as [r [this1 w1]]. cbn [fst snd] in *.
      specialize (IH this1 w1).
      destruct (run_calls (RedisCacheStrategy.getCustomerDashboard G) ids (this1, w1))
        as [rs [this2 w2]]. cbn [fst snd length] in *.
      destruct hit, miss; try discriminate; lia. }
  intros result this. subst this result.
  specialize (Hgen RedisCacheStrategy.new w). cbv zeta in Hgen. simpl in Hgen. lia.
Qed.

End StrategyResources.

Section HybridCounter.
Context {E : Type} (G : Gateways E).
Import HybridStrategy.

(** X15.  The access counter of the Hybrid strategy holds, for every
    customer, exactly the number of fetches made for that customer since
    construction, whether they returned or threw, and has no entry for a
    customer never fetched; hence it never decreases, and a customer that
    has reached the hot threshold takes the cache-aside path on every later
    fetch. *)
Theorem hybrid_counter_exact (threshold : option Z) (ids more : list Z) (customerId : Z)
    (w : World E) :
  let after (calls : list Z) :=
    fst (snd (run_calls (getCustomerDashboard G) calls (new threshold, w))) in
  let n (calls : list Z) := Z.of_nat (count_occ Z.eq_dec calls customerId) in
  (accessCount (after ids) !! customerId = if n ids =? 0 then None else Some (n ids)) /\
  n ids <= n (ids ++ more) /\
  (default 100 threshold <= n ids + 1 ->
   getCustomerDashboard G customerId (snd (run_calls (getCustomerDashboard G) (ids ++ more)
                                             (new threshold, w))) =
   _getFromRedis G customerId
     ({| hotDataThreshold := default 100 threshold;
         accessCount := <[customerId := n (ids ++ more) + 1]>
                          (accessCount (after (ids ++ more))) |},
      snd (snd (run_calls (getCustomerDashboard G) (ids ++ more) (new threshold, w))))).
Proof.
  intros after n.
  assert (Hexact : forall calls (this0 : t) (w0 : World E),
    accessCount (fst (snd (run_calls (getCustomerDashboard G) calls (this0, w0)))) !! customerId
    = if Z.of_nat (count_occ Z.eq_dec calls customerId) =? 0
      then accessCount this0 !! customerId
      else Some (or_zero (accessCount this0 !! customerId)
                 + Z.of_nat (count_occ Z.eq_dec calls customerId))).
  { induction calls as [|id calls IH]; intros this0 w0; cbn [run_calls]; [reflexivity|].
    pose proof (hybrid_call_counts G id this0 w0) as Hcall.
    destruct (getCustomerDashboard G id (this0, w0)) as [r [this1 w1]]. simpl in Hcall.
    specialize (IH this1 w1).
    destruct (run_calls (getCustomerDashboard G) calls (this1, w1)) as [rs [this2 w2]].
    cbn [fst snd] in *. rewrite IH. subst this1. cbn [accessCount].
    destruct (Z.eq_dec id customerId) as [->|Hne].
    - rewrite (count_occ_cons_eq Z.eq_dec calls eq_refl).
      rewrite lookup_insert_eq, or_zero_Some.
      repeat match goal with
        | |- context [?a =? 0] => destruct (Z.eqb_spec a 0)
        end; try lia; f_equal; lia.
    - rewrite (count_occ_cons_neq Z.eq_dec calls Hne).
      by rewrite lookup_insert_ne. }
  split; [|split].
  - subst after n. cbv beta. rewrite Hexact. simpl.
    rewrite lookup_empty. simpl.
    destruct (Z.of_nat (count_occ Z.eq_dec ids customerId) =? 0); [done|].
    f_equal.
  - subst n. cbv beta. rewrite count_occ_app. lia.
  - intros Hhot.
    assert (Hmore : default 100 threshold <= n (ids ++ more) + 1).
    { subst n. cbv beta in *. rewrite count_occ_app. lia. }
    destruct (hybrid_counts_calls G (ids ++ more) customerId (new threshold) w)
      as [Hthr Hcount].
    subst after n. cbv beta in *. simpl in Hthr, Hcount.
    rewrite lookup_empty in Hcount. simpl in Hcount. rewrite Z.add_0_l in Hcount.
    destruct (run_calls (getCustomerDashboard G) (ids ++ more) (new threshold, w))
      as [rs [this0 w0]]. cbn [fst snd] in *.
    unfold getCustomerDashboard. unfold_M. simpl. rewrite Hthr, Hcount.
    rewrite Z.geb_leb.
    destruct (Z.leb_spec (default 100 threshold)
                (Z.of_nat (count_occ Z.eq_dec (ids ++ more) customerId) + 1)); [done|lia].
Qed.

End HybridCounter.

(** ** More on the Retry decorator *)

Section RetrySchedule.
Context {E : Type} (I : Inner E).
Import RetryDecorator.

Ltac retry_step lemma :=
  match goal with
  | |- context [loop I ?c (?a :: ?r) ?le (?t, {| env := ?e0; log := ?l0 |})] =>
      erewrite (lemma E I c a r le t e0 l0)
  end.

(** After [k] retryable failures the loop stands at iteration
    [attempt + k], having made the calls and sleeps of [retry_backoff]. *)
Lemma loop_advances (customerId : Z) (this : t) (k : nat) :
  forall (attempt : Z) (e : E) (lg : list Call) lastError,
  attempt + Z.of_nat k <= maxRetries this ->
  (forall i, (i < k)%nat -> retryable (outcome_of_call I customerId this attempt e i)) ->
  exists lastError',
    loop I customerId (seqZ attempt (maxRetries this + 1 - attempt)) lastError
      (this, {| env := e; log := lg |}) =
    loop I customerId
      (seqZ (attempt + Z.of_nat k) (maxRetries this + 1 - (attempt + Z.of_nat k)))
      lastError'
      (this, {| env := env_before_call I this customerId attempt k e;
                log := lg ++ retry_backoff customerId (initialDelay this) attempt k |}).
Proof.
  induction k as [|k IH]; intros attempt e lg lastError Hle Hfail.
  - exists lastError. simpl. rewrite app_nil_r. do 2 f_equal; lia.
  - destruct (Hfail 0%nat ltac:(lia)) as (error & Hthrow & Hname).
    unfold outcome_of_call in Hthrow. simpl in Hthrow.
    destruct (executor_getCustomerDashboard I customerId e) as [r e'] eqn:Hex.
    simpl in Hthrow. subst r.
    rewrite seqZ_attempts by lia.
    retry_step @loop_retries; [| exact Hex | exact Hname | lia].
    edestruct (IH (attempt + 1)) as (lastError' & Hloop); cycle 2.
    + exists lastError'. rewrite Hloop. simpl. rewrite Hex. simpl.
      rewrite <- !app_assoc. simpl.
      replace (attempt + 1 + Z.of_nat k) with (attempt + Z.of_nat (S k)) by lia.
      reflexivity.
    + lia.
    + intros i Hi. specialize (Hfail (S i) ltac:(lia)).
      unfold outcome_of_call in *. simpl in Hfail. rewrite Hex in Hfail. exact Hfail.
Qed.

(** Whatever the inner calls do, the loop makes at most one call per
    remaining iteration. *)
Lemma loop_calls_bounded (customerId : Z) (attempts : list Z) :
  forall lastError (this : t) (w : World E),
  (inner_calls (log (snd (snd (loop I customerId attempts lastError (this, w)))))
   <= inner_calls (log w) + length attempts)%nat.
Proof.
  induction attempts as [|attempt rest IH]; intros lastError this w.
  - simpl. unfold after_loop. unfold_M. simpl. lia.
  - simpl. unfold after_loop, _sleep. unfold_M. simpl.
    destruct (executor_getCustomerDashboard I customerId (env w)) as [[r|error] e']; simpl.
    + rewrite inner_calls_executor. lia.
    + destruct (String.eqb (error_name error) "ValidationError"); simpl.
      * rewrite inner_calls_executor. lia.
      * destruct (attempt =? maxRetries this); simpl.
        -- rewrite inner_calls_executor. lia.
        -- match goal with |- context [loop I customerId rest ?le (?t, ?w0)] =>
             specialize (IH le t w0) end.
           simpl in IH. rewrite inner_calls_sleep, inner_calls_executor in IH. lia.
Qed.

(** X16.  One [getCustomerDashboard] of the Retry decorator makes at most
    [maxRetries + 1] inner calls, whatever those calls do.  With a negative
    [maxRetries] it makes none: it throws a [QueryError] without an
    [originalError] and leaves the world untouched. *)
Theorem retry_calls_bounded (customerId : Z) (this : t) (w : World E) :
  let run := getCustomerDashboard I customerId (this, w) in
  (inner_calls (log (snd (snd run)))
   <= inner_calls (log w) + Z.to_nat (maxRetries this + 1))%nat /\
  (maxRetries this < 0 ->
   run = (Throw (QueryError (failed_after this) None), (this, w))).
Proof.
  intros run. subst run. unfold getCustomerDashboard. unfold_M. simpl. split.
  - pose proof (loop_calls_bounded customerId (seqZ 0 (maxRetries this + 1)) None this w)
      as Hbound.
    by rewrite length_seqZ in Hbound.
  - intros Hneg. rewrite seqZ_nil by lia. simpl. unfold after_loop. unfold_M. simpl.
    destruct w. reflexivity.
Qed.

(** X17.  A [ValidationError] thrown by any inner call, the first or one
    made after [k] retryable failures, is rethrown as it is, not wrapped in
    a [QueryError], and ends the retrying: exactly [k + 1] inner calls and
    [k] sleeps are made. *)
Theorem retry_rethrows_validation (customerId : Z) (this : t) (w : World E) (k : nat)
    (error : JsError) :
  Z.of_nat k <= maxRetries this ->
  (forall i, (i < k)%nat ->
     retryable (outcome_of_call I customerId this 0 (env w) i)) ->
  outcome_of_call I customerId this 0 (env w) k = Throw error ->
  error_name error = "ValidationError" ->
  let run := getCustomerDashboard I customerId (this, w) in
  fst run = Throw error /\
  log (snd (snd run)) =
    log w ++ retry_backoff customerId (initialDelay this) 0 k ++ [ExecutorCall customerId].
Proof.
  intros Hk Hfail Hthrow Hname run. subst run.
  unfold getCustomerDashboard. unfold_M. simpl. destruct w as [e lg]. simpl in *.
  replace (seqZ 0 (maxRetries this + 1)) with (seqZ 0 (maxRetries this + 1 - 0))
    by (f_equal; lia).
  destruct (loop_advances customerId this k 0 e lg None ltac:(lia) Hfail)
    as (lastError' & ->).
  rewrite seqZ_attempts by lia.
  unfold outcome_of_call in Hthrow.
  destruct (executor_getCustomerDashboard I customerId
              (env_before_call I this customerId 0 k e)) as [r e'] eqn:Hex.
  simpl in Hthrow. subst r.
  retry_step @loop_rethrows_validation; [| exact Hex | exact Hname].
  simpl. by rewrite <- app_assoc.
Qed.

Lemma sleeps_app (l1 l2 : list Call) : sleeps (l1 ++ l2) = sleeps l1 ++ sleeps l2.
Proof. apply flat_map_app. Qed.

Lemma sleeps_retry_backoff (customerId initialDelay : Z) (k : nat) :
  forall attempt,
  sleeps (retry_backoff customerId initialDelay attempt k) =
  map (fun i => initialDelay * 2 ^ i) (seqZ attempt (Z.of_nat k)).
Proof.
  induction k as [|k IH]; intros attempt; [reflexivity|].
  cbn [retry_backoff]. rewrite seqZ_cons by lia. cbn [sleeps flat_map map app].
  fold (sleeps (retry_backoff customerId initialDelay (attempt + 1) k)).
  rewrite IH. do 2 f_equal. f_equal; lia.
Qed.

(** The delays [d, 2d, 4d, ...] of [k] sleeps add up to [d (2^k - 1)]. *)
Lemma backoff_total (initialDelay : Z) (k : nat) :
  foldr Z.add 0 (map (fun i => initialDelay * 2 ^ i) (seqZ 0 (Z.of_nat k)))
  = initialDelay * (2 ^ Z.of_nat k - 1).
Proof.
  induction k as [|k IH]; [simpl; lia|].
  rewrite seqZ_S, map_app, foldr_app. simpl.
  assert (Hsum : forall (xs : list Z) d, foldr Z.add (d + 0) xs = foldr Z.add 0 xs + d).
  { induction xs as [|x xs IHxs]; intros d; simpl; [lia | rewrite IHxs; lia]. }
  rewrite Hsum, IH. rewrite Nat2Z.inj_succ, Z.pow_succ_r, Z.add_0_l by lia. lia.
Qed.

(** X18.  When the first [k] inner calls fail with retryable errors and
    call [k] returns ([k <= maxRetries]), the decorator has made the calls
    call, sleep, ..., call with the sleeps [initialDelay * 2^i] for
    [i = 0 .. k-1], in this order, which add up to
    [initialDelay * (2^k - 1)]; no sleep follows the last call. *)
Theorem retry_backoff_schedule (customerId : Z) (this : t) (w : World E) (k : nat)
    (result : Dashboard) :
  Z.of_nat k <= maxRetries this ->
  (forall i, (i < k)%nat ->
     retryable (outcome_of_call I customerId this 0 (env w) i)) ->
  outcome_of_call I customerId this 0 (env w) k = Return result ->
  let run := getCustomerDashboard I customerId (this, w) in
  fst run = Return result /\
  log (snd (snd run)) =
    log w ++ retry_backoff customerId (initialDelay this) 0 k ++ [ExecutorCall customerId] /\
  sleeps (log (snd (snd run))) =
    sleeps (log w) ++ map (fun i => initialDelay this * 2 ^ i) (seqZ 0 (Z.of_nat k)) /\
  foldr Z.add 0 (map (fun i => initialDelay this * 2 ^ i) (seqZ 0 (Z.of_nat k)))
    = initialDelay this * (2 ^ Z.of_nat k - 1).
Proof.
  intros Hk Hfail Hok run. subst run.
  unfold getCustomerDashboard. unfold_M. simpl. destruct w as [e lg]. simpl in *.
  replace (seqZ 0 (maxRetries this + 1)) with (seqZ 0 (maxRetries this + 1 - 0))
    by (f_equal; lia).
  destruct (loop_advances customerId this k 0 e lg None ltac:(lia) Hfail)
    as (lastError' & ->).
  rewrite seqZ_attempts by lia.
  unfold outcome_of_call in Hok.
  destruct (executor_getCustomerDashboard I customerId
              (env_before_call I this customerId 0 k e)) as [r e'] eqn:Hex.
  simpl in Hok. subst r.
  retry_step @loop_returns; [| exact Hex].
  simpl. split; [reflexivity|]. split; [by rewrite <- app_assoc|].
  split; [|apply backoff_total].
  rewrite !sleeps_app, sleeps_retry_backoff. simpl. by rewrite app_nil_r.
Qed.

End RetrySchedule.

(** ** More on the Metrics decorator *)

Section MetricsTransparency.
Context {E : Type} (I : Inner E).

(** X19.  Wrapping an executor in the Metrics decorator changes nothing
    for the caller: over any sequence of calls the outcomes are those of the
    bare executor, the executor is called exactly once per call and the
    environment ends in the same state. *)
Theorem metrics_transparent (ids : list Z) (metrics : MetricsDecorator.t) (w : World E) :
  let decorated := run_calls (MetricsDecorator.getCustomerDashboard I) ids (metrics, w) in
  let bare := run_calls (executor_getCustomerDashboard I) ids (env w) in
  fst decorated = fst bare /\
  env (snd (snd decorated)) = snd bare /\
  log (snd (snd decorated)) = log w ++ map ExecutorCall ids.
Proof.
  revert metrics w. induction ids as [|id ids IH]; intros metrics w; cbn [run_calls map].
  - simpl. by rewrite app_nil_r.
  - destruct (executor_getCustomerDashboard I id (env w)) as [[result|error] e'] eqn:Hex.
    + rewrite (metrics_call_returns I id metrics w result e' Hex).
      match goal with |- context [run_calls _ ids (?m, ?w0)] => specialize (IH m w0) end.
      destruct (run_calls (MetricsDecorator.getCustomerDashboard I) ids _)
        as [rs [m' w']]. cbn [fst snd env log] in *.
      destruct (run_calls (executor_getCustomerDashboard I) ids e') as [rs' e''].
      cbn [fst snd] in *. destruct IH as (-> & -> & ->).
      by rewrite <- app_assoc.
    + rewrite (metrics_call_throws I id metrics w error e' Hex).
      match goal with |- context [run_calls _ ids (?m, ?w0)] => specialize (IH m w0) end.
      destruct (run_calls (MetricsDecorator.getCustomerDashboard I) ids _)
        as [rs [m' w']]. cbn [fst snd env log] in *.
      destruct (run_calls (executor_getCustomerDashboard I) ids e') as [rs' e''].
      cbn [fst snd] in *. destruct IH as (-> & -> & ->).
      by rewrite <- app_assoc.
Qed.

End MetricsTransparency.

(** X20.  The percentiles reported by [getMetrics] are ordered,
    p50 <= p95 <= p99.  They are all 0 while no sample has been recorded
    (after construction, after [resetMetrics], or when every call failed),
    and otherwise each of them is one of the recorded samples. *)
Theorem getMetrics_percentiles (this : MetricsDecorator.t) :
  let m := MetricsDecorator.getMetrics this in
  MetricsDecorator.p50 m <= MetricsDecorator.p95 m /\
  MetricsDecorator.p95 m <= MetricsDecorator.p99 m /\
  (MetricsDecorator.latencies this = [] ->
   MetricsDecorator.p50 m = 0 /\ MetricsDecorator.p95 m = 0 /\ MetricsDecorator.p99 m = 0) /\
  (MetricsDecorator.latencies this <> [] ->
   MetricsDecorator.p50 m ∈ MetricsDecorator.latencies this /\
   MetricsDecorator.p95 m ∈ MetricsDecorator.latencies this /\
   MetricsDecorator.p99 m ∈ MetricsDecorator.latencies this) /\
  MetricsDecorator.getMetrics (MetricsDecorator.resetMetrics this) =
    MetricsDecorator.getMetrics MetricsDecorator.new.
Proof.
  intros m. subst m. unfold MetricsDecorator.getMetrics. cbn [MetricsDecorator.p50
    MetricsDecorator.p95 MetricsDecorator.p99].
  assert (Hcases : MetricsDecorator.latencies this = [] \/
                   MetricsDecorator.latencies this <> []).
  { destruct (MetricsDecorator.latencies this); [by left | by right]. }
  destruct Hcases as [Hnil|Hne].
  - rewrite Hnil. simpl. repeat split; try done; lia.
  - set (sorted := sort_ascending (MetricsDecorator.latencies this)).
    destruct (nearest_rank_defined _ 50 Hne ltac:(lia)) as [v50 H50].
    destruct (nearest_rank_defined _ 95 Hne ltac:(lia)) as [v95 H95].
    destruct (nearest_rank_defined _ 99 Hne ltac:(lia)) as [v99 H99].
    fold sorted in H50, H95, H99.
    rewrite H50, H95, H99, !or_zero_Some.
    pose proof (sorted_lookup_le sorted (sort_ascending_Sorted _)) as Hle.
    assert (Hin : forall i v, sorted !! i = Some v -> v ∈ MetricsDecorator.latencies this).
    { intros i v Hv. rewrite <- (sort_ascending_Permutation (MetricsDecorator.latencies this)).
      eapply list_elem_of_lookup_2, Hv. }
    split; [eapply Hle; [|exact H50|exact H95]; apply floor_times_mono; lia|].
    split; [eapply Hle; [|exact H95|exact H99]; apply floor_times_mono; lia|].
    split; [done|]. split; [|reflexivity].
    intros _. repeat split; eapply Hin; eassumption.
Qed.

(** ** Stacked decorators *)

Section StackedDecorators.
Context {E : Type} (I : Inner E).

Ltac stacked_step J lemma :=
  match goal with
  | |- context [RetryDecorator.loop J ?c (?a :: ?r) ?le (?t, {| env := ?e0; log := ?l0 |})] =>
      erewrite (lemma _ J c a r le t e0 l0)
  end.

(** The whole run of a Retry decorator whose inner calls fail [k] times
    with retryable errors and then return. *)
Lemma retry_run_returns {E'} (J : Inner E') (customerId : Z) (this : RetryDecorator.t)
    (w : World E') (k : nat) (result : Dashboard) :
  Z.of_nat k <= RetryDecorator.maxRetries this ->
  (forall i, (i < k)%nat -> retryable (outcome_of_call J customerId this 0 (env w) i)) ->
  outcome_of_call J customerId this 0 (env w) k = Return result ->
  RetryDecorator.getCustomerDashboard J customerId (this, w) =
  (Return result,
   (this,
    {| env := snd (executor_getCustomerDashboard J customerId
                     (env_before_call J this customerId 0 k (env w)));
       log := log w ++ retry_backoff customerId (RetryDecorator.initialDelay this) 0 k
                    ++ [ExecutorCall customerId] |})).
Proof.
  intros Hk Hfail Hok.
  unfold RetryDecorator.getCustomerDashboard. unfold_M. simpl.
  destruct w as [e lg]. simpl in *.
  replace (seqZ 0 (RetryDecorator.maxRetries this + 1))
    with (seqZ 0 (RetryDecorator.maxRetries this + 1 - 0)) by (f_equal; lia).
  destruct (loop_advances J customerId this k 0 e lg None ltac:(lia) Hfail)
    as (lastError' & ->).
  rewrite seqZ_attempts by lia.
  unfold outcome_of_call in Hok.
  destruct (executor_getCustomerDashboard J customerId
              (env_before_call J this customerId 0 k e)) as [r e'] eqn:Hex.
  simpl in Hok. subst r.
  stacked_step J @loop_returns; [| exact Hex].
  simpl. by rewrite <- app_assoc.
Qed.

(** X21.  Metrics directly outside, Retry inside (the stacking of the
    combined example): a fetch that succeeds after [k] retried failures is one
    successful query for the Metrics decorator, with a single latency
    sample covering all attempts and back-off sleeps, although the base
    executor was called [k + 1] times; a fetch whose attempts all fail is
    one failed query without a sample. *)
Theorem metrics_over_retry (customerId : Z) (metrics : MetricsDecorator.t)
    (retry : RetryDecorator.t) (w : World E) (outer : list Call) :
  0 <= RetryDecorator.maxRetries retry ->
  let outcome := outcome_of_call I customerId retry 0 (env w) in
  let run := MetricsDecorator.getCustomerDashboard (retry_as_inner I) customerId
               (metrics, {| env := (retry, w); log := outer |}) in
  let metrics' := fst (snd run) in
  let w' := snd (env (snd (snd run))) in
  let elapsed := Date_now I (env w') - Date_now I (env w) in
  log (snd (snd run)) = outer ++ [ExecutorCall customerId] /\
  (forall (k : nat) result,
     Z.of_nat k <= RetryDecorator.maxRetries retry ->
     (forall i, (i < k)%nat -> retryable (outcome i)) ->
     outcome k = Return result ->
     fst run = Return result /\
     metrics' = MetricsDecorator.mk (MetricsDecorator.totalQueries metrics + 1)
                  (MetricsDecorator.successfulQueries metrics + 1)
                  (MetricsDecorator.failedQueries metrics)
                  (MetricsDecorator.totalDuration metrics + elapsed)
                  (MetricsDecorator.latencies metrics ++ [elapsed]) /\
     inner_calls (log w') = (inner_calls (log w) + k + 1)%nat) /\
  ((forall i, (i <= Z.to_nat (RetryDecorator.maxRetries retry))%nat -> retryable (outcome i)) ->
   is_Throw (fst run) = true /\
   metrics' = MetricsDecorator.mk (MetricsDecorator.totalQueries metrics + 1)
                (MetricsDecorator.successfulQueries metrics)
                (MetricsDecorator.failedQueries metrics + 1)
                (MetricsDecorator.totalDuration metrics)
                (MetricsDecorator.latencies metrics) /\
   inner_calls (log w') =
     (inner_calls (log w) + Z.to_nat (RetryDecorator.maxRetries retry) + 1)%nat).
Proof.
  intros Hmax outcome run metrics' w' elapsed.
  set (W := {| env := (retry, w); log := outer |}) in *.
  destruct (executor_getCustomerDashboard (retry_as_inner I) customerId (env W))
    as [r e'] eqn:Hex.
  assert (Hrun : run =
    match r with
    | Return result =>
        (Return result,
         (MetricsDecorator.mk (MetricsDecorator.totalQueries metrics + 1)
            (MetricsDecorator.successfulQueries metrics + 1)
            (MetricsDecorator.failedQueries metrics)
            (MetricsDecorator.totalDuration metrics
             + (Date_now (retry_as_inner I) e' - Date_now (retry_as_inner I) (env W)))
            (MetricsDecorator.latencies metrics
             ++ [Date_now (retry_as_inner I) e' - Date_now (retry_as_inner I) (env W)]),
          {| env := e'; log := log W ++ [ExecutorCall customerId] |}))
    | Throw error =>
        (Throw error,
         (MetricsDecorator.mk (MetricsDecorator.totalQueries metrics + 1)
            (MetricsDecorator.successfulQueries metrics)
            (MetricsDecorator.failedQueries metrics + 1)
            (MetricsDecorator.totalDuration metrics)
            (MetricsDecorator.latencies metrics),
          {| env := e'; log := log W ++ [ExecutorCall customerId] |}))
    end).
  { subst run. destruct r as [result|error].
    - apply (metrics_call_returns (retry_as_inner I) customerId metrics W result e' Hex).
    - apply (metrics_call_throws (retry_as_inner I) customerId metrics W error e' Hex). }
  simpl in Hex.
  split; [rewrite Hrun; by destruct r|].
  split.
  - intros k result Hk Hfail Hok.
    destruct (loop_after_failures_returns I customerId retry k 0 (env w) (log w) None result)
      as [Hfst Hcalls]; [lia | exact Hfail | exact Hok |].
    assert (Hret : fst (RetryDecorator.getCustomerDashboard I customerId (retry, w))
                   = Return result /\
                   inner_calls (log (snd (snd (RetryDecorator.getCustomerDashboard I
                                                 customerId (retry, w)))))
                   = (inner_calls (log w) + k + 1)%nat).
    { unfold RetryDecorator.getCustomerDashboard. unfold_M. simpl.
      replace (seqZ 0 (RetryDecorator.maxRetries retry + 1))
        with (seqZ 0 (RetryDecorator.maxRetries retry + 1 - 0)) by (f_equal; lia).
      destruct w. exact (conj Hfst Hcalls). }
    rewrite Hex in Hret. simpl in Hret. destruct Hret as [-> Hcount].
    subst metrics' w' elapsed. rewrite Hrun. simpl. repeat split; done.
  - intros Hfail.
    destruct (loop_all_failures_throws I customerId retry
                (Z.to_nat (RetryDecorator.maxRetries retry)) 0 (env w) (log w) None)
      as (last & _ & Hfst & Hcalls); [lia | exact Hfail |].
    assert (Hret : fst (RetryDecorator.getCustomerDashboard I customerId (retry, w))
                   = Throw (QueryError (failed_after retry) (Some last)) /\
                   inner_calls (log (snd (snd (RetryDecorator.getCustomerDashboard I
                                                 customerId (retry, w)))))
                   = (inner_calls (log w) + Z.to_nat (RetryDecorator.maxRetries retry) + 1)%nat).
    { unfold RetryDecorator.getCustomerDashboard. unfold_M. simpl.
      replace (seqZ 0 (RetryDecorator.maxRetries retry + 1))
        with (seqZ 0 (RetryDecorator.maxRetries retry + 1 - 0)) by (f_equal; lia).
      destruct w. exact (conj Hfst Hcalls). }
    rewrite Hex in Hret. simpl in Hret. destruct Hret as [-> Hcount].
    subst metrics' w' elapsed. rewrite Hrun. simpl. repeat split; done.
Qed.

(** The Metrics decorator below a Retry decorator, after [i] retried
    failures of the base executor: the base environment is where it would
    be without the Metrics decorator, and the counters have moved by [i]
    failed queries. *)
Lemma metrics_below_retry (customerId : Z) (retry : RetryDecorator.t) (i : nat) :
  forall (attempt : Z) (metrics : MetricsDecorator.t) (w : World E),
  (forall j, (j < i)%nat ->
     retryable (outcome_of_call I customerId retry attempt (env w) j)) ->
  exists lg,
    env_before_call (metrics_as_inner I) retry customerId attempt i (metrics, w) =
    (MetricsDecorator.mk (MetricsDecorator.totalQueries metrics + Z.of_nat i)
       (MetricsDecorator.successfulQueries metrics)
       (MetricsDecorator.failedQueries metrics + Z.of_nat i)
       (MetricsDecorator.totalDuration metrics)
       (MetricsDecorator.latencies metrics),
     {| env := env_before_call I retry customerId attempt i (env w); log := lg |}).
Proof.
  induction i as [|i IH]; intros attempt metrics w Hfail.
  - exists (log w). destruct metrics, w. simpl. by rewrite !Z.add_0_r.
  - destruct (Hfail 0%nat ltac:(lia)) as (error & Hthrow & _).
    unfold outcome_of_call in Hthrow. simpl in Hthrow.
    destruct (executor_getCustomerDashboard I customerId (env w)) as [r e'] eqn:Hex.
    simpl in Hthrow. subst r.
    cbn [env_before_call]. cbn [executor_getCustomerDashboard metrics_as_inner].
    rewrite (metrics_call_throws I customerId metrics w error e' Hex).
    cbn [snd fst setTimeout metrics_as_inner env log].
    edestruct (IH (attempt + 1)) as (lg & ->).
    + intros j Hj. specialize (Hfail (S j) ltac:(lia)).
      unfold outcome_of_call in *. simpl in Hfail. rewrite Hex in Hfail. exact Hfail.
    + exists lg. cbn [MetricsDecorator.totalQueries MetricsDecorator.successfulQueries
        MetricsDecorator.failedQueries MetricsDecorator.totalDuration
        MetricsDecorator.latencies env]. rewrite Hex. simpl.
      do 2 f_equal; lia.
Qed.

(** Through the Metrics decorator every call has the outcome of the base
    executor. *)
Lemma metrics_outcome (customerId : Z) (metrics : MetricsDecorator.t) (w : World E) :
  fst (MetricsDecorator.getCustomerDashboard I customerId (metrics, w)) =
  fst (executor_getCustomerDashboard I customerId (env w)).
Proof.
  destruct (executor_getCustomerDashboard I customerId (env w)) as [[r|error] e'] eqn:Hex.
  - by rewrite (metrics_call_returns I customerId metrics w r e' Hex).
  - by rewrite (metrics_call_throws I customerId metrics w error e' Hex).
Qed.

Lemma metrics_below_retry_outcome (customerId : Z) (retry : RetryDecorator.t)
    (metrics : MetricsDecorator.t) (w : World E) (i : nat) :
  (forall j, (j < i)%nat -> retryable (outcome_of_call I customerId retry 0 (env w) j)) ->
  outcome_of_call (metrics_as_inner I) customerId retry 0 (metrics, w) i =
  outcome_of_call I customerId retry 0 (env w) i.
Proof.
  intros Hfail. unfold outcome_of_call.
  destruct (metrics_below_retry customerId retry i 0 metrics w Hfail) as (lg & ->).
  cbn [executor_getCustomerDashboard metrics_as_inner].
  by rewrite metrics_outcome.
Qed.

(** X22.  Retry outside, Metrics inside: a fetch that succeeds after [k]
    retried failures is [k + 1] queries for the Metrics decorator, [k] of
    them failed and one successful with one latency sample (that of the
    last attempt alone). *)
Theorem retry_over_metrics (customerId : Z) (retry : RetryDecorator.t)
    (metrics : MetricsDecorator.t) (w : World E) (outer : list Call) (k : nat)
    (result : Dashboard) :
  Z.of_nat k <= RetryDecorator.maxRetries retry ->
  (forall i, (i < k)%nat -> retryable (outcome_of_call I customerId retry 0 (env w) i)) ->
  outcome_of_call I customerId retry 0 (env w) k = Return result ->
  let run := RetryDecorator.getCustomerDashboard (metrics_as_inner I) customerId
               (retry, {| env := (metrics, w); log := outer |}) in
  let metrics' := fst (env (snd (snd run))) in
  fst run = Return result /\
  MetricsDecorator.totalQueries metrics' =
    MetricsDecorator.totalQueries metrics + Z.of_nat k + 1 /\
  MetricsDecorator.failedQueries metrics' =
    MetricsDecorator.failedQueries metrics + Z.of_nat k /\
  MetricsDecorator.successfulQueries metrics' =
    MetricsDecorator.successfulQueries metrics + 1 /\
  length (MetricsDecorator.latencies metrics') =
    S (length (MetricsDecorator.latencies metrics)) /\
  inner_calls (log (snd (snd run))) = (inner_calls outer + k + 1)%nat.
Proof.
  intros Hk Hfail Hok run metrics'. subst metrics' run.
  rewrite (retry_run_returns (metrics_as_inner I) customerId retry
             {| env := (metrics, w); log := outer |} k result Hk).
  - cbn [fst snd env log].
    destruct (metrics_below_retry customerId retry k 0 metrics w Hfail) as (lg & ->).
    cbn [executor_getCustomerDashboard metrics_as_inner].
    unfold outcome_of_call in Hok.
    destruct (executor_getCustomerDashboard I customerId
                (env_before_call I retry customerId 0 k (env w))) as [r e'] eqn:Hex.
    simpl in Hok. subst r.
    match goal with |- context [MetricsDecorator.getCustomerDashboard I customerId (?m, ?w0)] =>
      rewrite (metrics_call_returns I customerId m w0 result e' Hex) end.
    cbn [fst snd MetricsDecorator.totalQueries MetricsDecorator.successfulQueries
         MetricsDecorator.failedQueries MetricsDecorator.latencies].
    split; [reflexivity|]. split; [lia|]. split; [lia|]. split; [lia|].
    split; [rewrite length_app; simpl; lia|].
    unfold inner_calls. rewrite !List.filter_app, !length_app. simpl.
    assert (Hb : forall j a, length (List.filter is_ExecutorCall
                   (retry_backoff customerId (RetryDecorator.initialDelay retry) a j)) = j).
    { induction j as [|j IHj]; intros a; simpl; [done | by rewrite IHj]. }
    rewrite Hb. lia.
  - intros i Hi. cbn [env]. rewrite metrics_below_retry_outcome.
    + by apply Hfail.
    + intros j Hj. apply Hfail. lia.
  - cbn [env]. rewrite metrics_below_retry_outcome; [exact Hok | exact Hfail].
Qed.

End StackedDecorators.

(** ** More on the circuit breaker *)

Section BreakerRuns.
Context {E : Type} (I : Inner E).
Import CircuitBreakerDecorator.

Ltac unfold_breaker_call :=
  unfold getCustomerDashboard, guard, attempt, _onSuccess, _onFailure,
    set_state, set_failureCount, set_nextAttempt in *;
  unfold_M; simpl in *.

(** A failing call through a Closed breaker that stays below the
    threshold. *)
Lemma closed_failure_counts (this : t) (customerId : Z) (w : World E) :
  state this = CLOSED ->
  failureCount this + 1 < threshold this ->
  is_Throw (fst (executor_getCustomerDashboard I customerId (env w))) = true ->
  let run := getCustomerDashboard I customerId (this, w) in
  is_Throw (fst run) = true /\
  fst (snd run) = set_failureCount (failureCount this + 1) this /\
  inner_calls (log (snd (snd run))) = S (inner_calls (log w)).
Proof.
  intros Hst Hlt Hthrow run. subst run.
  destruct this as [thr rt fc st na]. unfold_breaker_call. subst st. simpl.
  destruct (executor_getCustomerDashboard I customerId (env w)) as [[r|err] e']; [done|].
  simpl. rewrite Z.geb_leb. destruct (Z.leb_spec thr (fc + 1)); [lia|]. simpl.
  by rewrite inner_calls_executor.
Qed.

(** The failing call through a Closed breaker that reaches the threshold. *)
Lemma closed_failure_opens (this : t) (customerId : Z) (w : World E) :
  state this = CLOSED ->
  threshold this <= failureCount this + 1 ->
  is_Throw (fst (executor_getCustomerDashboard I customerId (env w))) = true ->
  let run := getCustomerDashboard I customerId (this, w) in
  is_Throw (fst run) = true /\
  fst (snd run) = opened_at (Date_now I (env (snd (snd run)))) this /\
  inner_calls (log (snd (snd run))) = S (inner_calls (log w)).
Proof.
  intros Hst Hge Hthrow run. subst run.
  destruct this as [thr rt fc st na]. unfold opened_at. unfold_breaker_call. subst st. simpl.
  destruct (executor_getCustomerDashboard I customerId (env w)) as [[r|err] e']; [done|].
  simpl. rewrite Z.geb_leb. destruct (Z.leb_spec thr (fc + 1)); [|lia]. simpl.
  by rewrite inner_calls_executor.
Qed.

(** Calls through an Open breaker before [nextAttempt] change nothing. *)
Lemma open_short_circuits (ids : list Z) (this : t) (w : World E) (openUntil : Z) :
  state this = OPEN ->
  nextAttempt this = Some openUntil ->
  Date_now I (env w) < openUntil ->
  run_calls (getCustomerDashboard I) ids (this, w) =
  (map (fun _ => Throw circuit_open_error) ids, (this, w)).
Proof.
  intros Hst Hna Hearly. induction ids as [|id ids IH]; [reflexivity|].
  cbn [run_calls map].
  assert (Hcall : getCustomerDashboard I id (this, w) = (Throw circuit_open_error, (this, w))).
  { destruct this as [thr rt fc st na]. unfold circuit_open_error. unfold_breaker_call.
    subst st na. simpl.
    by destruct (Z.ltb_spec (Date_now I (env w)) openUntil); [|lia]. }
  by rewrite Hcall, IH.
Qed.

Lemma closed_failures_count (ids : list Z) :
  forall (this : t) (w : World E),
  state this = CLOSED ->
  failureCount this + Z.of_nat (length ids) < threshold this ->
  (forall id e, is_Throw (fst (executor_getCustomerDashboard I id e)) = true) ->
  let result := run_calls (getCustomerDashboard I) ids (this, w) in
  fst (snd result) = set_failureCount (failureCount this + Z.of_nat (length ids)) this /\
  inner_calls (log (snd (snd result))) = (inner_calls (log w) + length ids)%nat /\
  Forall (fun r => is_Throw r = true) (fst result).
Proof.
  induction ids as [|id ids IH]; intros this w Hst Hlt Hdead; cbn [run_calls].
  - simpl. destruct this; unfold set_failureCount; simpl.
    rewrite Z.add_0_r. repeat split; [lia | constructor].
  - destruct (closed_failure_counts this id w Hst) as (Hr & Hthis & Hcalls);
      [simpl in Hlt; lia | apply Hdead |].
    destruct (getCustomerDashboard I id (this, w)) as [r [this1 w1]].
    cbn [fst snd] in *. subst this1.
    edestruct (IH (set_failureCount (failureCount this + 1) this) w1)
      as (Hthis' & Hcalls' & Hall); [exact Hst | | exact Hdead |].
    { simpl in *. lia. }
    destruct (run_calls (getCustomerDashboard I) ids _) as [rs [this2 w2]].
    cbn [fst snd] in *. subst this2.
    split; [|split].
    + unfold set_failureCount. simpl. f_equal. lia.
    + rewrite Hcalls', Hcalls. simpl. lia.
    + by constructor.
Qed.

(** A failing call through a Closed breaker rethrows what the executor
    threw, and touches the world only through the executor. *)
Lemma closed_failure_rethrows (this : t) (customerId : Z) (w : World E) :
  state this = CLOSED ->
  is_Throw (fst (executor_getCustomerDashboard I customerId (env w))) = true ->
  let run := getCustomerDashboard I customerId (this, w) in
  fst run = fst (executor_getCustomerDashboard I customerId (env w)) /\
  snd (snd run) = {| env := snd (executor_getCustomerDashboard I customerId (env w));
                     log := log w ++ [ExecutorCall customerId] |}.
Proof.
  intros Hst Hthrow run. subst run.
  destruct this as [thr rt fc st na]. unfold_breaker_call. subst st. simpl.
  destruct (executor_getCustomerDashboard I customerId (env w)) as [[r|err] e']; [done|].
  simpl. rewrite Z.geb_leb. by destruct (Z.leb_spec thr (fc + 1)).
Qed.

Lemma closed_failures_rethrow (ids : list Z) :
  forall (this : t) (w : World E),
  state this = CLOSED ->
  failureCount this + Z.of_nat (length ids) < threshold this ->
  (forall id e, is_Throw (fst (executor_getCustomerDashboard I id e)) = true) ->
  let result := run_calls (getCustomerDashboard I) ids (this, w) in
  let bare := run_calls (executor_getCustomerDashboard I) ids (env w) in
  fst result = fst bare /\
  env (snd (snd result)) = snd bare /\
  log (snd (snd result)) = log w ++ map ExecutorCall ids.
Proof.
  induction ids as [|id ids IH]; intros this w Hst Hlt Hdead; cbn [run_calls map].
  - simpl. by rewrite app_nil_r.
  - destruct (closed_failure_counts this id w Hst) as (_ & Hthis & _);
      [simpl in Hlt; lia | apply Hdead |].
    destruct (closed_failure_rethrows this id w Hst (Hdead id (env w))) as (Hr & Hw).
    destruct (getCustomerDashboard I id (this, w)) as [r [this1 w1]].
    cbn [fst snd] in *. subst this1 w1 r.
    edestruct (IH (set_failureCount (failureCount this + 1) this)
                 {| env := snd (executor_getCustomerDashboard I id (env w));
                    log := log w ++ [ExecutorCall id] |})
      as (Hrs & Henv & Hlog); [exact Hst | | exact Hdead |].
    { simpl in *. lia. }
    cbn [env log] in *.
    destruct (executor_getCustomerDashboard I id (env w)) as [r e1]. cbn [fst snd] in *.
    destruct (run_calls (getCustomerDashboard I) ids _) as [rs [this2 w2]].
    destruct (run_calls (executor_getCustomerDashboard I) ids e1) as [rs' e2].
    cbn [fst snd] in *. subst rs.
    split; [reflexivity|]. split; [exact Henv|].
    rewrite Hlog. by rewrite <- app_assoc.
Qed.

(** X23.  A breaker with threshold [N >= 1] and a positive reset timeout
    in front of an executor that always fails: the first [N] calls all
    reach the executor, one executor call each, and rethrow what it threw;
    before the [N]-th the breaker is Closed, with it the breaker is Open;
    every further call made while the clock has not moved is refused with
    the circuit-open error and changes neither the breaker nor the world,
    so the executor has been called exactly [N] times. *)
Theorem breaker_opens_after_threshold (N resetTimeout0 : Z) (ids further : list Z)
    (last : Z) (w : World E) :
  Z.of_nat (length ids) + 1 = N ->
  0 < resetTimeout0 ->
  (forall id e, is_Throw (fst (executor_getCustomerDashboard I id e)) = true) ->
  let fresh := new (Some N) (Some resetTimeout0) in
  let before := run_calls (getCustomerDashboard I) ids (fresh, w) in
  let opening := getCustomerDashboard I last (snd before) in
  let after := run_calls (getCustomerDashboard I) further (snd opening) in
  let bare := run_calls (executor_getCustomerDashboard I) (ids ++ [last]) (env w) in
  state (fst (snd before)) = CLOSED /\
  failureCount (fst (snd before)) = N - 1 /\
  state (fst (snd opening)) = OPEN /\
  nextAttempt (fst (snd opening)) =
    Some (Date_now I (env (snd (snd opening))) + resetTimeout0) /\
  Z.of_nat (inner_calls (log (snd (snd opening)))) = Z.of_nat (inner_calls (log w)) + N /\
  fst after = map (fun _ => Throw circuit_open_error) further /\
  snd after = snd opening /\
  fst before ++ [fst opening] = fst bare /\
  Forall (fun r => is_Throw r = true) (fst before ++ [fst opening]) /\
  env (snd (snd opening)) = snd bare /\
  log (snd (snd opening)) = log w ++ map ExecutorCall (ids ++ [last]).
Proof.
  intros Hlen Hrt Hdead fresh before opening after bare.
  destruct (closed_failures_count ids fresh w eq_refl) as (Hthis & Hcalls & Hthrown);
    [simpl; lia | exact Hdead |].
  destruct (closed_failures_rethrow ids fresh w eq_refl) as (Hsame & Henv & Hlog);
    [simpl; lia | exact Hdead |].
  fold before in Hthis, Hcalls, Hthrown, Hsame, Henv, Hlog.
  destruct before as [rs [this1 w1]] eqn:Hbefore. cbn [fst snd] in *.
  subst this1. simpl in Hcalls.
  destruct (closed_failure_opens
              (set_failureCount (failureCount fresh + Z.of_nat (length ids)) fresh)
              last w1 eq_refl) as (Hthrows & Hopen & Hcalls2); [simpl; lia | apply Hdead |].
  destruct (closed_failure_rethrows
              (set_failureCount (failureCount fresh + Z.of_nat (length ids)) fresh)
              last w1 eq_refl (Hdead last (env w1))) as (Hlast & Hworld).
  fold opening in Hopen, Hcalls2, Hthrows, Hlast, Hworld.
  destruct opening as [r [this2 w2]] eqn:Hopening. cbn [fst snd] in *.
  subst this2.
  assert (Hbare : bare = (rs ++ [r], env w2)).
  { subst bare. rewrite run_calls_app. rewrite <- Hsame, <- Henv. cbn [run_calls].
    rewrite Hworld, Hlast. cbn [env].
    by destruct (executor_getCustomerDashboard I last (env w1)). }
  split; [reflexivity|]. split; [simpl; lia|]. split; [reflexivity|].
  split; [reflexivity|]. split; [lia|].
  split; [|split; [|split; [|split; [|split]]]].
  - subst after.
    by rewrite (open_short_circuits further _ w2 (Date_now I (env w2) + resetTimeout0));
      [ | reflexivity | reflexivity | simpl; lia].
  - subst after.
    by rewrite (open_short_circuits further _ w2 (Date_now I (env w2) + resetTimeout0));
      [ | reflexivity | reflexivity | simpl; lia].
  - by rewrite Hbare.
  - apply Forall_app. split; [exact Hthrown | by constructor].
  - by rewrite Hbare.
  - rewrite Hworld. cbn [log]. rewrite Hlog, map_app. simpl. by rewrite <- app_assoc.
Qed.

(** X24.  In every state of a breaker with threshold at least 1 that is
    reachable by a sequence of calls, the failure count is non-negative,
    and while the breaker is Closed it is below the threshold. *)
Theorem closed_below_threshold threshold0 resetTimeout0 (this : t) :
  1 <= default 5 threshold0 ->
  reachable I threshold0 resetTimeout0 this ->
  0 <= failureCount this /\
  threshold this = default 5 threshold0 /\
  (state this = CLOSED -> failureCount this < threshold this).
Proof.
  intros Hthr Hreach.
  induction Hreach as [|this customerId w Hreach IH].
  - simpl. repeat split; lia.
  - destruct IH as (Hnn & Hsame & Hclosed).
    destruct this as [thr rt fc st na]. unfold_breaker_call.
    destruct (executor_getCustomerDashboard I customerId (env w)) as [[r|err] e'] eqn:Hex;
      destruct st; simpl;
      repeat match goal with
        | |- context [?a <? ?b] => destruct (Z.ltb_spec a b); simpl
        | |- context [?a >=? ?b] => rewrite (Z.geb_leb a b); destruct (Z.leb_spec b a); simpl
        | |- context [executor_getCustomerDashboard I customerId (env w)] =>
            rewrite Hex; simpl
        end;
      repeat split; try lia; try discriminate; intros; try lia;
      try (specialize (Hclosed eq_refl); lia).
Qed.

End BreakerRuns.

(** ** Subscriptions and alerts of the monitor *)

Section MonitorSubscriptions.
Context {E : Type} (S : Surroundings E).
Import PerformanceMonitor.

Lemma updates_of_app (o : nat) (l1 l2 : list Call) :
  updates_of o (l1 ++ l2) = updates_of o l1 ++ updates_of o l2.
Proof. apply flat_map_app. Qed.

(** Notifying observers other than [o] never calls [update] of [o]. *)
Lemma notify_each_skips (o : nat) (obs : list Observer.t) (event : MonitorEvent) (this : t) :
  Forall (fun observer => Observer.id observer <> o) obs ->
  forall w : World E,
  exists r w',
    notify_each S obs event (this, w) = (r, (this, w')) /\
    updates_of o (log w') = updates_of o (log w).
Proof.
  induction 1 as [|observer obs Hne Hrest IH]; intros w; simpl.
  - by eexists _, _.
  - unfold_M. simpl.
    destruct (observer_update S (Observer.id observer) event (env w)) as [[[]|err] e'].
    + edestruct IH as (r & w' & -> & Hupd). eexists _, _. split; [reflexivity|].
      rewrite Hupd. simpl. rewrite updates_of_app. simpl.
      apply Nat.eqb_neq in Hne. rewrite Hne. by rewrite app_nil_r.
    + eexists _, _. split; [reflexivity|]. simpl. rewrite updates_of_app. simpl.
      apply Nat.eqb_neq in Hne. rewrite Hne. by rewrite app_nil_r.
Qed.

Lemma notify_skips (o : nat) (event : MonitorEvent) (this : t) (w : World E) :
  Forall (fun observer => Observer.id observer <> o) (observers this) ->
  exists r w',
    notify S event (this, w) = (r, (this, w')) /\
    updates_of o (log w') = updates_of o (log w).
Proof. intros Hobs. unfold notify. unfold_M. simpl. by apply notify_each_skips. Qed.

(** X25.  [subscribe] refuses an object without [update] method and then
    leaves the monitor as it was; otherwise it appends the observer.
    [unsubscribe] removes every subscription of the observer, keeps the
    others in order and keeps the history; afterwards no [recordQuery]
    calls [update] of that observer again. *)
Theorem unsubscribe_stops_updates (observer : Observer.t) (this : t) (w : World E) :
  (Observer.has_update observer = false ->
   subscribe observer (this, w) =
     (Throw (Error "Observer must implement update() method"), (this, w))) /\
  (Observer.has_update observer = true ->
   subscribe observer (this, w) =
     (Return tt, (mk (observers this ++ [observer]) (queries this) (alerts this), w))) /\
  let this' := fst (snd (unsubscribe observer (this, w))) in
  this' = mk (List.filter (fun obs => negb (Nat.eqb (Observer.id obs) (Observer.id observer)))
                (observers this))
             (queries this) (alerts this) /\
  forall (queryInfo : QueryInfo.t) (w1 : World E),
    updates_of (Observer.id observer)
      (log (snd (snd (recordQuery S queryInfo (this', w1)))))
    = updates_of (Observer.id observer) (log w1).
Proof.
  split; [|split].
  - intros Hno. unfold subscribe. by rewrite Hno.
  - intros Hyes. unfold subscribe. by rewrite Hyes.
  - intros this'. subst this'. unfold unsubscribe. unfold_M. simpl.
    assert (Hfilter :
      filter (fun obs => Observer.id obs <> Observer.id observer) (observers this)
      = List.filter (fun obs => negb (Nat.eqb (Observer.id obs) (Observer.id observer)))
          (observers this)).
    { induction (observers this) as [|obs l IHl]; [reflexivity|].
      rewrite filter_cons. simpl. rewrite IHl.
      destruct (Nat.eqb_spec (Observer.id obs) (Observer.id observer)); simpl;
        by case_decide. }
    rewrite Hfilter. split; [reflexivity|].
    intros queryInfo w1.
    set (rest := List.filter _ (observers this)).
    assert (Hrest : Forall (fun obs => Observer.id obs <> Observer.id observer) rest).
    { subst rest. apply Forall_forall. intros obs Hin.
      apply list_elem_of_In, List.filter_In in Hin as [_ Hne].
      apply negb_true_iff, Nat.eqb_neq in Hne. exact Hne. }
    unfold recordQuery, _checkPerformance. unfold_M. simpl.
    destruct (QueryInfo.duration queryInfo >? 1000);
      destruct (truthy_string (QueryInfo.error queryInfo)); simpl;
      repeat match goal with
        | |- context [notify S ?ev (?t, ?w0)] =>
            let r := fresh "r" in let w' := fresh "w'" in
            let H := fresh "H" in let Hu := fresh "Hu" in
            destruct (notify_skips (Observer.id observer) ev t w0 Hrest)
              as (r & w' & H & Hu);
            rewrite H; clear H; simpl in Hu;
            destruct r as [[]|?]; simpl
        end; congruence.
Qed.

(** When no observer throws, a notification returns and leaves the fields
    of the monitor alone. *)
Lemma notify_returns (event : MonitorEvent) (this : t) (w : World E) :
  (forall o ev e, fst (observer_update S o ev e) = Return tt) ->
  exists w', notify S event (this, w) = (Return tt, (this, w')).
Proof.
  intros Hok. unfold notify. unfold_M. simpl.
  generalize (observers this). intros obs. revert w.
  induction obs as [|o obs IH]; intros w; simpl.
  - by eexists.
  - unfold_M. simpl. pose proof (Hok (Observer.id o) event (env w)) as Ho.
    destruct (observer_update S (Observer.id o) event (env w)) as [r e'].
    simpl in Ho. subst r. apply IH.
Qed.

(** X26.  With observers that do not throw, [recordQuery] returns and
    adds one [SLOW_QUERY] alert exactly when the duration exceeds 1000 (a
    duration of 1000 raises none) and one [QUERY_ERROR] alert exactly when
    the event carries a non-empty error, the slow-query alert first.  When
    the first subscribed observer throws, a slow and failed query leaves
    only its [SLOW_QUERY] alert: the error alert is never recorded. *)
Theorem recordQuery_alerts (queryInfo : QueryInfo.t) (this : t) (w : World E) :
  let run := recordQuery S queryInfo (this, w) in
  let added := drop (length (alerts this)) (alerts (fst (snd run))) in
  let slow := QueryInfo.duration queryInfo >? 1000 in
  let failed := truthy_string (QueryInfo.error queryInfo) in
  alerts (fst (snd run)) = alerts this ++ added /\
  ((forall o ev e, fst (observer_update S o ev e) = Return tt) ->
   fst run = Return tt /\
   map Alert.type added =
     (if slow then [SLOW_QUERY] else []) ++ (if failed then [QUERY_ERROR] else []) /\
   Forall (fun a => Alert.data a = queryInfo) added) /\
  (forall o1 rest,
     observers this = o1 :: rest ->
     (forall ev e, is_Throw (fst (observer_update S (Observer.id o1) ev e)) = true) ->
     slow = true -> failed = true ->
     map Alert.type added = [SLOW_QUERY]).
Proof.
  intros run added slow failed. subst added run slow failed.
  unfold recordQuery, _checkPerformance. unfold_M. simpl.
  split; [|split].
  - destruct (QueryInfo.duration queryInfo >? 1000);
      destruct (truthy_string (QueryInfo.error queryInfo)); simpl;
      repeat match goal with
        | |- context [notify S ?ev (?t, ?w0)] =>
            let r := fresh "r" in let w' := fresh "w'" in let H := fresh "H" in
            destruct (notify_this S ev t w0) as (r & w' & H); rewrite H; clear H;
            destruct r as [[]|?]; simpl
        end;
      rewrite ?drop_app_length, <- ?app_assoc, ?drop_all, ?app_nil_r;
      try reflexivity;
      try (rewrite (drop_app_length (alerts this)); reflexivity).
  - intros Hok.
    destruct (QueryInfo.duration queryInfo >? 1000);
      destruct (truthy_string (QueryInfo.error queryInfo)); simpl;
      repeat match goal with
        | |- context [notify S ?ev (?t, ?w0)] =>
            let w' := fresh "w'" in let H := fresh "H" in
            destruct (notify_returns ev t w0 Hok) as (w' & H); rewrite H; clear H; simpl
        end;
      rewrite <- ?app_assoc, ?drop_app_length, ?drop_all; simpl;
      repeat split; repeat constructor.
  - intros o1 rest Hobs Hthrow -> ->. simpl.
    match goal with
    | |- context [notify S ?ev (?t, ?w0)] =>
        destruct (notify_first_throwing S o1 rest ev t w0 Hobs Hthrow) as (err & e' & H);
        rewrite H; clear H; simpl
    end.
    by rewrite drop_app_length.
Qed.

End MonitorSubscriptions.

(** ** Instances *)

Lemma retry_rethrows_validation_witness :
  let run := RetryDecorator.getCustomerDashboard Mock.inner 7
               (Mock.retry3, Mock.scripted [Throw Mock.boom; Throw Mock.invalid]) in
  fst run = Throw Mock.invalid /\
  log (snd (snd run)) = [ExecutorCall 7; Sleep 100; ExecutorCall 7].
Proof.
  apply (retry_rethrows_validation Mock.inner 7 Mock.retry3
           (Mock.scripted [Throw Mock.boom; Throw Mock.invalid]) 1 Mock.invalid).
  - vm_compute. discriminate.
  - intros i Hi. exists Mock.boom.
    destruct i as [|i]; [split; [reflexivity | discriminate] | lia].
  - reflexivity.
  - reflexivity.
Defined.

Lemma retry_backoff_schedule_witness :
  let run := RetryDecorator.getCustomerDashboard Mock.inner 7
               (Mock.retry3,
                Mock.scripted [Throw Mock.boom; Throw Mock.boom; Return Mock.empty_dashboard]) in
  fst run = Return Mock.empty_dashboard /\
  sleeps (log (snd (snd run))) = [100; 200] /\
  100 + 200 = 100 * (2 ^ 2 - 1).
Proof.
  destruct (retry_backoff_schedule Mock.inner 7 Mock.retry3
              (Mock.scripted [Throw Mock.boom; Throw Mock.boom; Return Mock.empty_dashboard])
              2 Mock.empty_dashboard) as (Hrun & _ & Hsleeps & _).
  - vm_compute. discriminate.
  - intros i Hi. exists Mock.boom.
    destruct i as [|[|i]]; [split; [reflexivity | discriminate].. | lia].
  - reflexivity.
  - split; [exact Hrun|]. split; [exact Hsleeps | reflexivity].
Defined.

Lemma metrics_over_retry_witness :
  let run := MetricsDecorator.getCustomerDashboard (retry_as_inner Mock.inner) 7
               (MetricsDecorator.new,
                {| env := (Mock.retry3,
                           Mock.scripted [Throw Mock.boom; Throw Mock.boom;
                                          Return Mock.empty_dashboard]);
                   log := [] |}) in
  fst run = Return Mock.empty_dashboard /\
  fst (snd run) = MetricsDecorator.mk 1 1 0 303 [303] /\
  inner_calls (log (snd (env (snd (snd run))))) = 3%nat.
Proof.
  destruct (metrics_over_retry Mock.inner 7 MetricsDecorator.new Mock.retry3
              (Mock.scripted [Throw Mock.boom; Throw Mock.boom; Return Mock.empty_dashboard])
              []) as (_ & Hreturns & _); [vm_compute; discriminate|].
  destruct (Hreturns 2%nat Mock.empty_dashboard) as (Hrun & Hmetrics & Hcalls).
  - vm_compute. discriminate.
  - intros i Hi. exists Mock.boom.
    destruct i as [|[|i]]; [split; [reflexivity | discriminate].. | lia].
  - reflexivity.
  - split; [exact Hrun|]. split; [rewrite Hmetrics; reflexivity | exact Hcalls].
Defined.

Lemma retry_over_metrics_witness :
  let run := RetryDecorator.getCustomerDashboard (metrics_as_inner Mock.inner) 7
               (Mock.retry3,
                {| env := (MetricsDecorator.new,
                           Mock.scripted [Throw Mock.boom; Throw Mock.boom;
                                          Return Mock.empty_dashboard]);
                   log := [] |}) in
  fst run = Return Mock.empty_dashboard /\
  MetricsDecorator.totalQueries (fst (env (snd (snd run)))) = 3 /\
  MetricsDecorator.failedQueries (fst (env (snd (snd run)))) = 2.
Proof.
  destruct (retry_over_metrics Mock.inner 7 Mock.retry3 MetricsDecorator.new
              (Mock.scripted [Throw Mock.boom; Throw Mock.boom; Return Mock.empty_dashboard])
              [] 2 Mock.empty_dashboard) as (Hrun & Htotal & Hfailed & _).
  - vm_compute. discriminate.
  - intros i Hi. exists Mock.boom.
    destruct i as [|[|i]]; [split; [reflexivity | discriminate].. | lia].
  - reflexivity.
  - split; [exact Hrun|]. split; [exact Htotal | exact Hfailed].
Defined.

Lemma breaker_opens_after_threshold_witness :
  let opened := run_calls (CircuitBreakerDecorator.getCustomerDashboard dead_inner) [7; 7]
                  (CircuitBreakerDecorator.new (Some 2) (Some 1000), Mock.world Mock.env0) in
  let after := run_calls (CircuitBreakerDecorator.getCustomerDashboard dead_inner) [7; 7; 7]
                 (snd opened) in
  CircuitBreakerDecorator.state (fst (snd opened)) = CircuitBreakerDecorator.OPEN /\
  fst after = [Throw circuit_open_error; Throw circuit_open_error; Throw circuit_open_error] /\
  inner_calls (log (snd (snd after))) = 2%nat /\
  fst opened = [Throw Mock.boom; Throw Mock.boom].
Proof.
  destruct (breaker_opens_after_threshold dead_inner 2 1000 [7] [7; 7; 7] 7
              (Mock.world Mock.env0))
    as (_ & _ & Hopen & _ & Hcalls & Hrefused & Hsame & Houtcomes & _).
  - reflexivity.
  - lia.
  - intros id e. reflexivity.
  - cbv zeta. split; [exact Hopen|]. split; [exact Hrefused|].
    change (run_calls (CircuitBreakerDecorator.getCustomerDashboard dead_inner) [7; 7; 7]
              (snd (run_calls (CircuitBreakerDecorator.getCustomerDashboard dead_inner) [7; 7]
                      (CircuitBreakerDecorator.new (Some 2) (Some 1000),
                       Mock.world Mock.env0))))
      with (run_calls (CircuitBreakerDecorator.getCustomerDashboard dead_inner) [7; 7; 7]
              (snd (CircuitBreakerDecorator.getCustomerDashboard dead_inner 7
                      (snd (run_calls (CircuitBreakerDecorator.getCustomerDashboard dead_inner)
                              [7] (CircuitBreakerDecorator.new (Some 2) (Some 1000),
                                   Mock.world Mock.env0)))))).
    rewrite Hsame. split; [apply Nat2Z.inj; rewrite Hcalls; reflexivity|].
    change (fst (run_calls (CircuitBreakerDecorator.getCustomerDashboard dead_inner) [7; 7]
                   (CircuitBreakerDecorator.new (Some 2) (Some 1000), Mock.world Mock.env0)))
      with (fst (run_calls (CircuitBreakerDecorator.getCustomerDashboard dead_inner) [7]
                   (CircuitBreakerDecorator.new (Some 2) (Some 1000), Mock.world Mock.env0))
            ++ [fst (CircuitBreakerDecorator.getCustomerDashboard dead_inner 7
                       (snd (run_calls (CircuitBreakerDecorator.getCustomerDashboard dead_inner)
                               [7] (CircuitBreakerDecorator.new (Some 2) (Some 1000),
                                    Mock.world Mock.env0))))]).
    rewrite Houtcomes. reflexivity.
Defined.

Lemma closed_below_threshold_witness :
  CircuitBreakerDecorator.state Mock.breaker1_recovered = CircuitBreakerDecorator.CLOSED /\
  CircuitBreakerDecorator.failureCount Mock.breaker1_recovered
    < CircuitBreakerDecorator.threshold Mock.breaker1_recovered.
Proof.
  destruct (closed_below_threshold Mock.inner (Some 1) (Some 0) Mock.breaker1_recovered)
    as (_ & _ & Hclosed).
  - simpl. lia.
  - apply reachable_call, reachable_call, reachable_new.
  - split; [reflexivity | exact (Hclosed eq_refl)].
Defined.

(** ** A failed [getQuery] and the next query *)

Section QueryBuilderReuse.
Import QueryBuilder.

(** Without [reset], the chainable methods only append to the bound
    parameters. *)
Lemma step_keeps_params (s : Step) (this : t) :
  is_Reset s = false -> _params this `prefix_of` _params (step s this).
Proof.
  intros Hs.
  destruct s as [cols | tbl | tbl cnd | tbl cnd | cnd ps | cnd ps | cnd ps
                | col vals | col dir | v | v | ]; simpl; try done.
  - unfold where_.
    pose proof (_processCondition_effect ps cnd this) as Heff.
    destruct (_processCondition cnd ps this) as [c this']. simpl in Heff.
    subst this'. simpl. by apply prefix_app_r.
  - unfold andWhere, where_.
    pose proof (_processCondition_effect ps cnd this) as Heff.
    destruct (_processCondition cnd ps this) as [c this']. simpl in Heff.
    subst this'. simpl. by apply prefix_app_r.
  - unfold orWhere. destruct (0 <? length (_where this))%nat.
    + match goal with |- context [_processCondition cnd ps ?b] =>
        pose proof (_processCondition_effect ps cnd b) as Heff;
        destruct (_processCondition cnd ps b) as [c this'] end.
      simpl in Heff. subst this'. simpl. by apply prefix_app_r.
    + pose proof (_processCondition_effect ps cnd this) as Heff.
      destruct (_processCondition cnd ps this) as [c this']. simpl in Heff.
      subst this'. simpl. by apply prefix_app_r.
  - unfold whereIn. destruct (length vals =? 0)%nat; [done|].
    simpl. by apply prefix_app_r.
Qed.

Lemma chain_keeps_params (steps : list Step) :
  forall this : t,
  forallb (fun s => negb (is_Reset s)) steps = true ->
  _params this `prefix_of` _params (chain steps this).
Proof.
  induction steps as [|s steps IH]; intros this Hno; simpl; [done|].
  simpl in Hno. apply andb_true_iff in Hno as [Hs Hrest].
  apply negb_true_iff in Hs.
  etrans; [apply (step_keeps_params s this Hs) | apply IH, Hrest].
Qed.

(** X2.  [getQuery] on a builder without FROM clause throws and does not
    reset the builder: the parameters bound so far stay, and the next query
    built on the same builder without an explicit [reset()] carries them at
    the front of its [values].  A successful [getQuery] returns the bound
    parameters as [values] and leaves a fresh builder. *)
Theorem getQuery_failure_keeps_parameters (first second : list Step) :
  _from (chain first new) = "" ->
  forallb (fun s => negb (is_Reset s)) second = true ->
  _from (chain second (chain first new)) <> "" ->
  let failed := getQuery (chain first new) in
  let next := getQuery (chain second (snd failed)) in
  fst failed = Throw (Error "FROM clause is required") /\
  snd failed = chain first new /\
  exists result,
    next = (Return result, new) /\
    values result = _params (chain second (chain first new)) /\
    _params (chain first new) `prefix_of` values result.
Proof.
  intros Hfrom Hno Hfrom2 failed next. subst next failed.
  destruct (getQuery_resets_on_success (chain first new)) as [Hfail _].
  rewrite (Hfail Hfrom). cbn [fst snd].
  split; [reflexivity|]. split; [reflexivity|].
  destruct (getQuery_resets_on_success (chain second (chain first new))) as [_ Hok].
  destruct (Hok Hfrom2) as (result & Hresult & Hvalues).
  exists result. split; [exact Hresult|]. split; [exact Hvalues|].
  rewrite Hvalues. by apply chain_keeps_params.
Qed.

End QueryBuilderReuse.

Lemma getQuery_failure_keeps_parameters_witness :
  exists result,
    QueryBuilder.getQuery
      (QueryBuilder.chain [QueryBuilder.From "orders"]
         (snd (QueryBuilder.getQuery
                 (QueryBuilder.chain [QueryBuilder.Where "id = ?" [QueryBuilder.Num 1]]
                    QueryBuilder.new))))
    = (Return result, QueryBuilder.new) /\
    QueryBuilder.values result = [QueryBuilder.Num 1].
Proof.
  destruct (getQuery_failure_keeps_parameters
              [QueryBuilder.Where "id = ?" [QueryBuilder.Num 1]]
              [QueryBuilder.From "orders"] eq_refl eq_refl)
    as (_ & _ & result & Hnext & Hvalues & _); [discriminate|].
  exists result. split; [exact Hnext | exact Hvalues].
Defined.
